(** * HyperList: a shallow embedding of the virtual-scrolling engine

    The repository holds three snapshots of the same class:
    - [src/unnamed/part_000]: the chunk renderer with incremental
      scroll-height bookkeeping ([Part000] below);
    - [src/unnamed/part_001]: the chunk renderer with reverse mode and a
      scroll-position override ([Part001]);
    - [src/lib/index.js]: the row-window renderer ([LibIndex]).

    JavaScript numbers are modelled by [JS.num]: exact rationals extended
    with both infinities and NaN.  Negative zero and rounding are not
    modelled: the model gives the values of the code where its double
    arithmetic is exact, and the statements that depend on the value of a
    sum, a difference or a quotient are made for whole numbers in that
    range (module [Exact]).  Arrays are lists of optional elements, [None]
    standing for a hole.  A method that can throw returns an [outcome] carrying the
    state reached at the throw, because JavaScript keeps the mutations made
    before an exception. *)

From Stdlib Require Import ZArith QArith Qround Lia Lqa Bool String.
From stdpp Require Import base option list.

Local Open Scope Z_scope.

(** ** JavaScript values *)

Module JS.

Inductive num : Type :=
| Fin (q : Q)
| PInf
| NInf
| NaN.

Definition of_Z (z : Z) : num := Fin (inject_Z z).

Definition is_nan (a : num) : bool :=
  match a with NaN => true | _ => false end.

Definition is_fin (a : num) : bool :=
  match a with Fin _ => true | _ => false end.

(** [isNumber(x)]: [typeof x == 'number' && !isNaN(x)], on a value already
    known to be a number. *)
Definition isNumber (a : num) : bool := negb (is_nan a).

Definition nadd (a b : num) : num :=
  match a, b with
  | NaN, _ | _, NaN => NaN
  | Fin x, Fin y => Fin (x + y)
  | PInf, NInf | NInf, PInf => NaN
  | PInf, _ | _, PInf => PInf
  | NInf, _ | _, NInf => NInf
  end.

Definition nneg (a : num) : num :=
  match a with
  | Fin x => Fin (- x)
  | PInf => NInf
  | NInf => PInf
  | NaN => NaN
  end.

Definition nsub (a b : num) : num := nadd a (nneg b).

Definition nsign (a : num) : Z :=
  match a with
  | Fin x => Z.sgn (Qnum x)
  | PInf => 1
  | NInf => -1
  | NaN => 0
  end.

Definition of_sign (s : Z) : num :=
  match s with
  | Z0 => NaN
  | Zpos _ => PInf
  | Zneg _ => NInf
  end.

Definition nmul (a b : num) : num :=
  match a, b with
  | NaN, _ | _, NaN => NaN
  | Fin x, Fin y => Fin (x * y)
  | _, _ => of_sign (nsign a * nsign b)
  end.

Definition ndiv (a b : num) : num :=
  match a, b with
  | NaN, _ | _, NaN => NaN
  | Fin x, Fin y =>
      if Qeq_bool y 0 then of_sign (nsign a) else Fin (x / y)
  | Fin _, _ => Fin 0
  | _, Fin y => of_sign (nsign a * (if Qle_bool 0 y then 1 else -1))
  | _, _ => NaN
  end.

(** [Math.ceil] *)
Definition nceil (a : num) : num :=
  match a with
  | Fin x => Fin (inject_Z (Qceiling x))
  | _ => a
  end.

(** Comparison of two numbers; [None] when either is NaN. *)
Definition ncmp (a b : num) : option comparison :=
  match a, b with
  | NaN, _ | _, NaN => None
  | Fin x, Fin y => Some (x ?= y)%Q
  | PInf, PInf | NInf, NInf => Some Eq
  | PInf, _ | _, NInf => Some Gt
  | _, _ => Some Lt
  end.

(** [a < b] *)
Definition nlt (a b : num) : bool :=
  match ncmp a b with Some Lt => true | _ => false end.

(** [a > b] *)
Definition ngt (a b : num) : bool := nlt b a.

(** [a <= b] *)
Definition nle (a b : num) : bool :=
  match ncmp a b with Some Lt | Some Eq => true | _ => false end.

(** [a === b] on numbers *)
Definition nseq (a b : num) : bool :=
  match ncmp a b with Some Eq => true | _ => false end.

(** Truthiness of a number: [0] and [NaN] are falsy. *)
Definition truthy (a : num) : bool :=
  match a with
  | Fin x => negb (Qeq_bool x 0)
  | NaN => false
  | _ => true
  end.

(** [a || b] on numbers *)
Definition nor (a b : num) : num := if truthy a then a else b.

(** [Math.max(a, b)]: NaN as soon as one argument is NaN. *)
Definition nmax (a b : num) : num :=
  match ncmp a b with
  | None => NaN
  | Some Lt => b
  | Some _ => a
  end.

(** Two numbers are the same value: equal rationals, the same infinity,
    or both NaN. *)
Definition nsame (a b : num) : Prop :=
  match a, b with
  | Fin x, Fin y => (x == y)%Q
  | PInf, PInf | NInf, NInf | NaN, NaN => True
  | _, _ => False
  end.

(** *** Arrays of numbers *)

Abbreviation array := (list (option num)).

(** [a[i]] read where a number is expected: a hole, a missing index or a
    negative index reads [undefined], which arithmetic and comparisons
    turn into NaN. *)
Definition aget (a : array) (i : Z) : num :=
  if i <? 0 then NaN
  else match a !! Z.to_nat i with
       | Some (Some v) => v
       | _ => NaN
       end.

(** [a[i] = v]: inside the array the slot is overwritten; at or past the
    end the array grows, leaving holes in between.  A negative index sets
    a named property and leaves the elements alone. *)
Definition aset (a : array) (i : Z) (v : num) : array :=
  if i <? 0 then a
  else
    let n := Z.to_nat i in
    if (n <? length a)%nat then <[n := Some v]> a
    else a ++ replicate (n - length a)%nat None ++ [Some v].

(** [Array(n).fill(v)] for a valid array length [n]. *)
Definition afill (n : Z) (v : num) : array := replicate (Z.to_nat n) (Some v).

(** [a.reduce((x, y) => x + y, 0)]: holes are skipped. *)
Definition sum_step (acc : num) (e : option num) : num :=
  match e with Some v => nadd acc v | None => acc end.

Definition asum (a : array) : num := fold_left sum_step a (Fin 0).

(** [a.slice(0).sort((x, y) => x - y)]: the defined elements in
    ascending order, holes last.  The comparator is consistent unless NaN
    or two equal infinities occur among the elements; the order is then
    left to the engine, and the insertion sort of the model is one
    possible answer, not the one of every engine. *)
Fixpoint insert_sorted (x : num) (l : list num) : list num :=
  match l with
  | [] => [x]
  | y :: l' =>
      if nlt (nsub x y) (Fin 0) then x :: l else y :: insert_sorted x l'
  end.

Definition isort (l : list num) : list num :=
  fold_left (fun acc x => insert_sorted x acc) l [].

Definition asort (a : array) : array :=
  let vals := omap id a in
  (Some <$> isort vals) ++ replicate (length a - length vals)%nat None.

(** *** Exceptions *)

Inductive error : Type :=
| Error (msg : string)
| TypeError (msg : string)
| RangeError (msg : string)
| ReferenceError (msg : string).

(** Result of running a method on a state of type [S]: the method either
    returns a value or throws; both carry the state reached. *)
Inductive outcome (S R : Type) : Type :=
| Return (s : S) (r : R)
| Throw (s : S) (e : error).
Arguments Return {S R} s r.
Arguments Throw {S R} s e.

Definition bind {S A B} (m : outcome S A) (k : S -> A -> outcome S B)
  : outcome S B :=
  match m with
  | Return s a => k s a
  | Throw s e => Throw s e
  end.

Definition final_state {S R} (o : outcome S R) : S :=
  match o with Return s _ => s | Throw s _ => s end.

Definition returned {S R} (o : outcome S R) : bool :=
  match o with Return _ _ => true | Throw _ _ => false end.

(** A [for (let i = from; ...; i++)] loop of [n] iterations whose body
    can throw. *)
Fixpoint for_each {S : Type} (n : nat) (i : Z)
    (body : Z -> S -> outcome S unit) (s : S) : outcome S unit :=
  match n with
  | O => Return s tt
  | S n' =>
      match body i s with
      | Return s' _ => for_each n' (i + 1) body s'
      | Throw s' e => Throw s' e
      end
  end.

End JS.


(** ** The chunk renderer: state shared by part_000 and part_001 *)

Module Chunk.
Import JS.

(** Handle of an element node owned by the render surface. *)
Definition node : Type := nat.

(** What [config.generate(i)] can hand back. *)
Inductive generated : Type :=
| GenNullish                                   (* null or undefined *)
| GenNode (n : node)                           (* an element node *)
| GenSized (element : option node) (height : num)   (* {element, height} *)
| GenOther.                                    (* any other object *)

Inductive callback : Type :=
| NotFunction
| Function (f : Z -> generated).

(** [config.itemCount]: a row count, or one of the two values of a
    missing count that [isNumber] rejects. *)
Inductive count_val : Type :=
| CountUndefined
| CountNaN
| Count (n : Z).

(** [config.itemHeight] *)
Inductive height_val : Type :=
| HeightNullish                 (* undefined or null *)
| HeightNumber (h : num)        (* typeof 'number', NaN included *)
| HeightArray (a : array)
| HeightOther.

Record Config : Type := {
  generate : callback;
  itemCount : count_val;
  itemHeight : height_val;
  useFragment : option bool;              (* None: not a boolean *)
  reverse : bool;
  overrideScrollPosition : option num     (* Some v: a function returning v *)
}.

(** The options object handed to [refresh]; [None] is an absent key. *)
Record NewConfig : Type := {
  new_generate : option callback;
  new_itemCount : option count_val;
  new_itemHeight : option height_val;
  new_useFragment : option (option bool);
  new_reverse : option bool;
  new_overrideScrollPosition : option (option num)
}.

(** [Object.assign(config, newConfig)] *)
Definition assign (c : Config) (n : NewConfig) : Config :=
  {| generate := default (generate c) (new_generate n);
     itemCount := default (itemCount c) (new_itemCount n);
     itemHeight := default (itemHeight c) (new_itemHeight n);
     useFragment := default (useFragment c) (new_useFragment n);
     reverse := default (reverse c) (new_reverse n);
     overrideScrollPosition :=
       default (overrideScrollPosition c) (new_overrideScrollPosition n) |}.

Definition empty_config : Config :=
  {| generate := NotFunction; itemCount := CountUndefined;
     itemHeight := HeightNullish; useFragment := None; reverse := false;
     overrideScrollPosition := None |}.

Definition set_useFragment (c : Config) (b : option bool) : Config :=
  {| generate := generate c; itemCount := itemCount c;
     itemHeight := itemHeight c; useFragment := b; reverse := reverse c;
     overrideScrollPosition := overrideScrollPosition c |}.

(** The container element, along the scroll axis. *)
Record Element : Type := {
  nodeType : Z;
  scrollTop : num;
  clientHeight : num
}.

(** Instance fields.  A numeric field that was never assigned holds
    [undefined]; every use of these fields is arithmetic, a comparison or
    a truth test, where [undefined] and NaN agree, so the model stores
    NaN.  [_children] lists the row nodes attached to the container. *)
Record HyperList : Type := {
  _config : Config;
  _lastRepaint : option num;              (* None: null *)
  _element : Element;
  _itemHeights : option array;            (* None: undefined *)
  _itemPositions : option array;
  _scrollHeight : num;
  _containerSize : num;
  _screenItemsLen : num;
  _cachedItemsLen : num;
  _averageHeight : num;
  _lastFrom : num;
  _children : list node
}.

Definition with_config (c : Config) (s : HyperList) : HyperList :=
  {| _config := c; _lastRepaint := _lastRepaint s; _element := _element s;
     _itemHeights := _itemHeights s; _itemPositions := _itemPositions s;
     _scrollHeight := _scrollHeight s; _containerSize := _containerSize s;
     _screenItemsLen := _screenItemsLen s;
     _cachedItemsLen := _cachedItemsLen s;
     _averageHeight := _averageHeight s; _lastFrom := _lastFrom s;
     _children := _children s |}.

Definition with_lastRepaint (r : option num) (s : HyperList) : HyperList :=
  {| _config := _config s; _lastRepaint := r; _element := _element s;
     _itemHeights := _itemHeights s; _itemPositions := _itemPositions s;
     _scrollHeight := _scrollHeight s; _containerSize := _containerSize s;
     _screenItemsLen := _screenItemsLen s;
     _cachedItemsLen := _cachedItemsLen s;
     _averageHeight := _averageHeight s; _lastFrom := _lastFrom s;
     _children := _children s |}.

Definition with_element (e : Element) (s : HyperList) : HyperList :=
  {| _config := _config s; _lastRepaint := _lastRepaint s; _element := e;
     _itemHeights := _itemHeights s; _itemPositions := _itemPositions s;
     _scrollHeight := _scrollHeight s; _containerSize := _containerSize s;
     _screenItemsLen := _screenItemsLen s;
     _cachedItemsLen := _cachedItemsLen s;
     _averageHeight := _averageHeight s; _lastFrom := _lastFrom s;
     _children := _children s |}.

Definition with_itemHeights (a : option array) (s : HyperList) : HyperList :=
  {| _config := _config s; _lastRepaint := _lastRepaint s;
     _element := _element s;
     _itemHeights := a; _itemPositions := _itemPositions s;
     _scrollHeight := _scrollHeight s; _containerSize := _containerSize s;
     _screenItemsLen := _screenItemsLen s;
     _cachedItemsLen := _cachedItemsLen s;
     _averageHeight := _averageHeight s; _lastFrom := _lastFrom s;
     _children := _children s |}.

Definition with_itemPositions (a : option array) (s : HyperList)
  : HyperList :=
  {| _config := _config s; _lastRepaint := _lastRepaint s;
     _element := _element s;
     _itemHeights := _itemHeights s; _itemPositions := a;
     _scrollHeight := _scrollHeight s; _containerSize := _containerSize s;
     _screenItemsLen := _screenItemsLen s;
     _cachedItemsLen := _cachedItemsLen s;
     _averageHeight := _averageHeight s; _lastFrom := _lastFrom s;
     _children := _children s |}.

Definition with_scrollHeight (h : num) (s : HyperList) : HyperList :=
  {| _config := _config s; _lastRepaint := _lastRepaint s;
     _element := _element s;
     _itemHeights := _itemHeights s; _itemPositions := _itemPositions s;
     _scrollHeight := h; _containerSize := _containerSize s;
     _screenItemsLen := _screenItemsLen s;
     _cachedItemsLen := _cachedItemsLen s;
     _averageHeight := _averageHeight s; _lastFrom := _lastFrom s;
     _children := _children s |}.

(** The four fields that [_computeScrollHeight] assigns together. *)
Definition with_metrics (size screen cached average : num) (s : HyperList)
  : HyperList :=
  {| _config := _config s; _lastRepaint := _lastRepaint s;
     _element := _element s;
     _itemHeights := _itemHeights s; _itemPositions := _itemPositions s;
     _scrollHeight := _scrollHeight s; _containerSize := size;
     _screenItemsLen := screen;
     _cachedItemsLen := cached;
     _averageHeight := average; _lastFrom := _lastFrom s;
     _children := _children s |}.

Definition with_lastFrom (f : num) (s : HyperList) : HyperList :=
  {| _config := _config s; _lastRepaint := _lastRepaint s;
     _element := _element s;
     _itemHeights := _itemHeights s; _itemPositions := _itemPositions s;
     _scrollHeight := _scrollHeight s; _containerSize := _containerSize s;
     _screenItemsLen := _screenItemsLen s;
     _cachedItemsLen := _cachedItemsLen s;
     _averageHeight := _averageHeight s; _lastFrom := f;
     _children := _children s |}.

Definition with_children (c : list node) (s : HyperList) : HyperList :=
  {| _config := _config s; _lastRepaint := _lastRepaint s;
     _element := _element s;
     _itemHeights := _itemHeights s; _itemPositions := _itemPositions s;
     _scrollHeight := _scrollHeight s; _containerSize := _containerSize s;
     _screenItemsLen := _screenItemsLen s;
     _cachedItemsLen := _cachedItemsLen s;
     _averageHeight := _averageHeight s; _lastFrom := _lastFrom s;
     _children := c |}.

(** [if (element) this._element = element] *)
Definition replace_element (element : option Element) (s : HyperList)
  : HyperList :=
  match element with
  | Some e => with_element e s
  | None => s
  end.

(** [config.itemCount] where a number is expected. *)
Definition count_num (c : count_val) : num :=
  match c with
  | Count n => of_Z n
  | _ => NaN
  end.

(** The median taken by [_computeScrollHeight]:
    [middle = Math.floor(itemCount / 2)], then the mean of the two middle
    entries for an even count, the middle entry for an odd one. *)
Definition median (sorted : array) (count : count_val) : num :=
  match count with
  | Count n =>
      let middle := n / 2 in
      if Z.rem n 2 =? 0
      then ndiv (nadd (aget sorted middle) (aget sorted (middle - 1))) (Fin 2)
      else aget sorted middle
  | _ => NaN
  end.

End Chunk.

(** ** part_001: chunk renderer with reverse mode *)

Module Part001.
Import JS Chunk.

Definition undefined_read : error :=
  TypeError "Cannot read properties of undefined".

Definition _getScrollPosition (s : HyperList) : num :=
  match overrideScrollPosition (_config s) with
  | Some v => v
  | None => scrollTop (_element s)
  end.

(** In reverse mode the method also asks for the scroll position to be
    moved to the tail on the next animation frame; that deferred write to
    the container is outside the model. *)
Definition _computeScrollHeight (s : HyperList) : outcome HyperList num :=
  match _itemHeights s with
  | None => Throw s undefined_read
  | Some heights =>
      let scrollHeight := asum heights in
      let sortedItemHeights := asort heights in
      let averageHeight := median sortedItemHeights (itemCount (_config s)) in
      let containerSize := clientHeight (_element s) in
      let screenItemsLen := nceil (ndiv containerSize averageHeight) in
      let cachedItemsLen :=
        nmax (nor (_cachedItemsLen s) (Fin 0)) (nmul screenItemsLen (Fin 3)) in
      Return (with_metrics containerSize screenItemsLen cachedItemsLen
                           averageHeight s)
             scrollHeight
  end.

(** The value assigned to [_itemPositions[i]] by the loop of
    [_computePositions]. *)
Definition position_value (rev : bool) (scrollHeight : num)
    (heights positions : array) (i : Z) : num :=
  if rev then
    if i =? 0 then nsub scrollHeight (aget heights 0)
    else nsub (aget positions (i - 1)) (aget heights i)
  else nadd (aget heights (i - 1)) (aget positions (i - 1)).

(** Body of the loop of [_computePositions]. *)
Definition position_step (rev : bool) (i : Z) (s : HyperList)
  : outcome HyperList unit :=
  match _itemPositions s, _itemHeights s with
  | Some positions, Some heights =>
      let v := position_value rev (_scrollHeight s) heights positions i in
      Return (with_itemPositions (Some (aset positions i v)) s) tt
  | _, _ => Throw s undefined_read
  end.

(** The table left by [m] iterations of that loop started at index [i]. *)
Fixpoint fill_positions (rev : bool) (scrollHeight : num) (heights : array)
    (m : nat) (i : Z) (positions : array) : array :=
  match m with
  | O => positions
  | S m' =>
      fill_positions rev scrollHeight heights m' (i + 1)
        (aset positions i
              (position_value rev scrollHeight heights positions i))
  end.

(** Number of iterations of [for (i = from; i < itemCount; i++)]. *)
Definition loop_count (from : Z) (count : count_val) : nat :=
  match count with
  | Count n => Z.to_nat (n - from)
  | _ => O
  end.

Definition _computePositions (from : Z) (s : HyperList)
  : outcome HyperList unit :=
  let rev := reverse (_config s) in
  let from := if (from <? 1) && negb rev then 1 else from in
  for_each (loop_count from (itemCount (_config s))) from
           (position_step rev) s.

(** The indices [i] of the assignments [this._itemPositions[i] = ...] made
    by [_computePositions(from)], in order. *)
Definition positions_assigned (from : Z) (s : HyperList) : list Z :=
  let rev := reverse (_config s) in
  let from := if (from <? 1) && negb rev then 1 else from in
  (fun k => from + Z.of_nat k)
    <$> seq 0 (loop_count from (itemCount (_config s))).

(** The branch of [_getRow] taken when the generator reports a numeric
    height. *)
Definition height_update (i : Z) (height : num) (s : HyperList)
  : outcome HyperList unit :=
  match _itemHeights s with
  | None => Throw s undefined_read
  | Some heights =>
      if nseq height (aget heights i) then Return s tt
      else
        let s1 := with_itemHeights (Some (aset heights i height)) s in
        match _computePositions i s1 with
        | Throw s2 e => Throw s2 e
        | Return s2 _ =>
            match _computeScrollHeight s2 with
            | Throw s3 e => Throw s3 e
            | Return s3 h => Return (with_scrollHeight h s3) tt
            end
        end
  end.

Definition not_a_node (s : HyperList) : outcome HyperList node :=
  Throw s (Error "Generator did not return a DOM Node for index").

(** The reads of [_itemHeights[i]] and [_itemPositions[i]] made on the
    way: they only matter when the table is undefined. *)
Definition read_heights (s : HyperList) : outcome HyperList unit :=
  match _itemHeights s with
  | None => Throw s undefined_read
  | Some _ => Return s tt
  end.

Definition read_positions (n : node) (s : HyperList)
  : outcome HyperList node :=
  match _itemPositions s with
  | None => Throw s undefined_read
  | Some _ => Return s n
  end.

Definition _getRow (i : Z) (s : HyperList) : outcome HyperList node :=
  match generate (_config s) with
  | NotFunction => Throw s (TypeError "config.generate is not a function")
  | Function gen =>
      match gen i with
      | GenNullish => Throw s undefined_read
      | GenSized element height =>
          if isNumber height then
            bind (height_update i height s) (fun s' _ =>
              match element with
              | Some n => read_positions n s'
              | None => not_a_node s'
              end)
          else bind (read_heights s) (fun s' _ => not_a_node s')
      | GenNode n => bind (read_heights s) (fun s' _ => read_positions n s')
      | GenOther => bind (read_heights s) (fun s' _ => not_a_node s')
      end
  end.

(** [while (this._itemPositions[i] < scrollTop) i++], started at [i] on
    the part of the table from index [i] on.  The second component lists
    the indices whose position is read. *)
Fixpoint scan_from (positions : array) (scrollTop : num) (i : Z)
  : Z * list Z :=
  match positions with
  | Some p :: rest =>
      if nlt p scrollTop
      then let '(r, reads) := scan_from rest scrollTop (i + 1) in
           (r, i :: reads)
      else (i, [i])
  | _ => (i, [i])
  end.

Definition _getFrom (scrollTop : num) (s : HyperList)
  : outcome HyperList Z :=
  match _itemPositions s with
  | None => Throw s undefined_read
  | Some positions => Return s (fst (scan_from positions scrollTop 0))
  end.

(** Indices of [_itemPositions] read by [_getFrom]. *)
Definition _getFrom_reads (scrollTop : num) (s : HyperList) : list Z :=
  match _itemPositions s with
  | None => []
  | Some positions => snd (scan_from positions scrollTop 0)
  end.

(** [while (i > 0 && this._itemPositions[i] < bound) i--], started at
    [i]; the reads are listed as in [scan_from]. *)
Fixpoint scan_reverse (positions : array) (bound : num) (i : nat)
  : Z * list Z :=
  match i with
  | O => (0, [])
  | S i' =>
      if nlt (aget positions (Z.of_nat i)) bound
      then let '(r, reads) := scan_reverse positions bound i' in
           (r, Z.of_nat i :: reads)
      else (Z.of_nat i, [Z.of_nat i])
  end.

(** The result is [None] for NaN, which is what [itemCount - 1] is when
    the count is missing. *)
Definition _getReverseFrom (scrollTop : num) (s : HyperList)
  : outcome HyperList (option Z) :=
  match itemCount (_config s) with
  | Count n =>
      let i := n - 1 in
      if i <=? 0 then Return s (Some i)
      else
        match _itemPositions s with
        | None => Throw s undefined_read
        | Some positions =>
            let bound := nadd scrollTop (_containerSize s) in
            Return s (Some (fst (scan_reverse positions bound (Z.to_nat i))))
        end
  | _ => Return s None
  end.

(** Indices of [_itemPositions] read by [_getReverseFrom]. *)
Definition _getReverseFrom_reads (scrollTop : num) (s : HyperList)
  : list Z :=
  match itemCount (_config s), _itemPositions s with
  | Count n, Some positions =>
      if n - 1 <=? 0 then []
      else snd (scan_reverse positions
                             (nadd scrollTop (_containerSize s))
                             (Z.to_nat (n - 1)))
  | _, _ => []
  end.

Definition index_num (i : option Z) : num :=
  match i with
  | Some z => of_Z z
  | None => NaN
  end.

(** Number of iterations of [for (let i = from; i < to; i++)]; [None]
    when the loop has no exit. *)
Definition rows_count (from : option Z) (to : num) : option nat :=
  match from, to with
  | None, _ => Some O
  | Some z, Fin q => Some (Z.to_nat (Qceiling q - z))
  | Some z, PInf => None
  | Some z, _ => Some O
  end.

Definition row_step (i : Z) (st : HyperList * list node)
  : outcome (HyperList * list node) unit :=
  match _getRow i (fst st) with
  | Return s' row => Return (s', snd st ++ [row]) tt
  | Throw s' e => Throw (s', snd st) e
  end.

(** [if (from < 0 || from - this._screenItemsLen < 0) from = 0] *)
Definition clamp_from (from : option Z) (s : HyperList) : option Z :=
  if nlt (index_num from) (Fin 0)
     || nlt (nsub (index_num from) (_screenItemsLen s)) (Fin 0)
  then Some 0 else from.

(** [to = from + cachedItemsLen], then
    [if (to > itemCount || to + cachedItemsLen > itemCount) to = itemCount] *)
Definition clamp_to (from : option Z) (s : HyperList) : num :=
  let itemCount := count_num (itemCount (_config s)) in
  let to := nadd (index_num from) (_cachedItemsLen s) in
  if ngt to itemCount || ngt (nadd to (_cachedItemsLen s)) itemCount
  then itemCount else to.

(** The rows of the chunk, once [from] is known. *)
Definition render_from (force : bool) (from0 : option Z) (s : HyperList)
  : outcome HyperList bool :=
  let from := clamp_from from0 s in
  if negb force && nseq (_lastFrom s) (index_num from)
  then Return s false
  else
    let s := with_lastFrom (index_num from) s in
    let to := clamp_to from s in
    match rows_count from to with
    | None => Throw s (Error "the row loop never exits")
    | Some n =>
        match for_each n (default 0 from) row_step (s, []) with
        | Return (s', rows) _ => Return (with_children rows s') true
        | Throw (s', _) e => Throw s' e
        end
    end.

(** Returns [false] for the early [return false], [true] otherwise.  The
    [applyPatch] hook is taken to be absent. *)
Definition _renderChunk (force : bool) (s : HyperList)
  : outcome HyperList bool :=
  let scrollTop := _getScrollPosition s in
  bind (if reverse (_config s) then _getReverseFrom scrollTop s
        else bind (_getFrom scrollTop s)
                  (fun s i => Return s (Some (i - 1))))
       (fun s from => render_from force from s).

(** The two tests of the render loop, for the scroll position [scrollTop]:
    [true] when the loop goes on to call [_renderChunk]. *)
Definition should_render (scrollTop : num) (s : HyperList) : bool :=
  let lastRepaint := _lastRepaint s in
  if from_option (nseq scrollTop) false lastRepaint
     || negb (truthy (_scrollHeight s))
  then false
  else
    let lastTruthy := from_option truthy false lastRepaint in
    let diff :=
      if lastTruthy then nsub scrollTop (default NaN lastRepaint)
      else Fin 0 in
    negb lastTruthy || nlt diff (Fin 0) || ngt diff (_averageHeight s).

(** One run of the render loop installed by the constructor.  The result
    tells whether [_renderChunk] was called.  An [overrideScrollPosition]
    callback is taken to answer the same value to the loop and to
    [_renderChunk]. *)
Definition render (s : HyperList) : outcome HyperList bool :=
  let scrollTop := _getScrollPosition s in
  if should_render scrollTop s then
    match _renderChunk false s with
    | Return s' _ => Return (with_lastRepaint (Some scrollTop) s') true
    | Throw s' e => Throw s' e
    end
  else Return s false.

(** [Array(n)] accepts an integer length in [0, 2^32 - 1]. *)
Definition valid_array_length (n : Z) : bool :=
  (0 <=? n) && (n <=? 4294967295).

(** [Object.assign(config, newConfig)] followed by the default for
    [useFragment]; both are done on [this._config] itself. *)
Definition merge_config (c : Config) (newConfig : NewConfig) : Config :=
  let c := assign c newConfig in
  match useFragment c with
  | Some _ => c
  | None => set_useFragment c (Some true)
  end.

(** The validation block of [refresh], run when [newConfig] is given. *)
Definition configure (newConfig : NewConfig) (s : HyperList)
  : outcome HyperList unit :=
  let s := with_config (merge_config (_config s) newConfig) s in
  match generate (_config s) with
  | NotFunction => Throw s (Error "Missing required `generate` function")
  | Function _ =>
      match itemCount (_config s) with
      | Count n =>
          if bool_decide (is_Some (new_itemCount newConfig))
             || match new_itemHeight newConfig with
                | Some HeightNullish | None => false
                | Some _ => true
                end
          then
            match itemHeight (_config s) with
            | HeightNumber h =>
                if isNumber h then
                  if valid_array_length n
                  then Return (with_itemHeights (Some (afill n h)) s) tt
                  else Throw s (RangeError "Invalid array length")
                else
                  Throw s
                    (Error "Missing required `itemHeight` number or array")
            (* the source stores the array object itself: a later write
               to [_itemHeights] is a write to [config.itemHeight] too.
               The model keeps a copy in the configuration, so it follows
               the code up to the next [refresh] that reads
               [config.itemHeight] after a height has been measured. *)
            | HeightArray a => Return (with_itemHeights (Some a) s) tt
            | _ =>
                Throw s
                  (Error "Missing required `itemHeight` number or array")
            end
          else Return s tt
      | _ => Throw s (Error "Missing required `itemCount` number")
      end
  end.

(** [Array(config.itemCount).fill(0)] *)
Definition fresh_positions (s : HyperList) : outcome HyperList unit :=
  match _itemPositions s with
  | Some _ => Return s tt
  | None =>
      match itemCount (_config s) with
      | Count n =>
          if valid_array_length n
          then Return (with_itemPositions (Some (afill n (Fin 0))) s) tt
          else Throw s (RangeError "Invalid array length")
      | CountNaN => Throw s (RangeError "Invalid array length")
      | CountUndefined => Return (with_itemPositions (Some [Some (Fin 0)]) s) tt
      end
  end.

(** [refresh(element, newConfig)], after the one-argument call
    [refresh(newConfig)] has been told apart: [None] stands for an
    argument that is absent or falsy.  Styling and the scroller element
    are left to the render surface. *)
Definition refresh (element : option Element) (newConfig : option NewConfig)
    (s : HyperList) : outcome HyperList unit :=
  bind (match element with
        | None => Return s tt
        | Some e =>
            if nodeType e =? 1 then Return (with_element e s) tt
            else Throw s (Error "HyperList requires a valid DOM Node container")
        end)
  (fun s _ =>
  bind (match newConfig with
        | None => Return s tt
        | Some nc => configure nc s
        end)
  (fun s _ =>
  bind (_computeScrollHeight s)
  (fun s h =>
  let s := with_scrollHeight h s in
  bind (fresh_positions s)
  (fun s _ =>
  bind (_computePositions 0 s)
  (fun s _ =>
  if truthy (_scrollHeight s)
  then bind (_renderChunk (bool_decide (_lastRepaint s <> None)) s)
            (fun s _ => Return s tt)
  else Return s tt))))).

(** The instance before the constructor calls [refresh]. *)
Definition blank (element : Element) : HyperList :=
  {| _config := empty_config; _lastRepaint := None; _element := element;
     _itemHeights := None; _itemPositions := None;
     _scrollHeight := NaN; _containerSize := NaN; _screenItemsLen := NaN;
     _cachedItemsLen := NaN; _averageHeight := NaN; _lastFrom := NaN;
     _children := [] |}.

(** [new HyperList(element, config)] for an [element] that is an object;
    the state carried by a throw is that of the discarded instance. *)
Definition construct (element : Element) (config : option NewConfig)
  : outcome HyperList unit :=
  if nodeType element =? 1
  then bind (refresh (Some element) config (blank element))
            (fun s _ => bind (render s) (fun s _ => Return s tt))
  else Throw (blank element)
             (Error "HyperList requires a valid DOM Node container").

End Part001.

(** ** part_000: chunk renderer, forward mode only *)

Module Part000.
Import JS Chunk.

Definition undefined_read : error := Part001.undefined_read.

(** Same text as in part_001 apart from the reverse-mode request. *)
Definition _computeScrollHeight (s : HyperList) : outcome HyperList num :=
  match _itemHeights s with
  | None => Throw s undefined_read
  | Some heights =>
      let scrollHeight := asum heights in
      let sortedItemHeights := asort heights in
      let averageHeight := median sortedItemHeights (itemCount (_config s)) in
      let containerSize := clientHeight (_element s) in
      let screenItemsLen := nceil (ndiv containerSize averageHeight) in
      let cachedItemsLen :=
        nmax (nor (_cachedItemsLen s) (Fin 0)) (nmul screenItemsLen (Fin 3)) in
      Return (with_metrics containerSize screenItemsLen cachedItemsLen
                           averageHeight s)
             scrollHeight
  end.

Definition position_step (i : Z) (s : HyperList) : outcome HyperList unit :=
  match _itemPositions s, _itemHeights s with
  | Some positions, Some heights =>
      let v := nadd (aget heights (i - 1)) (aget positions (i - 1)) in
      Return (with_itemPositions (Some (aset positions i v)) s) tt
  | _, _ => Throw s undefined_read
  end.

(** The indices assigned by [_computePositions(from)]. *)
Definition positions_assigned (from : Z) (s : HyperList) : list Z :=
  let from' := if from =? 0 then 1 else from in
  (if from =? 0 then [0] else [])
  ++ ((fun k => from' + Z.of_nat k)
        <$> seq 0 (Part001.loop_count from' (itemCount (_config s)))).

Definition _computePositions (from : Z) (s : HyperList)
  : outcome HyperList unit :=
  bind (if from =? 0 then
          match _itemPositions s with
          | Some positions =>
              Return (with_itemPositions (Some (aset positions 0 (Fin 0))) s)
                     (from + 1)
          | None => Throw s undefined_read
          end
        else Return s from)
  (fun s from =>
     for_each (Part001.loop_count from (itemCount (_config s))) from
              position_step s).

Definition height_update (i : Z) (height : num) (s : HyperList)
  : outcome HyperList unit :=
  match _itemHeights s with
  | None => Throw s undefined_read
  | Some heights =>
      let prevHeight := aget heights i in
      if nseq height prevHeight then Return s tt
      else
        let s1 := with_itemHeights (Some (aset heights i height)) s in
        let s2 :=
          with_scrollHeight
            (nadd (_scrollHeight s1) (nsub height prevHeight)) s1 in
        _computePositions (i + 1) s2
  end.

Definition _getRow (i : Z) (s : HyperList) : outcome HyperList node :=
  match generate (_config s) with
  | NotFunction => Throw s (TypeError "config.generate is not a function")
  | Function gen =>
      match gen i with
      | GenNullish => Throw s undefined_read
      | GenSized element height =>
          if isNumber height then
            bind (height_update i height s) (fun s' _ =>
              match element with
              | Some n => Part001.read_positions n s'
              | None => Part001.not_a_node s'
              end)
          else bind (Part001.read_heights s)
                    (fun s' _ => Part001.not_a_node s')
      | GenNode n =>
          bind (Part001.read_heights s)
               (fun s' _ => Part001.read_positions n s')
      | GenOther =>
          bind (Part001.read_heights s) (fun s' _ => Part001.not_a_node s')
      end
  end.

Definition _getFrom (scrollTop : num) (s : HyperList)
  : outcome HyperList Z :=
  match _itemPositions s with
  | None => Throw s undefined_read
  | Some positions =>
      Return s (fst (Part001.scan_from positions scrollTop 0))
  end.

Definition row_step (i : Z) (st : HyperList * list node)
  : outcome (HyperList * list node) unit :=
  match _getRow i (fst st) with
  | Return s' row => Return (s', snd st ++ [row]) tt
  | Throw s' e => Throw (s', snd st) e
  end.

(** The clamping of [from] and [to] reads as in part_001. *)
Definition render_from (force : bool) (from0 : Z) (s : HyperList)
  : outcome HyperList bool :=
  let from := Part001.clamp_from (Some from0) s in
  if negb force && nseq (_lastFrom s) (Part001.index_num from)
  then Return s false
  else
    let s := with_lastFrom (Part001.index_num from) s in
    let to := Part001.clamp_to from s in
    match Part001.rows_count from to with
    | None => Throw s (Error "the row loop never exits")
    | Some n =>
        match for_each n (default 0 from) row_step (s, []) with
        | Return (s', rows) _ => Return (with_children rows s') true
        | Throw (s', _) e => Throw s' e
        end
    end.

Definition _renderChunk (force : bool) (s : HyperList)
  : outcome HyperList bool :=
  bind (_getFrom (scrollTop (_element s)) s)
       (fun s i => render_from force (i - 1) s).

Definition render (s : HyperList) : outcome HyperList bool :=
  let scrollTop := scrollTop (_element s) in
  if Part001.should_render scrollTop s then
    match _renderChunk false s with
    | Return s' _ => Return (with_lastRepaint (Some scrollTop) s') true
    | Throw s' e => Throw s' e
    end
  else Return s false.

(** The validation block is the one of part_001.  Past it, the template
    string that styles the scroller reads [scrollHeight], a name that is
    declared nowhere in the file (the local is called [scrollerHeight]),
    so this snapshot of [refresh] ends there. *)
Definition refresh (element : option Element) (newConfig : option NewConfig)
    (s : HyperList) : outcome HyperList unit :=
  bind (match element with
        | None => Return s tt
        | Some e =>
            if nodeType e =? 1 then Return (with_element e s) tt
            else Throw s (Error "HyperList requires a valid DOM Node container")
        end)
  (fun s _ =>
  bind (match newConfig with
        | None => Return s tt
        | Some nc => Part001.configure nc s
        end)
  (fun s _ => Throw s (ReferenceError "scrollHeight is not defined"))).

(** [new HyperList(element, config)], as in part_001. *)
Definition construct (element : Element) (config : option NewConfig)
  : outcome HyperList unit :=
  if nodeType element =? 1
  then bind (refresh (Some element) config (Part001.blank element))
            (fun s _ => bind (render s) (fun s _ => Return s tt))
  else Throw (Part001.blank element)
             (Error "HyperList requires a valid DOM Node container").

End Part000.

(** ** lib/index.js: the row-window renderer

    This file only adds, subtracts and compares row lengths and pixel
    offsets.  Its numbers are modelled as integers, [None] standing for
    NaN (and for [undefined] read as a number): the model is the code on
    whole lengths and offsets of magnitude up to 2^53, which doubles add
    and subtract without rounding.  Fractional lengths, whose sums the
    code rounds, are outside the model. *)

Module LibIndex.
Import JS.

Definition inum : Type := option Z.

Definition iadd (a b : inum) : inum :=
  match a, b with Some x, Some y => Some (x + y) | _, _ => None end.
Definition isub (a b : inum) : inum :=
  match a, b with Some x, Some y => Some (x - y) | _, _ => None end.
Definition imul (a b : inum) : inum :=
  match a, b with Some x, Some y => Some (x * y) | _, _ => None end.
(** [Math.max] and [Math.min] *)
Definition imax (a b : inum) : inum :=
  match a, b with Some x, Some y => Some (Z.max x y) | _, _ => None end.
Definition imin (a b : inum) : inum :=
  match a, b with Some x, Some y => Some (Z.min x y) | _, _ => None end.
Definition ilt (a b : inum) : bool :=
  match a, b with Some x, Some y => x <? y | _, _ => false end.
Definition ile (a b : inum) : bool :=
  match a, b with Some x, Some y => x <=? y | _, _ => false end.
Definition igt (a b : inum) : bool := ilt b a.
Definition ige (a b : inum) : bool := ile b a.
Definition ieq (a b : inum) : bool :=
  match a, b with Some x, Some y => x =? y | _, _ => false end.

Definition node : Type := nat.

(** A row object.  [onHide] and [onDisplay] observers are not modelled. *)
Record Row : Type := {
  row_node : option node;
  row_length : inum;            (* None: not a number *)
  row_start : inum;
  row_visible : bool
}.

(** [{}] *)
Definition empty_row : Row :=
  {| row_node := None; row_length := None; row_start := None;
     row_visible := false |}.

Definition set_node (n : option node) (r : Row) : Row :=
  {| row_node := n; row_length := row_length r; row_start := row_start r;
     row_visible := row_visible r |}.
Definition set_length (l : inum) (r : Row) : Row :=
  {| row_node := row_node r; row_length := l; row_start := row_start r;
     row_visible := row_visible r |}.
Definition set_start (p : inum) (r : Row) : Row :=
  {| row_node := row_node r; row_length := row_length r; row_start := p;
     row_visible := row_visible r |}.
Definition set_visible (v : bool) (r : Row) : Row :=
  {| row_node := row_node r; row_length := row_length r;
     row_start := row_start r; row_visible := v |}.

(** [{start, end, first, last}] *)
Record Window : Type := {
  win_start : inum;
  win_end : inum;
  win_first : Z;
  win_last : Z
}.

(** The root element: scroll offset, viewport height and attached row
    nodes. *)
Record Root : Type := {
  scrollTop : Z;
  clientHeight : Z;
  children : list node
}.

Definition set_children (c : list node) (r : Root) : Root :=
  {| scrollTop := scrollTop r; clientHeight := clientHeight r;
     children := c |}.

(** [root.appendChild(node)]: a node that is already a child moves to
    the end. *)
Definition appendChild (n : node) (r : Root) : Root :=
  set_children (filter (fun m => m <> n) (children r) ++ [n]) r.

(** [renderRow(i, row)]: the callback may fill in fields of the row; the
    second component is the node it returns, [None] when falsy.  The type
    covers the callbacks that return, and return an element node or a
    falsy value; a callback that throws, or that returns another truthy
    value (on which the styling of the node throws a TypeError), is
    outside the model. *)
Definition renderer : Type := Z -> Row -> Row * option node.

(** The default installed by the constructor: [(i, row) => row.node]. *)
Definition default_renderer : renderer := fun _ row => (row, row_node row).

Record HyperList : Type := {
  _root : Root;
  _rows : list (option Row);      (* None: a hole *)
  _window : option Window;        (* None: null *)
  _contentLength : inum;
  _renderRow : renderer;
  _rowLength : inum;              (* None: undefined *)
  _padding : Z;
  _refreshLoop : bool             (* a frame callback is scheduled *)
}.

Definition with_root (r : Root) (s : HyperList) : HyperList :=
  {| _root := r; _rows := _rows s; _window := _window s;
     _contentLength := _contentLength s; _renderRow := _renderRow s;
     _rowLength := _rowLength s; _padding := _padding s;
     _refreshLoop := _refreshLoop s |}.
Definition with_rows (r : list (option Row)) (s : HyperList) : HyperList :=
  {| _root := _root s; _rows := r; _window := _window s;
     _contentLength := _contentLength s; _renderRow := _renderRow s;
     _rowLength := _rowLength s; _padding := _padding s;
     _refreshLoop := _refreshLoop s |}.
Definition with_window (w : option Window) (s : HyperList) : HyperList :=
  {| _root := _root s; _rows := _rows s; _window := w;
     _contentLength := _contentLength s; _renderRow := _renderRow s;
     _rowLength := _rowLength s; _padding := _padding s;
     _refreshLoop := _refreshLoop s |}.
Definition with_contentLength (l : inum) (s : HyperList) : HyperList :=
  {| _root := _root s; _rows := _rows s; _window := _window s;
     _contentLength := l; _renderRow := _renderRow s;
     _rowLength := _rowLength s; _padding := _padding s;
     _refreshLoop := _refreshLoop s |}.
Definition with_renderRow (f : renderer) (s : HyperList) : HyperList :=
  {| _root := _root s; _rows := _rows s; _window := _window s;
     _contentLength := _contentLength s; _renderRow := f;
     _rowLength := _rowLength s; _padding := _padding s;
     _refreshLoop := _refreshLoop s |}.
Definition with_rowLength (l : inum) (s : HyperList) : HyperList :=
  {| _root := _root s; _rows := _rows s; _window := _window s;
     _contentLength := _contentLength s; _renderRow := _renderRow s;
     _rowLength := l; _padding := _padding s;
     _refreshLoop := _refreshLoop s |}.
Definition with_refreshLoop (b : bool) (s : HyperList) : HyperList :=
  {| _root := _root s; _rows := _rows s; _window := _window s;
     _contentLength := _contentLength s; _renderRow := _renderRow s;
     _rowLength := _rowLength s; _padding := _padding s;
     _refreshLoop := b |}.

(** [rows[i]]: [None] when the read gives [undefined]. *)
Definition row_at (rows : list (option Row)) (i : Z) : option Row :=
  if i <? 0 then None else mjoin (rows !! Z.to_nat i).

(** In-place change of the row object stored at index [i]. *)
Definition row_put (rows : list (option Row)) (i : Z) (r : Row)
  : list (option Row) :=
  if i <? 0 then rows else <[Z.to_nat i := Some r]> rows.

Definition undefined_read : error :=
  TypeError "Cannot read properties of undefined".

(** Truthiness of a number. *)
Definition itruthy (a : inum) : bool :=
  match a with Some x => negb (x =? 0) | None => false end.

(** *** Full resolve *)

(** Running values of the loop of [_renderRows]. *)
Record Layout : Type := {
  lay_list : HyperList;
  lay_len : Z;
  lay_first : Z;
  lay_last : Z
}.

(** One iteration of [while (++i < rows.length)], for the value of [i]
    after the increment. *)
Definition render_step (start end_ : Z) (i : Z) (a : Layout)
  : outcome Layout unit :=
  let s := lay_list a in
  let row := default empty_row (row_at (_rows s) i) in
  let '(row, rendered) := _renderRow s i row in
  let skip r :=
    {| lay_list := with_rows (row_put (_rows s) i r) s;
       lay_len := lay_len a; lay_first := lay_first a;
       lay_last := lay_last a |} in
  match rendered with
  | None => Return (skip row) tt
  | Some n =>
      let row := set_node (Some n) row in
      match (match row_length row with
             | Some l => Some l
             | None => if itruthy (_rowLength s) then _rowLength s else None
             end) with
      | None => Throw (skip row) (Error "Must provide a row length")
      | Some l =>
          let visible := (lay_len a <? end_) && (start <? lay_len a + l) in
          let row :=
            set_visible visible
              (set_start (Some (lay_len a)) (set_length (Some l) row)) in
          Return
            {| lay_list :=
                 with_root (appendChild n (_root s))
                   (with_rows (row_put (_rows s) i row) s);
               lay_len := lay_len a + l;
               lay_first :=
                 if visible && (lay_first a <? 0) then i else lay_first a;
               lay_last := if visible then i else lay_last a |}
            tt
      end
  end.

Definition _renderRows (s : HyperList) : outcome HyperList unit :=
  let start := scrollTop (_root s) - _padding s in
  let end_ := scrollTop (_root s) + clientHeight (_root s) + _padding s in
  match for_each (length (_rows s)) 0 (render_step start end_)
                 {| lay_list := s; lay_len := 0; lay_first := -1;
                    lay_last := -1 |} with
  | Throw a e => Throw (lay_list a) e
  | Return a _ =>
      Return
        (with_window
           (Some {| win_start := Some start; win_end := Some end_;
                    win_first := lay_first a; win_last := lay_last a |})
           (with_contentLength (Some (lay_len a)) (lay_list a)))
        tt
  end.

(** *** Incremental window tracking *)

(** [_hideRow(rows[i])] *)
Definition _hideRow (i : Z) (s : HyperList) : outcome HyperList unit :=
  match row_at (_rows s) i with
  | None => Throw s undefined_read
  | Some row =>
      let s := with_rows (row_put (_rows s) i (set_visible false row)) s in
      match row_node row with
      | None => Throw s undefined_read
      | Some _ => Return s tt
      end
  end.

(** The loop of [_findRow], entered with the current [i] and [len].
    Every iteration reads a row one step further in the same direction,
    so after [length rows] iterations the next read is out of the array:
    the fuel, started at that length, runs out exactly where the read
    throws. *)
Fixpoint find_loop (fuel : nat) (direction : Z) (endLength : inum)
    (i : Z) (len : inum) (s : HyperList) : outcome HyperList Z :=
  match fuel with
  | O => Throw s undefined_read
  | S fuel' =>
      let i := i + direction in
      match row_at (_rows s) i with
      | None => Throw s undefined_read
      | Some row =>
          if direction <? 0 then
            let len := isub len (row_length row) in
            if ilt len endLength || (i =? 0) then Return s i
            else find_loop fuel' direction endLength i len s
          else
            let len := iadd len (row_length row) in
            if igt len endLength || (i =? Z.of_nat (length (_rows s)))
            then Return s i
            else find_loop fuel' direction endLength i len s
      end
  end.

(** [startIndex] is [None] when the caller passes a variable that was
    never assigned. *)
Definition _findRow (startIndex : option Z) (endLength : inum)
    (direction : Z) (s : HyperList) : outcome HyperList Z :=
  match startIndex with
  | None => Throw s undefined_read
  | Some i =>
      if i <? 0 then Return s 0
      else if i >=? Z.of_nat (length (_rows s))
      then Return s (Z.of_nat (length (_rows s)) - 1)
      else
        match row_at (_rows s) i with
        | None => Throw s undefined_read
        | Some row =>
            find_loop (length (_rows s)) direction endLength i
                      (row_start row) s
        end
  end.

(** The loop of [_displayRows]; the fuel is used as in [find_loop]. *)
Fixpoint display_loop (fuel : nat) (direction endIndex : Z)
    (endLength : inum) (i : Z) (len : inum) (s : HyperList)
  : outcome HyperList Z :=
  match fuel with
  | O => Throw s undefined_read
  | S fuel' =>
      match row_at (_rows s) i with
      | None => Throw s undefined_read
      | Some row =>
          bind (if row_visible row then Return s tt
                else
                  let s :=
                    with_rows (row_put (_rows s) i (set_visible true row)) s in
                  match row_node row with
                  | None => Throw s undefined_read
                  | Some _ => Return s tt
                  end)
          (fun s _ =>
             let len := iadd len (imul (row_length row) (Some direction)) in
             if (if 0 <? direction then ige len endLength
                 else ile len endLength)
                || (i =? endIndex)
             then Return s i
             else display_loop fuel' direction endIndex endLength
                               (i + direction) len s)
      end
  end.

Definition _displayRows (startIndex : Z) (endLength : inum) (direction : Z)
    (s : HyperList) : outcome HyperList Z :=
  match row_at (_rows s) startIndex with
  | None => Throw s undefined_read
  | Some row =>
      let len := row_start row in
      let endIndex :=
        if 0 <? direction then Z.of_nat (length (_rows s)) - 1 else 0 in
      let len := if 0 <? direction then len else iadd len (row_length row) in
      display_loop (length (_rows s)) direction endIndex endLength
                   startIndex len s
  end.

(** [do { ... } while (++i <= win.last)] of the forward branch, entered
    at [i] with [fuel] further iterations left.  Returns the final [i]
    and [first]. *)
Fixpoint hide_leading (fuel : nat) (win : Window) (start : Z)
    (i : Z) (len : inum) (s : HyperList) : outcome HyperList (Z * Z) :=
  match row_at (_rows s) i with
  | None => Throw s undefined_read
  | Some row =>
      let len :=
        iadd len
             (isub (row_length row)
                   (imax (Some 0) (isub (win_start win) (row_start row)))) in
      if ile len (Some start) then
        bind (_hideRow i s)
             (fun s _ =>
                match fuel with
                | O => Return s (i + 1, -1)
                | S fuel' => hide_leading fuel' win start (i + 1) len s
                end)
      else Return s (i, i)
  end.

(** [while (--i >= win.first) { ... }] of the backward branch, with
    [fuel] iterations left and [i] the value before the decrement.
    Returns the final [i] and [last]. *)
Fixpoint hide_trailing (fuel : nat) (win : Window) (end_ : inum)
    (i : Z) (len : inum) (s : HyperList) : outcome HyperList (Z * Z) :=
  match fuel with
  | O => Return s (i - 1, -1)
  | S fuel' =>
      let i := i - 1 in
      match row_at (_rows s) i with
      | None => Throw s undefined_read
      | Some row =>
          let len :=
            isub len
                 (imin (isub (win_end win) (row_start row)) (row_length row)) in
          if ilt len end_ then Return s (i, i)
          else
            bind (_hideRow i s)
                 (fun s _ => hide_trailing fuel' win end_ i len s)
      end
  end.

(** [_hideRow] over the indices [i, i + n). *)
Definition hide_range (i : Z) (n : nat) (s : HyperList)
  : outcome HyperList unit :=
  for_each n i _hideRow s.

Definition new_window (start : Z) (end_ : inum) (first last : Z)
    (s : HyperList) : outcome HyperList unit :=
  Return (with_window
            (Some {| win_start := Some start; win_end := end_;
                     win_first := first; win_last := last |}) s) tt.

Definition refresh_forward (win : Window) (start : Z) (end_ : inum)
    (s : HyperList) : outcome HyperList unit :=
  bind (if win_first win >=? 0 then
          bind (hide_leading (Z.to_nat (win_last win - win_first win)) win
                             start (win_first win) (win_start win) s)
               (fun s r => Return s (Some (fst r), snd r))
        else Return s (None, -1))
  (fun s r =>
     let '(i, first) := r in
     let display first s :=
       bind (_displayRows first end_ 1 s)
       (fun s last =>
          bind (if last <? win_last win
                then hide_range (last + 1) (Z.to_nat (win_last win - last)) s
                else Return s tt)
               (fun s _ => new_window start end_ first last s)) in
     if first <? 0 then
       bind (_findRow i (Some start) 1 s)
       (fun s first =>
          match row_at (_rows s) first with
          | None => Throw s undefined_read
          | Some row =>
              if ilt (iadd (row_start row) (row_length row)) (Some start)
              then Throw s (Error "Unable to find first row in window")
              else display first s
          end)
     else if (first =? win_first win)
             && match row_at (_rows s) (win_last win) with
                | Some row =>
                    igt (iadd (row_start row) (row_length row)) end_
                | None => false
                end
     then Return s tt
     else display first s).

Definition refresh_backward (win : Window) (start : Z) (end_ : inum)
    (s : HyperList) : outcome HyperList unit :=
  bind (if win_first win >=? 0 then
          bind (hide_trailing
                  (Z.to_nat (win_last win + 1 - win_first win)) win end_
                  (win_last win + 1) (win_end win) s)
               (fun s r => Return s (Some (fst r), snd r))
        else Return s (None, -1))
  (fun s r =>
     let '(i, last) := r in
     let display last s :=
       bind (_displayRows last (Some start) (-1) s)
       (fun s first =>
          bind (if win_first win <? first
                then hide_range (win_first win)
                                (Z.to_nat (first - win_first win)) s
                else Return s tt)
               (fun s _ => new_window start end_ first last s)) in
     if last <? 0 then
       bind (_findRow i end_ (-1) s)
       (fun s last =>
          match row_at (_rows s) last with
          | None => Throw s undefined_read
          | Some row =>
              if igt (row_start row) end_
              then Throw s (Error "Unable to find last row in window")
              else display last s
          end)
     else if (last =? win_last win)
             && match row_at (_rows s) (win_first win) with
                | Some row => ilt (row_start row) end_
                | None => false
                end
     then Return s tt
     else display last s).

(** The caller only invokes the method when [_window] is set. *)
Definition _refreshWindow (s : HyperList) : outcome HyperList unit :=
  match _window s with
  | None => Throw s undefined_read
  | Some win =>
      let start := Z.max 0 (scrollTop (_root s) - _padding s) in
      if ieq (Some start) (win_start win) && (win_first win >=? 0)
      then Return s tt
      else
        let end_ :=
          imin (_contentLength s)
               (Some (scrollTop (_root s) + clientHeight (_root s)
                      + _padding s)) in
        if igt (Some start) (win_start win)
        then refresh_forward win start end_ s
        else refresh_backward win start end_ s
  end.

(** *** Row removal, refresh and append *)

(** [root.removeChild(row.node)] *)
Definition removeChild (n : option node) (s : HyperList)
  : outcome HyperList unit :=
  match n with
  | None => Throw s (TypeError "parameter 1 is not of type 'Node'")
  | Some n =>
      if bool_decide (n ∈ children (_root s))
      then Return (with_root
                     (set_children (filter (fun m => m <> n)
                                           (children (_root s)))
                                   (_root s)) s) tt
      else Throw s (Error "NotFoundError: the node is not a child")
  end.

(** [rows.splice(start, deleteCount)] *)
Definition splice {A : Type} (l : list A) (start deleteCount : Z) : list A :=
  let len := Z.of_nat (length l) in
  let st := if start <? 0 then Z.max (len + start) 0 else Z.min start len in
  let dc := Z.max 0 (Z.min deleteCount (len - st)) in
  take (Z.to_nat st) l ++ drop (Z.to_nat (st + dc)) l.

(** Body of the [do ... while (++i <= endIndex)] loop of [_removeRows];
    the state carries the running [len]. *)
Definition detach_step (i : Z) (st : HyperList * inum)
  : outcome (HyperList * inum) unit :=
  match row_at (_rows (fst st)) i with
  | None => Throw st undefined_read
  | Some row =>
      match removeChild (row_node row) (fst st) with
      | Throw s e => Throw (s, snd st) e
      | Return s _ => Return (s, iadd (snd st) (row_length row)) tt
      end
  end.

(** [rows[i].start -= len] *)
Definition shift_step (len : inum) (i : Z) (s : HyperList)
  : outcome HyperList unit :=
  match row_at (_rows s) i with
  | None => Throw s undefined_read
  | Some row =>
      Return (with_rows
                (row_put (_rows s) i
                         (set_start (isub (row_start row) len) row)) s) tt
  end.

Definition _removeRows (startIndex endIndex : Z) (s : HyperList)
  : outcome HyperList unit :=
  let n := S (Z.to_nat (endIndex - startIndex)) in
  match for_each n startIndex detach_step (s, Some 0) with
  | Throw (s, _) e => Throw s e
  | Return (s, len) _ =>
      let i := startIndex + Z.of_nat n in
      let s := with_contentLength (isub (_contentLength s) len) s in
      let s :=
        with_rows (splice (_rows s) startIndex (1 + endIndex - startIndex)) s in
      let maxIndex := Z.of_nat (length (_rows s)) - 1 in
      bind (if endIndex <? maxIndex
            then for_each (Z.to_nat (maxIndex - i)) (i + 1)
                          (shift_step len) s
            else Return s tt)
      (fun s _ =>
         match _window s with
         | None => Return s tt
         | Some win =>
             if ile (win_start win) (Some endIndex)
                && ige (win_end win) (Some startIndex)
             then
               let win :=
                 if ige (win_start win) (Some startIndex)
                 then {| win_start := Some (endIndex + 1);
                         win_end := win_end win;
                         win_first := win_first win;
                         win_last := win_last win |}
                 else win in
               let win :=
                 if ile (win_end win) (Some endIndex)
                 then {| win_start := win_start win;
                         win_end := Some (startIndex - 1);
                         win_first := win_first win;
                         win_last := win_last win |}
                 else win in
               let s :=
                 if ilt (isub (win_end win) (win_start win)) (Some 0)
                 then with_window None s
                 else with_window (Some win) s in
               Throw s (TypeError "this._renderVisible is not a function")
             else Return s tt
         end)
  end.

(** The options read by [refresh]; a field is [None] when it is absent
    or of the wrong type. *)
Record Options : Type := {
  opt_rowCount : option Z;
  opt_rowLength : option Z;
  opt_renderRow : option renderer
}.

Definition refresh (options : Options) (s : HyperList)
  : outcome HyperList unit :=
  let len := Z.of_nat (length (_rows s)) in
  bind (match opt_rowCount options with
        | Some rowCount =>
            if rowCount =? len then Return s len
            else
              bind (if rowCount <? len
                    then _removeRows rowCount (len - 1) s
                    else Return s tt)
              (fun s _ =>
                 if Part001.valid_array_length rowCount then
                   let rows := _rows s in
                   let n := Z.to_nat rowCount in
                   Return (with_rows
                             (take n rows
                              ++ replicate (n - length rows)%nat None) s)
                          rowCount
                 else Throw s (RangeError "Invalid array length"))
        | None => Return s len
        end)
  (fun s rowCount =>
     let s :=
       match opt_rowLength options with
       | Some l => with_rowLength (Some l) s
       | None => s
       end in
     let s :=
       match opt_renderRow options with
       | Some f => with_renderRow f s
       | None => s
       end in
     let s := with_root (set_children [] (_root s)) s in
     if rowCount =? 0 then Return (with_refreshLoop false s) tt
     else bind (_renderRows s)
               (fun s _ => Return (with_refreshLoop true s) tt)).

(** [append(row)] for a row object whose [node], when present, is an
    element node. *)
Definition append (row : Row) (s : HyperList) : outcome HyperList unit :=
  match (match row_length row with
         | Some l => Some l
         | None => if itruthy (_rowLength s) then _rowLength s else None
         end) with
  | None => Throw s (Error "Must provide a row length")
  | Some l =>
      let row := set_length (Some l) row in
      let i := Z.of_nat (length (_rows s)) in
      let s := with_rows (_rows s ++ [Some row]) s in
      match _window s with
      | Some win =>
          let row :=
            set_visible (ilt (_contentLength s) (win_end win))
                        (set_start (_contentLength s) row) in
          let s := with_rows (row_put (_rows s) i row) s in
          match row_node row with
          | None => Throw s undefined_read
          | Some n =>
              Return (with_contentLength (iadd (_contentLength s) (Some l))
                        (with_root (appendChild n (_root s)) s)) tt
          end
      | None => Return (with_refreshLoop true s) tt
      end
  end.

(** The instance built by the constructor from a valid root element. *)
Definition construct (root : Root) (renderRow : option renderer)
    (rowLength : option Z) (padding : option Z) : HyperList :=
  {| _root := root; _rows := []; _window := None;
     _contentLength := Some 0;
     _renderRow := default default_renderer renderRow;
     _rowLength := rowLength; _padding := default 0 padding;
     _refreshLoop := false |}.

(** The frame callback of [_refreshOnScroll], on a frame where a scroll
    (or an append before the first render) is pending. *)
Definition eachFrame (s : HyperList) : outcome HyperList unit :=
  match _window s with
  | Some _ => _refreshWindow s
  | None => _renderRows s
  end.

(** The scroll position of the root, as moved by the user. *)
Definition scroll_to (y : Z) (s : HyperList) : HyperList :=
  with_root {| scrollTop := y; clientHeight := clientHeight (_root s);
               children := children (_root s) |} s.

End LibIndex.


(** ** Statements of the specification

    Definitions that follow the words of the specification rather than
    the code, to be compared with the code. *)

Module Spec.
Import JS Chunk.

Definition nabs (a : num) : num := if nlt a (Fin 0) then nneg a else a.

(** The frame gate: nothing happens when the coordinate did not move or
    the list has no extent; otherwise a recomputation happens exactly when
    no coordinate was rendered yet or the move is larger than the average
    height in either direction. *)
Definition gate_by_spec (scrollTop : num) (s : HyperList) : bool :=
  match _lastRepaint s with
  | None => truthy (_scrollHeight s)
  | Some last =>
      negb (nseq scrollTop last) && truthy (_scrollHeight s)
      && ngt (nabs (nsub scrollTop last)) (_averageHeight s)
  end.

(** The prefix-sum relation of forward mode, between a height table and
    a position table of [n] rows: [position[k] = position[k-1] +
    length[k-1]] for [1 <= k < n]. *)
Definition forward_sums (n : Z) (heights positions : array) : Prop :=
  forall k, 1 <= k < n ->
    aget positions k = nadd (aget heights (k - 1)) (aget positions (k - 1)).


End Spec.

(** ** Relations kept by the code *)

Module Relations.
Import JS Chunk.

(** What the loop of [_computePositions] establishes in reverse mode:
    [position[k] = position[k-1] - length[k]] for [1 <= k < n]. *)
Definition reverse_sums (n : Z) (heights positions : array) : Prop :=
  forall k, 1 <= k < n ->
    aget positions k = nsub (aget positions (k - 1)) (aget heights k).

(** The tables of an instance are defined and related as its mode asks. *)
Definition position_invariant (s : HyperList) : Prop :=
  exists heights positions,
    _itemHeights s = Some heights
    /\ _itemPositions s = Some positions
    /\ forall n, itemCount (_config s) = Count n ->
         if reverse (_config s) then reverse_sums n heights positions
         else Spec.forward_sums n heights positions.

(** Forward mode, with the first row placed at 0. *)
Definition origin_invariant (s : HyperList) : Prop :=
  reverse (_config s) = false
  /\ exists positions,
       _itemPositions s = Some positions /\ aget positions 0 = Fin 0.

(** The scroll height is the sum of the height table. *)
Definition extent_invariant (s : HyperList) : Prop :=
  exists heights,
    _itemHeights s = Some heights
    /\ is_Some (_itemPositions s)
    /\ _scrollHeight s = asum heights.


Definition extent_same (s : HyperList) : Prop :=
  exists heights,
    _itemHeights s = Some heights
    /\ is_Some (_itemPositions s)
    /\ nsame (_scrollHeight s) (asum heights).

End Relations.

(** ** Layout of the rows of lib/index.js

    The full resolve lays the rows out one after the other.  The
    predicates below describe such a layout for a list of [N] rows by the
    function [L] giving the length of each row and the function [P] giving
    the offset at which it starts. *)

Module Layout.
Import JS LibIndex.

(** [P] is the table of prefix sums of [L] over [N] rows. *)
Definition offsets (N : Z) (L P : Z -> Z) : Prop :=
  P 0 = 0 /\ forall j, 0 <= j < N -> P (j + 1) = P j + L j.

(** Every row is present with a node, the length [L j] and the start
    [P j]. *)
Definition geometry (N : Z) (L P : Z -> Z) (rows : list (option Row))
  : Prop :=
  Z.of_nat (length rows) = N
  /\ forall j, 0 <= j < N ->
       exists r, row_at rows j = Some r
                 /\ row_start r = Some (P j)
                 /\ row_length r = Some (L j)
                 /\ is_Some (row_node r).

(** Every row is present with a node and the length [L j]: what the
    default renderer needs. *)
Definition renderable (N : Z) (L : Z -> Z) (rows : list (option Row))
  : Prop :=
  Z.of_nat (length rows) = N
  /\ forall j, 0 <= j < N ->
       exists r, row_at rows j = Some r
                 /\ row_length r = Some (L j)
                 /\ is_Some (row_node r).

(** [row.start < end && row.start + row.length > start] *)
Definition visible_at (P : Z -> Z) (start end_ : Z) (j : Z) : bool :=
  (P j <? end_) && (start <? P (j + 1)).

(** [first] and [last] are the smallest and the largest index below [N]
    at which [V] holds, or both -1 when there is none. *)
Definition extremes (V : Z -> bool) (N first last : Z) : Prop :=
  (first = -1 /\ last = -1 /\ forall j, 0 <= j < N -> V j = false)
  \/ (0 <= first /\ first <= last /\ last < N
      /\ V first = true /\ V last = true
      /\ forall j, 0 <= j < N -> V j = true -> first <= j <= last).

(** Length of the row stored at index [j], 0 when there is none. *)
Definition length_at (rows : list (option Row)) (j : Z) : Z :=
  default 0 (row_at rows j ≫= row_length).

(** Sum of the lengths of the rows below index [j]. *)
Fixpoint sum_below (rows : list (option Row)) (j : nat) : Z :=
  match j with
  | O => 0
  | S j' => sum_below rows j' + length_at rows (Z.of_nat j')
  end.

Definition offset_at (rows : list (option Row)) (j : Z) : Z :=
  sum_below rows (Z.to_nat j).

(** Sum of the lengths of all rows. *)
Definition total_length (rows : list (option Row)) : Z :=
  foldr (fun o acc => default 0 (o ≫= row_length) + acc) 0 rows.

(** Every row is present and has a numeric length. *)
Definition measured (rows : list (option Row)) : Prop :=
  Forall (fun o => exists r l, o = Some r /\ row_length r = Some l) rows.

(** The content length is the sum of the row lengths. *)
Definition content_invariant (s : HyperList) : Prop :=
  measured (_rows s) /\ _contentLength s = Some (total_length (_rows s)).

(** The rows can be laid out by the default renderer and have positive
    lengths. *)
Definition ready (rows : list (option Row)) : Prop :=
  forall j, 0 <= j < Z.of_nat (length rows) ->
    exists r l, row_at rows j = Some r
                /\ row_length r = Some l /\ 0 < l
                /\ is_Some (row_node r).

(** The fields that neither a full resolve nor the window tracker
    assigns. *)
Definition same_settings (s s0 : HyperList) : Prop :=
  _renderRow s = _renderRow s0
  /\ _rowLength s = _rowLength s0
  /\ _padding s = _padding s0
  /\ _refreshLoop s = _refreshLoop s0
  /\ scrollTop (_root s) = scrollTop (_root s0)
  /\ clientHeight (_root s) = clientHeight (_root s0).

(** State of the loop of [_renderRows] when it reaches index [i]. *)
Definition resolving (s0 : HyperList) (N : Z) (L P : Z -> Z)
    (start end_ : Z) (i : Z) (a : Layout) : Prop :=
  same_settings (lay_list a) s0
  /\ renderable N L (_rows (lay_list a))
  /\ (forall j, 0 <= j < i ->
        exists r, row_at (_rows (lay_list a)) j = Some r
                  /\ row_start r = Some (P j)
                  /\ row_visible r = visible_at P start end_ j)
  /\ lay_len a = P i
  /\ extremes (visible_at P start end_) i (lay_first a) (lay_last a).

(** Every row has a positive length. *)
Definition positive (N : Z) (L : Z -> Z) : Prop :=
  forall j, 0 <= j < N -> 0 < L j.


End Layout.

(** ** Numbers that the code computes exactly

    The numbers of the code are IEEE 754 doubles, and the models above
    compute on exact integers and rationals: they give the values of the
    code wherever its arithmetic does not round.  Comparisons never round.
    Every integer of magnitude up to 2^53 is a double, and the sum or the
    difference of two of them is computed exactly when it lies in that
    range as well; the quotient of two such integers is rounded, but not
    across an integer, so that [Math.ceil] of it is the exact ceiling.
    With fractional lengths the additions of the code round, and a sum
    taken in another order, or a sum followed by a subtraction, need not
    give the same double.

    The statements below that depend on the value of such a sum are
    therefore made for whole lengths and offsets in that range, which the
    predicates of this module delimit. *)

Module Exact.
Import JS.

Definition exact_limit : Z := 2 ^ 53.

(** [a] is an integer between 0 and [bound]. *)
Definition whole (bound : Z) (a : num) : Prop :=
  exists z, a = of_Z z /\ 0 <= z <= bound.

(** A table without holes of non-negative integers whose sum is at most
    [bound]. *)
Definition whole_table (bound : Z) (t : array) : Prop :=
  Forall (fun e => exists z, e = Some (of_Z z) /\ 0 <= z) t
  /\ nle (asum t) (of_Z bound) = true.

(** Rows of lib/index.js whose lengths are not negative and add up to at
    most [bound]. *)
Definition whole_rows (bound : Z) (rows : list (option LibIndex.Row))
  : Prop :=
  (forall j r l,
      LibIndex.row_at rows j = Some r -> LibIndex.row_length r = Some l ->
      0 <= l)
  /\ Layout.total_length rows <= bound.

End Exact.

(** ** Worked instances

    Concrete lists used by the examples and counterexamples below. *)

Module Demo.
Import JS Chunk.

(** A generator that returns a bare element node for every index. *)
Definition plain : callback := Function (fun i => GenNode (Z.to_nat i)).

Definition container (top height : Z) : Element :=
  {| nodeType := 1; scrollTop := of_Z top; clientHeight := of_Z height |}.

(** [{generate, itemCount: n, itemHeight: h, reverse: rev}] *)
Definition options (n h : Z) (rev : bool) : NewConfig :=
  {| new_generate := Some plain; new_itemCount := Some (Count n);
     new_itemHeight := Some (HeightNumber (of_Z h));
     new_useFragment := None; new_reverse := Some rev;
     new_overrideScrollPosition := None |}.

(** The user scrolls the container to [top]. *)
Definition scrolled (top : Z) (s : HyperList) : HyperList :=
  with_element {| nodeType := nodeType (_element s); scrollTop := of_Z top;
                  clientHeight := clientHeight (_element s) |} s.

(** Fifty rows of 20 pixels in a viewport of 100, built by the constructor
    of part_001, then scrolled to 100 and rendered by the loop. *)
Definition fifty : HyperList :=
  Eval vm_compute in
    final_state
      (Part001.construct (container 0 100) (Some (options 50 20 false))).

Definition fifty_at_100 : HyperList :=
  Eval vm_compute in final_state (Part001.render (scrolled 100 fifty)).

(** Ten rows of 10 pixels in a viewport of 100; then the list is emptied
    by [refresh({itemCount: 0})]; then it is refilled with ten rows of 100
    pixels. *)
Definition ten : HyperList :=
  Eval vm_compute in
    final_state
      (Part001.construct (container 0 100) (Some (options 10 10 false))).

Definition count_only (n : Z) : NewConfig :=
  {| new_generate := None; new_itemCount := Some (Count n);
     new_itemHeight := None; new_useFragment := None; new_reverse := None;
     new_overrideScrollPosition := None |}.

Definition ten_emptied : HyperList :=
  Eval vm_compute in
    final_state (Part001.refresh None (Some (count_only 0)) ten).

Definition ten_refilled : HyperList :=
  Eval vm_compute in
    final_state (Part001.refresh None (Some (options 10 100 false)) ten_emptied).

(** Options with a row count of 7 and a [generate] that is not a function. *)
Definition broken_options : NewConfig :=
  {| new_generate := Some NotFunction; new_itemCount := Some (Count 7);
     new_itemHeight := None; new_useFragment := None; new_reverse := None;
     new_overrideScrollPosition := None |}.

(** *** Lists of lib/index.js *)

(** A viewport of height [height] scrolled to [top]. *)
Definition viewport (top height : Z) : LibIndex.Root :=
  {| LibIndex.scrollTop := top; LibIndex.clientHeight := height;
     LibIndex.children := [] |}.

(** A row object with a node and a length, as handed to [append]. *)
Definition row (n : nat) (length : Z) : LibIndex.Row :=
  {| LibIndex.row_node := Some n; LibIndex.row_length := Some length;
     LibIndex.row_start := None; LibIndex.row_visible := false |}.

(** [append] of rows of the given lengths, one after the other. *)
Fixpoint appended (n : nat) (lengths : list Z) (s : LibIndex.HyperList)
  : LibIndex.HyperList :=
  match lengths with
  | [] => s
  | l :: rest => appended (S n) rest (final_state (LibIndex.append (row n l) s))
  end.

(** A list built by the constructor and [append], before its first
    frame. *)
Definition pending (lengths : list Z) (top height padding : Z)
  : LibIndex.HyperList :=
  appended 0 lengths
    (LibIndex.construct (viewport top height) None None (Some padding)).

(** Three rows of 10 pixels in a viewport of 100, rendered at offset 0. *)
Definition three_pending : LibIndex.HyperList :=
  Eval vm_compute in pending [10; 10; 10] 0 100 0.

Definition three : LibIndex.HyperList :=
  Eval vm_compute in final_state (LibIndex.eachFrame three_pending).

(** Six rows of 40 pixels in a viewport of 100, rendered at offset 0. *)
Definition six_pending : LibIndex.HyperList :=
  Eval vm_compute in pending [40; 40; 40; 40; 40; 40] 0 100 0.

Definition six : LibIndex.HyperList :=
  Eval vm_compute in final_state (LibIndex.eachFrame six_pending).

(** Rows of 10, 10 and 100 pixels in a viewport of 50, rendered at
    offset 25. *)
Definition uneven : LibIndex.HyperList :=
  Eval vm_compute in
    final_state (LibIndex.eachFrame (pending [10; 10; 100] 25 50 0)).

(** Ten rows of 10 pixels in a viewport of 30, rendered at offset 50:
    rows 5 to 7 are visible. *)
Definition ten_rows_at_50 : LibIndex.HyperList :=
  Eval vm_compute in
    final_state
      (LibIndex.eachFrame
         (pending [10; 10; 10; 10; 10; 10; 10; 10; 10; 10] 50 30 0)).

(** One row of 10 pixels appended to a new list, before any frame. *)
Definition one_pending : LibIndex.HyperList :=
  Eval vm_compute in pending [10] 0 100 0.

(** Three rows of 10, 20 and 30 pixels in reverse mode (part_001). *)
Definition reversed : HyperList :=
  Eval vm_compute in
    final_state
      (Part001.construct (container 0 100)
         (Some {| new_generate := Some plain; new_itemCount := Some (Count 3);
                  new_itemHeight :=
                    Some (HeightArray [Some (of_Z 10); Some (of_Z 20);
                                       Some (of_Z 30)]);
                  new_useFragment := None; new_reverse := Some true;
                  new_overrideScrollPosition := None |})).

(** Ten rows of 10 pixels in a viewport of 30, rendered at offset 0. *)
Definition ten_rows : LibIndex.HyperList :=
  Eval vm_compute in
    final_state
      (LibIndex.eachFrame
         (pending [10; 10; 10; 10; 10; 10; 10; 10; 10; 10] 0 30 0)).

(** A hundred rows of 10 pixels in a viewport of 100, rendered at
    offset 30: rows 3 to 12 are visible. *)
Definition hundred : LibIndex.HyperList :=
  Eval vm_compute in
    final_state (LibIndex.eachFrame (pending (replicate 100 10) 30 100 0)).

(** The reverse list above, switched to forward mode with three rows of
    10 pixels by [refresh]. *)
Definition reversed_then_forward : HyperList :=
  Eval vm_compute in
    final_state (Part001.refresh None (Some (options 3 10 false)) reversed).

(** The ten rows of 10 pixels with a generator that reports 25 pixels and
    no element for every row. *)
Definition ten_without_elements : HyperList :=
  Eval vm_compute in
    with_config
      {| generate := Function (fun _ => GenSized None (of_Z 25));
         itemCount := itemCount (_config ten);
         itemHeight := itemHeight (_config ten);
         useFragment := useFragment (_config ten);
         reverse := reverse (_config ten);
         overrideScrollPosition := overrideScrollPosition (_config ten) |}
      ten.

(** [{generate: undefined, itemCount: 20}]: options that [refresh] rejects
    after merging them. *)
Definition twenty_without_generate : NewConfig :=
  {| new_generate := Some NotFunction; new_itemCount := Some (Count 20);
     new_itemHeight := None; new_useFragment := None; new_reverse := None;
     new_overrideScrollPosition := None |}.

(** The reverse-mode list of three rows after that rejected [refresh]. *)
Definition reversed_rejected : HyperList :=
  Eval vm_compute in
    final_state
      (Part001.refresh None (Some twenty_without_generate) reversed).

End Demo.

(** ** Changes that only touch visibility

    The relation kept by the window tracker of lib/index.js between the
    list it is given and the list it leaves. *)

Module Tracking.
Import JS LibIndex.

(** The slot [o'] holds what [o] holds, up to the visibility flag. *)
Definition same_row (o o' : option Row) : Prop :=
  o' = o \/ exists r v, o = Some r /\ o' = Some (set_visible v r).

(** [s'] is [s] up to the visibility flags of its rows and the window. *)
Definition revealed (s s' : HyperList) : Prop :=
  exists rows' w',
    s' = with_window w' (with_rows rows' s)
    /\ Forall2 same_row (_rows s) rows'.

(** [rows'] is [rows] with the rows [lo .. hi] made visible. *)
Definition rows_shown (lo hi : Z) (rows rows' : list (option Row)) : Prop :=
  length rows' = length rows
  /\ forall j,
       row_at rows' j
       = if (lo <=? j) && (j <=? hi) then set_visible true <$> row_at rows j
         else row_at rows j.

(** The nodes of the rows, in row order. *)
Definition row_nodes (rows : list (option Row)) : list node :=
  omap (fun o => o ≫= row_node) rows.

End Tracking.

(** * Properties *)

Import JS.

(** ** The render loop (frame gate) *)

Section FrameGate.
Import Chunk Part001.

Lemma should_render_skip (y : num) (s : HyperList) :
  from_option (nseq y) false (_lastRepaint s) = true
  \/ truthy (_scrollHeight s) = false ->
  should_render y s = false.
Proof.
  intros H. unfold should_render.
  destruct H as [-> | ->]; [reflexivity |].
  now rewrite orb_true_r.
Qed.

Lemma should_render_decision (y : num) (s : HyperList) :
  from_option (nseq y) false (_lastRepaint s) = false ->
  truthy (_scrollHeight s) = true ->
  should_render y s = true <->
  (from_option truthy false (_lastRepaint s) = false
   \/ exists last, _lastRepaint s = Some last
        /\ (nlt (nsub y last) (Fin 0) = true
            \/ ngt (nsub y last) (_averageHeight s) = true)).
Proof.
  intros Hmoved Hext. unfold should_render. rewrite Hmoved, Hext. simpl.
  destruct (_lastRepaint s) as [last |]; simpl.
  - destruct (truthy last) eqn:Ht; simpl.
    + rewrite orb_true_iff. split.
      * intros H. right. exists last. auto.
      * intros [H | (l & [= <-] & H)]; [discriminate | exact H].
    + split; auto.
  - split; auto.
Qed.

Lemma render_skipped (s : HyperList) :
  should_render (_getScrollPosition s) s = false -> render s = Return s false.
Proof. intros H. unfold render. now rewrite H. Qed.

Lemma render_records_coordinate (s s' : HyperList) (b : bool) :
  render s = Return s' b ->
  b = true ->
  should_render (_getScrollPosition s) s = true
  /\ _lastRepaint s' = Some (_getScrollPosition s)
  /\ exists s1 r, _renderChunk false s = Return s1 r
                  /\ s' = with_lastRepaint (Some (_getScrollPosition s)) s1.
Proof.
  unfold render. intros H ->.
  destruct (should_render (_getScrollPosition s) s); [| discriminate].
  destruct (_renderChunk false s) as [s1 r | s1 e]; [| discriminate].
  injection H as <-. split; [reflexivity |]. split; [reflexivity |].
  exists s1, r. split; reflexivity.
Qed.

Lemma render_recomputes (s : HyperList) :
  should_render (_getScrollPosition s) s = true ->
  render s
  = match _renderChunk false s with
    | Return s1 _ =>
        Return (with_lastRepaint (Some (_getScrollPosition s)) s1) true
    | Throw s1 e => Throw s1 e
    end.
Proof. intros H. unfold render. now rewrite H. Qed.

(** C4, as amended.  On a tick at scroll coordinate [y]: the loop returns
    at once, leaving the instance as it is, when [y] is the last rendered
    coordinate or the scroll height is zero (or unset).  Otherwise the
    tick is due exactly when the last rendered coordinate is unset or
    zero, or the move [y - last] is negative, or it exceeds the average
    height.  A tick that is due calls [_renderChunk] and, when that
    returns, records [y], the coordinate [_renderChunk] used, in
    [_lastRepaint]; when [_renderChunk] throws, the exception leaves the
    loop and [_lastRepaint] is not written.  A tick that is not due leaves
    the instance as it is.  The loop of part_000 does the same with its
    own [_renderChunk], on the scroll offset of the container. *)
Theorem C4_frame_gate (s : HyperList) :
  let y := _getScrollPosition s in
  let recomputed :=
    match _renderChunk false s with
    | Return s1 _ => Return (with_lastRepaint (Some y) s1) true
    | Throw s1 e => Throw s1 e
    end in
  let due :=
    from_option truthy false (_lastRepaint s) = false
    \/ exists last, _lastRepaint s = Some last
         /\ (nlt (nsub y last) (Fin 0) = true
             \/ ngt (nsub y last) (_averageHeight s) = true) in
  (from_option (nseq y) false (_lastRepaint s) = true
   \/ truthy (_scrollHeight s) = false ->
   should_render y s = false /\ render s = Return s false)
  /\ (from_option (nseq y) false (_lastRepaint s) = false ->
      truthy (_scrollHeight s) = true ->
      (should_render y s = true <-> due)
      /\ (due -> render s = recomputed)
      /\ (~ due -> render s = Return s false))
  /\ (should_render y s = false -> render s = Return s false)
  /\ (should_render y s = true -> render s = recomputed)
  /\ (forall s', render s = Return s' true ->
        _lastRepaint s' = Some y
        /\ exists s1 r, _renderChunk false s = Return s1 r
                        /\ s' = with_lastRepaint (Some y) s1)
  /\ (overrideScrollPosition (_config s) = None ->
      Part000.render s
      = if should_render y s
        then match Part000._renderChunk false s with
             | Return s1 _ => Return (with_lastRepaint (Some y) s1) true
             | Throw s1 e => Throw s1 e
             end
        else Return s false).
Proof.
  intros y recomputed due.
  split.
  { intros H. split; [now apply should_render_skip |].
    apply render_skipped. now apply should_render_skip. }
  split.
  { intros Hmoved Hext.
    pose proof (should_render_decision y s Hmoved Hext) as Hdec.
    split; [exact Hdec |]. split.
    - intros Hdue. apply render_recomputes. now apply Hdec.
    - intros Hnot. apply render_skipped.
      destruct (should_render (_getScrollPosition s) s) eqn:E;
        [| reflexivity].
      exfalso. apply Hnot. now apply Hdec. }
  split; [apply render_skipped |].
  split; [apply render_recomputes |].
  split.
  { intros s' H.
    destruct (render_records_coordinate s s' true H eq_refl) as (_ & ? & ?).
    split; assumption. }
  intros Hover. unfold Part000.render, y, _getScrollPosition.
  rewrite Hover. reflexivity.
Qed.

(** The list of fifty rows, last rendered at 100, is scrolled back to 95:
    the move of 5 pixels is below the average height of 20, yet the loop
    recomputes, and records 95. *)
Lemma C4_frame_gate_witness :
  should_render (of_Z 95) (Demo.scrolled 95 Demo.fifty_at_100) = true
  /\ _lastRepaint (final_state (render (Demo.scrolled 95 Demo.fifty_at_100)))
     = Some (of_Z 95).
Proof.
  pose proof (C4_frame_gate (Demo.scrolled 95 Demo.fifty_at_100)) as H.
  cbv zeta in H. destruct H as (_ & Hdec & _ & _ & Hrec & _).
  change (_getScrollPosition (Demo.scrolled 95 Demo.fifty_at_100))
    with (of_Z 95) in *.
  split.
  - apply Hdec; [vm_compute; reflexivity | vm_compute; reflexivity |].
    right. exists (of_Z 100).
    split; [reflexivity | left; vm_compute; reflexivity].
  - destruct (render (Demo.scrolled 95 Demo.fifty_at_100)) as [s' b | s' e] eqn:E.
    + assert (b = true) as -> by (vm_compute in E; congruence).
      simpl. now destruct (Hrec s' eq_refl).
    + vm_compute in E. discriminate.
Defined.

(** C4 as stated fails: with the last rendered coordinate set to 100, an
    average height of 20 and a tick at 95, the stated rule (an unset
    coordinate or a move larger than the average height) asks for no
    recomputation, and the render loop recomputes. *)
Lemma C4_backward_scroll_counterexample :
  let s := Demo.scrolled 95 Demo.fifty_at_100 in
  _lastRepaint s = Some (of_Z 100)
  /\ _averageHeight s = Fin (40 # 2)
  /\ Spec.gate_by_spec (_getScrollPosition s) s = false
  /\ should_render (_getScrollPosition s) s = true
  /\ returned (render s) = true
  /\ should_render (_getScrollPosition s) s
     <> Spec.gate_by_spec (_getScrollPosition s) s.
Proof. vm_compute. repeat split; congruence. Qed.

End FrameGate.

(** ** Comparison facts on numbers *)

Section Numbers.

Lemma ncmp_of_Z (a b : Z) : ncmp (of_Z a) (of_Z b) = Some (a ?= b).
Proof.
  unfold of_Z, ncmp, Qcompare, inject_Z. simpl. now rewrite !Z.mul_1_r.
Qed.

Lemma nlt_of_Z (a b : Z) : nlt (of_Z a) (of_Z b) = (a <? b).
Proof. unfold nlt. rewrite ncmp_of_Z. unfold Z.ltb. now destruct (a ?= b). Qed.

Lemma ncmp_refl (a : num) : is_nan a = false -> ncmp a a = Some Eq.
Proof.
  destruct a as [q | | |]; simpl; try reflexivity; try discriminate.
  intros _. f_equal. apply Qeq_alt. reflexivity.
Qed.

Lemma nlt_irrefl (a : num) : nlt a a = false.
Proof.
  unfold nlt. destruct a as [q | | |]; simpl; try reflexivity.
  replace (q ?= q)%Q with Eq; [reflexivity |].
  symmetry. apply Qeq_alt. reflexivity.
Qed.

Lemma nle_Fin (x y : Q) : nle (Fin x) (Fin y) = true <-> (x <= y)%Q.
Proof.
  unfold nle. simpl. rewrite Qle_alt.
  destruct (x ?= y)%Q; split; intros; congruence.
Qed.

Lemma nle_refl (a : num) : is_nan a = false -> nle a a = true.
Proof. intros H. unfold nle. now rewrite ncmp_refl. Qed.

Lemma nle_trans (a b c : num) :
  nle a b = true -> nle b c = true -> nle a c = true.
Proof.
  destruct a as [x | | |], b as [y | | |], c as [z | | |];
    try (intros; reflexivity); try (intros; discriminate).
  rewrite !nle_Fin. apply Qle_trans.
Qed.

(** [Math.max] of two numbers is no smaller than the first. *)
Lemma nle_nmax_l (a b : num) :
  is_nan a = false -> is_nan b = false -> nle a (nmax a b) = true.
Proof.
  intros Ha Hb. unfold nmax.
  destruct (ncmp a b) as [[ | | ] |] eqn:E.
  - now apply nle_refl.
  - unfold nle. now rewrite E.
  - now apply nle_refl.
  - destruct a, b; simpl in *; discriminate.
Qed.

Lemma nmax_nan_r (a : num) : nmax a NaN = NaN.
Proof. now destruct a. Qed.

Lemma nor_not_nan (a : num) : is_nan (nor a (Fin 0)) = false.
Proof. unfold nor. destruct a as [q | | |]; simpl; try reflexivity. now destruct (Qeq_bool q 0). Qed.

(** A falsy number that is not NaN is zero, hence below [a || 0]. *)
Lemma nle_nor (a : num) : is_nan a = false -> nle a (nor a (Fin 0)) = true.
Proof.
  intros Ha. unfold nor. destruct (truthy a) eqn:Ht.
  - now apply nle_refl.
  - destruct a as [q | | |]; simpl in *; try discriminate.
    apply nle_Fin. apply negb_false_iff, Qeq_bool_iff in Ht. rewrite Ht.
    apply Qle_refl.
Qed.

Lemma nmul_3_nan (a : num) : is_nan (nmul a (Fin 3)) = is_nan a.
Proof. now destruct a. Qed.

End Numbers.

(** ** Window size of the chunk renderer *)

Section CachedItems.
Import Chunk.

Lemma computeScrollHeight_same :
  Part000._computeScrollHeight = Part001._computeScrollHeight.
Proof. reflexivity. Qed.

Lemma cached_after_recompute (s s' : HyperList) (h : num) :
  Part001._computeScrollHeight s = Return s' h ->
  _cachedItemsLen s'
  = nmax (nor (_cachedItemsLen s) (Fin 0)) (nmul (_screenItemsLen s') (Fin 3)).
Proof.
  unfold Part001._computeScrollHeight.
  destruct (_itemHeights s); [| discriminate].
  intros [= <- _]. reflexivity.
Qed.

(** C9, as amended.  Each run of [_computeScrollHeight] (in part_000 and in
    part_001) sets [_cachedItemsLen] to the maximum of its previous value,
    read as 0 when it is unset, zero or NaN, and three times the new
    screen-item count; when that count is a number (not NaN) the new value
    is at least the previous one. *)
Theorem C9_cached_never_shrinks (s s' : HyperList) (h : num) :
  Part001._computeScrollHeight s = Return s' h
  \/ Part000._computeScrollHeight s = Return s' h ->
  _cachedItemsLen s'
  = nmax (nor (_cachedItemsLen s) (Fin 0)) (nmul (_screenItemsLen s') (Fin 3))
  /\ (is_nan (_screenItemsLen s') = false ->
      nle (nor (_cachedItemsLen s) (Fin 0)) (_cachedItemsLen s') = true
      /\ (is_nan (_cachedItemsLen s) = false ->
          nle (_cachedItemsLen s) (_cachedItemsLen s') = true)).
Proof.
  rewrite computeScrollHeight_same. intros H.
  assert (E : Part001._computeScrollHeight s = Return s' h) by tauto.
  pose proof (cached_after_recompute _ _ _ E) as Hc.
  split; [exact Hc |].
  intros Hscreen.
  assert (Hstep : nle (nor (_cachedItemsLen s) (Fin 0)) (_cachedItemsLen s')
                  = true).
  { rewrite Hc. apply nle_nmax_l; [apply nor_not_nan |].
    now rewrite nmul_3_nan. }
  split; [exact Hstep |].
  intros Hprev. eapply nle_trans; [now apply nle_nor | exact Hstep].
Qed.

End CachedItems.

Section CachedItemsExamples.
Import Chunk.

(** Recomputing the metrics of the ten-row list from a window size of 0
    gives 30. *)
Lemma C9_cached_never_shrinks_witness :
  exists s h,
    Part001._computeScrollHeight s = Return Demo.ten h
    /\ nle (_cachedItemsLen s) (_cachedItemsLen Demo.ten) = true.
Proof.
  exists (with_metrics NaN NaN (Fin 0) NaN Demo.ten), (_scrollHeight Demo.ten).
  assert (E : Part001._computeScrollHeight
                (with_metrics NaN NaN (Fin 0) NaN Demo.ten)
              = Return Demo.ten (_scrollHeight Demo.ten))
    by (vm_compute; reflexivity).
  split; [exact E |].
  refine (proj2 (proj2 (C9_cached_never_shrinks _ _ _ (or_introl E)) _) _);
    vm_compute; reflexivity.
Defined.

(** C9 as stated fails: emptying the list makes the median, the
    screen-item count and [_cachedItemsLen] NaN; the next recompute then
    restarts from [NaN || 0], and ends below the value held before. *)
Lemma C9_empty_list_counterexample :
  Part001.refresh None (Some (Demo.count_only 0)) Demo.ten
  = Return Demo.ten_emptied tt
  /\ Part001.refresh None (Some (Demo.options 10 100 false)) Demo.ten_emptied
     = Return Demo.ten_refilled tt
  /\ nseq (_cachedItemsLen Demo.ten) (of_Z 30) = true
  /\ _cachedItemsLen Demo.ten_emptied = NaN
  /\ nseq (_cachedItemsLen Demo.ten_refilled) (of_Z 3) = true
  /\ nle (_cachedItemsLen Demo.ten) (_cachedItemsLen Demo.ten_emptied) = false
  /\ nle (_cachedItemsLen Demo.ten) (_cachedItemsLen Demo.ten_refilled) = false.
Proof. vm_compute. repeat split; reflexivity. Qed.

End CachedItemsExamples.

(** ** Range of the rendered chunk *)

Section ChunkRange.
Import Chunk Part001.

Lemma clamp_from_nonneg (from0 : option Z) (s : HyperList) (z : Z) :
  clamp_from from0 s = Some z -> 0 <= z.
Proof.
  unfold clamp_from.
  destruct (nlt (index_num from0) (Fin 0)) eqn:E; simpl.
  - intros [= <-]. lia.
  - destruct (nlt (nsub _ _) _); [intros [= <-]; lia |].
    intros H. subst from0. simpl in E. change (Fin 0) with (of_Z 0) in E.
    rewrite nlt_of_Z in E. lia.
Qed.

Lemma clamp_to_le_count (from : option Z) (s : HyperList) :
  ngt (clamp_to from s) (count_num (itemCount (_config s))) = false.
Proof.
  unfold clamp_to.
  destruct (ngt (nadd (index_num from) (_cachedItemsLen s)) _) eqn:E; simpl.
  - apply nlt_irrefl.
  - destruct (ngt (nadd (nadd _ _) _) _); [apply nlt_irrefl | exact E].
Qed.

Lemma clamp_to_lastFrom (from : option Z) (f : num) (s : HyperList) :
  clamp_to from (with_lastFrom f s) = clamp_to from s.
Proof. reflexivity. Qed.

Lemma rows_count_empty (from : option Z) (to : num) :
  (forall z, from = Some z -> 0 <= z) ->
  ngt to (of_Z 0) = false ->
  rows_count from to = Some O.
Proof.
  intros Hfrom Hto. destruct from as [z |]; [| reflexivity].
  specialize (Hfrom z eq_refl).
  destruct to as [q | | |]; try reflexivity; [| discriminate].
  simpl. f_equal.
  assert (Hq : (q <= 0)%Q).
  { apply Qnot_lt_le. intros Hlt.
    unfold ngt, nlt, ncmp, of_Z in Hto.
    change (inject_Z 0) with 0%Q in Hto.
    unfold Qcompare in Hto. unfold Qlt, Z.lt in Hlt. now rewrite Hlt in Hto. }
  apply Qceiling_resp_le in Hq. change 0%Q with (inject_Z 0) in Hq.
  rewrite Qceiling_Z in Hq. lia.
Qed.

Lemma render_from_empty (force : bool) (from0 : option Z) (s s' : HyperList) :
  itemCount (_config s) = Count 0 ->
  render_from force from0 s = Return s' true ->
  _children s' = [].
Proof.
  intros Hcount. unfold render_from.
  destruct (negb force && _); [discriminate |].
  rewrite clamp_to_lastFrom.
  rewrite (rows_count_empty (clamp_from from0 s) (clamp_to (clamp_from from0 s) s)).
  - simpl. intros [= <-]. reflexivity.
  - intros z. apply clamp_from_nonneg.
  - pose proof (clamp_to_le_count (clamp_from from0 s) s) as H.
    now rewrite Hcount in H.
Qed.

Lemma render_from_empty0 (force : bool) (from0 : Z) (s s' : HyperList) :
  itemCount (_config s) = Count 0 ->
  Part000.render_from force from0 s = Return s' true ->
  _children s' = [].
Proof.
  intros Hcount. unfold Part000.render_from.
  destruct (negb force && _); [discriminate |].
  rewrite clamp_to_lastFrom.
  rewrite (rows_count_empty (clamp_from (Some from0) s)
                            (clamp_to (clamp_from (Some from0) s) s)).
  - simpl. intros [= <-]. reflexivity.
  - intros z. apply clamp_from_nonneg.
  - pose proof (clamp_to_le_count (clamp_from (Some from0) s) s) as H.
    now rewrite Hcount in H.
Qed.

Lemma renderChunk_through_render_from (force : bool) (s s' : HyperList)
    (b : bool) :
  _renderChunk force s = Return s' b ->
  exists from0, render_from force from0 s = Return s' b.
Proof.
  unfold _renderChunk, _getReverseFrom, _getFrom.
  destruct (reverse (_config s)).
  - destruct (itemCount (_config s)) as [| | n]; simpl; eauto.
    destruct (n - 1 <=? 0); simpl; eauto.
    destruct (_itemPositions s); simpl; [eauto | discriminate].
  - destruct (_itemPositions s); simpl; [eauto | discriminate].
Qed.

(** C7.  Whatever index the scroll position resolves to, the chunk
    [from, to) of part_000 and part_001 stays inside the list: a negative
    [from] becomes 0 and [from] is never negative; a [to] beyond the row
    count becomes the row count and [to] never exceeds it; with a row
    count of 0 the loop over [from, to) runs zero times and a chunk that
    is rendered has no row. *)
Theorem C7_chunk_range_clamped (from0 : option Z) (s : HyperList) :
  let from := clamp_from from0 s in
  let to := clamp_to from s in
  let count := count_num (itemCount (_config s)) in
  (nlt (index_num from0) (Fin 0) = true -> from = Some 0)
  /\ (forall z, from = Some z -> 0 <= z)
  /\ (ngt (nadd (index_num from) (_cachedItemsLen s)) count = true ->
      to = count)
  /\ ngt to count = false
  /\ (itemCount (_config s) = Count 0 ->
      rows_count from to = Some O
      /\ (forall force s',
            Part001._renderChunk force s = Return s' true
            \/ Part000._renderChunk force s = Return s' true ->
            _children s' = [])).
Proof.
  intros from to count. repeat split.
  - intros H. unfold from, clamp_from. now rewrite H.
  - apply clamp_from_nonneg.
  - intros H. unfold to, clamp_to. fold count. now rewrite H.
  - apply clamp_to_le_count.
  - apply rows_count_empty; [apply clamp_from_nonneg |].
    pose proof (clamp_to_le_count from s) as Hc. now rewrite H in Hc.
  - intros force s' [Hr | Hr].
    + destruct (renderChunk_through_render_from _ _ _ _ Hr) as [f0 Hf].
      now apply (render_from_empty force f0 s s').
    + unfold Part000._renderChunk, Part000._getFrom in Hr.
      destruct (_itemPositions s); [| discriminate]. simpl in Hr.
      exact (render_from_empty0 force _ s s' H Hr).
Qed.

(** On the ten-row list a search result of -1 is clamped to 0 and a window
    of 30 rows is cut at the 10 rows of the list; on the emptied list
    nothing is rendered. *)
Lemma C7_chunk_range_clamped_witness :
  clamp_from (Some (-1)) Demo.ten = Some 0
  /\ clamp_to (Some 0) Demo.ten = of_Z 10
  /\ rows_count (clamp_from (Some (-1)) Demo.ten_emptied)
                (clamp_to (clamp_from (Some (-1)) Demo.ten_emptied)
                          Demo.ten_emptied)
     = Some O.
Proof.
  pose proof (C7_chunk_range_clamped (Some (-1)) Demo.ten) as H.
  pose proof (C7_chunk_range_clamped (Some (-1)) Demo.ten_emptied) as H0.
  cbv zeta in H, H0.
  destruct H as (Hfrom & _ & Hto & _).
  destruct H0 as (_ & _ & _ & _ & Hempty).
  assert (E : clamp_from (Some (-1)) Demo.ten = Some 0)
    by (apply Hfrom; vm_compute; reflexivity).
  split; [exact E |].
  split.
  - rewrite E in Hto. apply Hto. vm_compute. reflexivity.
  - apply Hempty. reflexivity.
Defined.

End ChunkRange.

(** ** Rejected options *)

Section ConfigurationErrors.
Import Chunk.

Lemma configure_rejects (nc : NewConfig) (s : HyperList) :
  let c := Part001.merge_config (_config s) nc in
  generate c = NotFunction \/ (forall n, itemCount c <> Count n) ->
  exists msg, Part001.configure nc s = Throw (with_config c s) (Error msg).
Proof.
  intros c H. unfold Part001.configure. fold c. simpl.
  destruct (generate c) eqn:Eg; [eauto |].
  destruct H as [H | H]; [discriminate |].
  destruct (itemCount c) as [| | n] eqn:Ec; eauto.
  now destruct (H n).
Qed.

(** C6, as amended.  When the merged options have no [generate] function
    or no numeric [itemCount], [refresh] (part_000 and part_001) throws its
    configuration error at once; heights, positions, scroll height,
    window metrics and rendered rows are those of before the call, but
    [_config] already holds the merged options and [_element] the new
    container. *)
Theorem C6_refresh_rejects (element : option Element) (nc : NewConfig)
    (s : HyperList) :
  (forall e, element = Some e -> nodeType e = 1) ->
  let c := Part001.merge_config (_config s) nc in
  generate c = NotFunction \/ (forall n, itemCount c <> Count n) ->
  exists msg s',
    Part001.refresh element (Some nc) s = Throw s' (Error msg)
    /\ Part000.refresh element (Some nc) s = Throw s' (Error msg)
    /\ s' = with_config c (replace_element element s)
    /\ _config s' = c
    /\ _itemHeights s' = _itemHeights s
    /\ _itemPositions s' = _itemPositions s
    /\ _scrollHeight s' = _scrollHeight s
    /\ _cachedItemsLen s' = _cachedItemsLen s
    /\ _lastFrom s' = _lastFrom s
    /\ _lastRepaint s' = _lastRepaint s
    /\ _children s' = _children s.
Proof.
  intros Hel c Hbad.
  destruct (configure_rejects nc (replace_element element s)) as [msg Hc].
  { destruct element; exact Hbad. }
  exists msg, (with_config c (replace_element element s)).
  assert (Hc' : Part001.configure nc (replace_element element s)
                = Throw (with_config c (replace_element element s)) (Error msg)).
  { rewrite Hc. destruct element; reflexivity. }
  unfold Part001.refresh, Part000.refresh.
  destruct element as [e |]; simpl in *.
  - rewrite (Hel e eq_refl). simpl. rewrite Hc'. simpl. repeat split.
  - rewrite Hc'. simpl. repeat split.
Qed.

(** Refreshing the ten-row list with options whose [generate] is a string
    throws, and leaves the ten heights in place. *)
Lemma C6_refresh_rejects_witness :
  exists msg s',
    Part001.refresh None (Some Demo.broken_options) Demo.ten
    = Throw s' (Error msg)
    /\ _itemHeights s' = _itemHeights Demo.ten.
Proof.
  destruct (C6_refresh_rejects None Demo.broken_options Demo.ten)
    as (msg & s' & H1 & _ & _ & _ & Hh & _).
  - intros e. discriminate.
  - left. reflexivity.
  - exists msg, s'. split; assumption.
Defined.

(** C6 as stated fails: the rejected options of the call above are left
    in the configuration of the instance, whose row count is now 7 while
    its tables still describe 10 rows. *)
Lemma C6_config_mutated_counterexample :
  let o := Part001.refresh None (Some Demo.broken_options) Demo.ten in
  returned o = false
  /\ itemCount (_config Demo.ten) = Count 10
  /\ itemCount (_config (final_state o)) = Count 7
  /\ generate (_config (final_state o)) = NotFunction
  /\ length (default [] (_itemHeights (final_state o))) = 10%nat
  /\ _config (final_state o) <> _config Demo.ten.
Proof. vm_compute. repeat split; congruence. Qed.

End ConfigurationErrors.

(** ** Bounds of the two searches *)

Section SearchBounds.
Import Chunk Part001.

Lemma scan_reverse_bounds (positions : array) (bound : num) (i : nat) :
  0 <= fst (scan_reverse positions bound i) <= Z.of_nat i
  /\ Forall (fun j => 1 <= j <= Z.of_nat i)
            (snd (scan_reverse positions bound i)).
Proof.
  induction i as [| i IH].
  - simpl. split; [lia | constructor].
  - cbn [scan_reverse].
    destruct (nlt (aget positions (Z.of_nat (S i))) bound).
    + destruct (scan_reverse positions bound i) as [r reads].
      simpl in *. destruct IH as [Hr Hreads]. split; [lia |].
      constructor; [lia |].
      eapply Forall_impl; [exact Hreads |]. simpl. intros j Hj. lia.
    + simpl. split; [lia |]. constructor; [lia | constructor].
Qed.

Lemma scan_from_past_end (positions : array) (y : num) (k : Z) :
  Forall (fun e => exists p, e = Some p /\ nlt p y = true) positions ->
  fst (scan_from positions y k) = k + Z.of_nat (length positions)
  /\ In (k + Z.of_nat (length positions)) (snd (scan_from positions y k)).
Proof.
  intros H. revert k. induction H as [| e rest (p & -> & Hp) _ IH]; intros k.
  - simpl. split; [lia | left; lia].
  - cbn [scan_from]. rewrite Hp.
    destruct (scan_from rest y (k + 1)) as [r reads] eqn:E.
    specialize (IH (k + 1)). rewrite E in IH. simpl in *.
    destruct IH as [-> Hin]. split; [lia |].
    right. replace (k + Z.of_nat (S (length rest)))
      with (k + 1 + Z.of_nat (length rest)) by lia. exact Hin.
Qed.

Lemma scan_from_to_end (positions : array) (y : num) (k : Z) :
  fst (scan_from positions y k) = k + Z.of_nat (length positions) ->
  Forall (fun e => exists p, e = Some p /\ nlt p y = true) positions.
Proof.
  revert k. induction positions as [| e rest IH]; intros k H; [constructor |].
  destruct e as [p |]; cbn [scan_from] in H.
  - destruct (nlt p y) eqn:Hlt.
    + destruct (scan_from rest y (k + 1)) as [r reads] eqn:E.
      cbn [fst length] in H. constructor; [eauto |].
      apply (IH (k + 1)). rewrite E. cbn [fst]. lia.
    + cbn [fst length] in H. lia.
  - cbn [fst length] in H. lia.
Qed.

(** C10, as amended.  With at least one row and a position table,
    [_getReverseFrom] returns an index in [0, itemCount - 1] and reads
    positions at indices between 1 and [itemCount - 1] only; these reads
    are inside the table when the table has at least [itemCount] entries.
    On a table of [itemCount] entries [_getFrom] (part_000 and part_001)
    returns [itemCount], reading the position one past the end, when every
    stored position is a number strictly below the scroll coordinate, and
    in no other case. *)
Theorem C10_search_bounds (s : HyperList) (y : num) (n : Z)
    (positions : array) :
  itemCount (_config s) = Count n ->
  1 <= n ->
  _itemPositions s = Some positions ->
  (exists r, _getReverseFrom y s = Return s (Some r) /\ 0 <= r <= n - 1)
  /\ Forall (fun j => 1 <= j <= n - 1) (_getReverseFrom_reads y s)
  /\ (n <= Z.of_nat (length positions) ->
      Forall (fun j => 0 <= j < Z.of_nat (length positions))
             (_getReverseFrom_reads y s))
  /\ (Z.of_nat (length positions) = n ->
      (Forall (fun e => exists p, e = Some p /\ nlt p y = true) positions ->
       _getFrom y s = Return s n
       /\ Part000._getFrom y s = Return s n
       /\ In n (_getFrom_reads y s))
      /\ (_getFrom y s = Return s n ->
          Forall (fun e => exists p, e = Some p /\ nlt p y = true)
                 positions)).
Proof.
  intros Hcount Hn Hpos.
  assert (Hreads : Forall (fun j => 1 <= j <= n - 1)
                          (_getReverseFrom_reads y s)).
  { unfold _getReverseFrom_reads. rewrite Hcount, Hpos.
    destruct (n - 1 <=? 0) eqn:E; [constructor |].
    pose proof (scan_reverse_bounds positions (nadd y (_containerSize s))
                                    (Z.to_nat (n - 1))) as [_ H].
    eapply Forall_impl; [exact H |]. simpl. intros j Hj. lia. }
  split; [| split; [exact Hreads | split]].
  - unfold _getReverseFrom. rewrite Hcount, Hpos.
    destruct (n - 1 <=? 0) eqn:E.
    + exists (n - 1). split; [reflexivity | lia].
    + eexists. split; [reflexivity |].
      pose proof (scan_reverse_bounds positions (nadd y (_containerSize s))
                                      (Z.to_nat (n - 1))) as [H _].
      lia.
  - intros Hlen. eapply Forall_impl; [exact Hreads |]. simpl.
    intros j Hj. lia.
  - intros Hlen. unfold _getFrom, Part000._getFrom, _getFrom_reads.
    rewrite Hpos. split.
    + intros Hall.
      destruct (scan_from_past_end positions y 0 Hall) as [Hr Hin].
      rewrite Hr. simpl. rewrite Hlen in *. auto.
    + intros H. injection H as H.
      apply (scan_from_to_end positions y 0). lia.
Qed.

(** On the ten-row list scrolled far below its end, the reverse search
    answers 0 and the forward search answers 10. *)
Lemma C10_search_bounds_witness :
  (exists r, _getReverseFrom (of_Z 1000) Demo.ten = Return Demo.ten (Some r)
             /\ 0 <= r <= 9)
  /\ _getFrom (of_Z 1000) Demo.ten = Return Demo.ten 10.
Proof.
  destruct (C10_search_bounds Demo.ten (of_Z 1000) 10
              (default [] (_itemPositions Demo.ten)))
    as (Hrev & _ & _ & Hfwd).
  - reflexivity.
  - lia.
  - reflexivity.
  - split; [exact Hrev |].
    apply Hfwd; [reflexivity |].
    vm_compute. repeat constructor; eexists; split; reflexivity.
Defined.

(** C10 as stated fails twice.  On the ten rows of 10 pixels the scroll
    coordinate 90 is at least every stored position (the last row starts
    at 90), and [_getFrom] answers 9, not the row count 10.  And a
    [refresh] that is rejected for its [generate] option has already
    merged the row count 20 into the configuration of a list whose tables
    hold three entries: [_getReverseFrom] then reads the position at the
    index 19, outside the table, and returns 19. *)
Lemma C10_search_counterexample :
  Forall (fun e => exists p, e = Some p /\ nle p (of_Z 90) = true)
         (default [] (_itemPositions Demo.ten))
  /\ itemCount (_config Demo.ten) = Count 10
  /\ _getFrom (of_Z 90) Demo.ten = Return Demo.ten 9
  /\ returned (refresh None (Some Demo.twenty_without_generate) Demo.reversed)
     = false
  /\ itemCount (_config Demo.reversed_rejected) = Count 20
  /\ length <$> _itemPositions Demo.reversed_rejected = Some 3%nat
  /\ _getReverseFrom_reads (of_Z 0) Demo.reversed_rejected = [19]
  /\ _getReverseFrom (of_Z 0) Demo.reversed_rejected
     = Return Demo.reversed_rejected (Some 19).
Proof.
  split.
  { vm_compute. repeat constructor; eexists; split; reflexivity. }
  repeat split; vm_compute; reflexivity.
Qed.

End SearchBounds.

(** ** Arrays *)

Section Arrays.

Lemma aget_aset_eq (a : array) (i : Z) (v : num) :
  0 <= i -> aget (aset a i v) i = v.
Proof.
  intros Hi. unfold aget, aset.
  destruct (i <? 0) eqn:E; [lia |]. cbv beta iota zeta.
  destruct (Z.to_nat i <? length a)%nat eqn:El; cbv beta iota.
  - apply Nat.ltb_lt in El. now rewrite list_lookup_insert_eq.
  - apply Nat.ltb_ge in El.
    rewrite lookup_app_r by lia.
    rewrite lookup_app_r by (rewrite length_replicate; lia).
    rewrite length_replicate.
    now replace (Z.to_nat i - length a - (Z.to_nat i - length a))%nat
      with O by lia.
Qed.

Lemma aget_aset_ne (a : array) (i k : Z) (v : num) :
  i <> k -> aget (aset a i v) k = aget a k.
Proof.
  intros Hne. unfold aget, aset.
  destruct (k <? 0) eqn:Ek; [reflexivity |].
  destruct (i <? 0) eqn:Ei; [reflexivity |]. cbv beta iota zeta.
  assert (Hn : Z.to_nat i <> Z.to_nat k) by lia.
  destruct (Z.to_nat i <? length a)%nat eqn:El; cbv beta iota.
  - now rewrite list_lookup_insert_ne.
  - apply Nat.ltb_ge in El.
    destruct (decide (Z.to_nat k < length a)%nat) as [Hk | Hk].
    + now rewrite lookup_app_l.
    + rewrite lookup_app_r by lia.
      rewrite (lookup_ge_None_2 a) by lia.
      destruct (decide (Z.to_nat k < Z.to_nat i)%nat) as [Hki | Hki].
      * rewrite lookup_app_l by (rewrite length_replicate; lia).
        rewrite lookup_replicate_2 by lia. reflexivity.
      * rewrite lookup_app_r by (rewrite length_replicate; lia).
        rewrite length_replicate.
        destruct (Z.to_nat k - length a - (Z.to_nat i - length a))%nat
          as [| j] eqn:E; [lia |].
        reflexivity.
Qed.

Lemma aget_afill (n k : Z) (h : num) : 0 <= k < n -> aget (afill n h) k = h.
Proof.
  intros Hk. unfold aget, afill.
  destruct (Z.ltb_spec k 0); [lia |].
  rewrite lookup_replicate_2 by lia. reflexivity.
Qed.

End Arrays.

(** ** The position table *)

Section Positions.
Import Chunk Relations.

Lemma for_each_position_step (rev : bool) (m : nat) (i : Z) (s : HyperList)
    (hs ps : array) :
  _itemHeights s = Some hs ->
  _itemPositions s = Some ps ->
  for_each m i (Part001.position_step rev) s
  = Return (with_itemPositions
              (Some (Part001.fill_positions rev (_scrollHeight s) hs m i ps)) s)
           tt.
Proof.
  revert i s ps. induction m as [| m IH]; intros i s ps Hh Hp.
  - simpl. destruct s; simpl in *. now subst.
  - cbn [for_each Part001.fill_positions].
    unfold Part001.position_step at 1. rewrite Hh, Hp.
    cbv zeta.
    rewrite (IH _ _ (aset ps i (Part001.position_value rev (_scrollHeight s)
                                                       hs ps i)))
      by (simpl; first [assumption | reflexivity]).
    reflexivity.
Qed.

(** The loop leaves the table alone outside [i, i + m) and establishes the
    recurrence inside. *)
Lemma fill_positions_spec (rev : bool) (sh : num) (hs : array) (m : nat)
    (i : Z) (ps : array) :
  0 <= i ->
  let ps' := Part001.fill_positions rev sh hs m i ps in
  (forall k, k < i \/ i + Z.of_nat m <= k -> aget ps' k = aget ps k)
  /\ (forall k, i <= k < i + Z.of_nat m ->
        aget ps' k = Part001.position_value rev sh hs ps' k).
Proof.
  revert i ps. induction m as [| m IH]; intros i ps Hi; cbn zeta.
  - simpl. split; [reflexivity | intros; lia].
  - cbn [Part001.fill_positions].
    set (ps1 := aset ps i (Part001.position_value rev sh hs ps i)).
    destruct (IH (i + 1) ps1 ltac:(lia)) as [Hout Hin]. cbn zeta in *.
    split.
    + intros k Hk. rewrite Hout by lia. unfold ps1.
      apply aget_aset_ne. lia.
    + intros k Hk. destruct (decide (k = i)) as [-> | Hne].
      * rewrite Hout by lia. unfold ps1. rewrite aget_aset_eq by lia.
        unfold Part001.position_value.
        rewrite Hout by lia. unfold ps1.
        now rewrite aget_aset_ne by lia.
      * apply Hin. lia.
Qed.

End Positions.

Section Recompute.
Import Chunk Relations.

Lemma position_step_same :
  Part000.position_step = Part001.position_step false.
Proof. reflexivity. Qed.

(** [_computePositions] of part_001 on defined tables. *)
Lemma computePositions_run (from : Z) (s : HyperList) (hs ps : array) :
  _itemHeights s = Some hs ->
  _itemPositions s = Some ps ->
  let rev := reverse (_config s) in
  let from' := if (from <? 1) && negb rev then 1 else from in
  Part001._computePositions from s
  = Return (with_itemPositions
              (Some (Part001.fill_positions rev (_scrollHeight s) hs
                       (Part001.loop_count from' (itemCount (_config s)))
                       from' ps)) s) tt.
Proof.
  intros Hh Hp rev from'. unfold Part001._computePositions.
  now apply for_each_position_step.
Qed.

(** [_computePositions] of part_000 on defined tables, for [from >= 1]. *)
Lemma computePositions0_run (from : Z) (s : HyperList) (hs ps : array) :
  _itemHeights s = Some hs ->
  _itemPositions s = Some ps ->
  from <> 0 ->
  Part000._computePositions from s
  = Return (with_itemPositions
              (Some (Part001.fill_positions false (_scrollHeight s) hs
                       (Part001.loop_count from (itemCount (_config s)))
                       from ps)) s) tt.
Proof.
  intros Hh Hp Hfrom. unfold Part000._computePositions.
  destruct (from =? 0) eqn:E; [lia |]. simpl.
  rewrite position_step_same. now apply for_each_position_step.
Qed.

Lemma loop_count_bound (from n : Z) :
  from + Z.of_nat (Part001.loop_count from (Count n)) = Z.max from n.
Proof. unfold Part001.loop_count. lia. Qed.

(** Forward mode: the recurrence holds from [max from 1] on, and nothing
    below is touched. *)
Lemma fill_forward (sh : num) (hs ps : array) (from n : Z) :
  1 <= from ->
  let ps' := Part001.fill_positions false sh hs
               (Part001.loop_count from (Count n)) from ps in
  (forall k, k < from \/ n <= k -> aget ps' k = aget ps k)
  /\ (forall k, from <= k < n ->
        aget ps' k = nadd (aget hs (k - 1)) (aget ps' (k - 1))).
Proof.
  intros Hfrom ps'.
  destruct (fill_positions_spec false sh hs (Part001.loop_count from (Count n))
              from ps ltac:(lia)) as [Hout Hin].
  fold ps' in Hout, Hin. rewrite loop_count_bound in Hout, Hin. split.
  - intros k Hk. apply Hout. lia.
  - intros k Hk. apply Hin. lia.
Qed.

(** Reverse mode: each position from [from] on is the previous one minus
    the row's own height, the position of row 0 being the scroll height
    minus its height. *)
Lemma fill_reverse (sh : num) (hs ps : array) (from n : Z) :
  0 <= from ->
  let ps' := Part001.fill_positions true sh hs
               (Part001.loop_count from (Count n)) from ps in
  (forall k, k < from \/ n <= k -> aget ps' k = aget ps k)
  /\ (forall k, from <= k < n -> 1 <= k ->
        aget ps' k = nsub (aget ps' (k - 1)) (aget hs k))
  /\ (from = 0 -> 0 < n -> aget ps' 0 = nsub sh (aget hs 0)).
Proof.
  intros Hfrom ps'.
  destruct (fill_positions_spec true sh hs (Part001.loop_count from (Count n))
              from ps Hfrom) as [Hout Hin].
  fold ps' in Hout, Hin. rewrite loop_count_bound in Hout, Hin.
  split; [| split].
  - intros k Hk. apply Hout. lia.
  - intros k Hk Hk1. rewrite Hin by lia. unfold Part001.position_value.
    destruct (k =? 0) eqn:E; [lia | reflexivity].
  - intros -> Hn. rewrite Hin by lia. reflexivity.
Qed.

(** The run of [height_update] of part_001 when the reported height
    differs from the stored one. *)
Lemma height_update_run (i : Z) (h : num) (s : HyperList) (hs ps : array) :
  _itemHeights s = Some hs ->
  _itemPositions s = Some ps ->
  nseq h (aget hs i) = false ->
  let rev := reverse (_config s) in
  let from' := if (i <? 1) && negb rev then 1 else i in
  exists s',
    Part001.height_update i h s = Return s' tt
    /\ _config s' = _config s
    /\ _itemHeights s' = Some (aset hs i h)
    /\ _itemPositions s'
       = Some (Part001.fill_positions rev (_scrollHeight s) (aset hs i h)
                 (Part001.loop_count from' (itemCount (_config s))) from' ps)
    /\ _scrollHeight s' = asum (aset hs i h)
    /\ _lastRepaint s' = _lastRepaint s
    /\ _lastFrom s' = _lastFrom s
    /\ _children s' = _children s
    /\ _element s' = _element s.
Proof.
  intros Hh Hp Hne rev from'. unfold Part001.height_update.
  rewrite Hh, Hne.
  rewrite (computePositions_run i _ (aset hs i h) ps)
    by (simpl; first [assumption | reflexivity]).
  cbn [reverse _config with_itemHeights itemCount _scrollHeight].
  unfold Part001._computeScrollHeight.
  cbn [_itemHeights with_itemPositions with_itemHeights].
  eexists. split; [reflexivity |]. repeat split.
Qed.

(** The run of [height_update] of part_000 in the same case. *)
Lemma height_update0_run (i : Z) (h : num) (s : HyperList) (hs ps : array) :
  _itemHeights s = Some hs ->
  _itemPositions s = Some ps ->
  nseq h (aget hs i) = false ->
  0 <= i ->
  exists s',
    Part000.height_update i h s = Return s' tt
    /\ _config s' = _config s
    /\ _itemHeights s' = Some (aset hs i h)
    /\ _itemPositions s'
       = Some (Part001.fill_positions false
                 (nadd (_scrollHeight s) (nsub h (aget hs i))) (aset hs i h)
                 (Part001.loop_count (i + 1) (itemCount (_config s)))
                 (i + 1) ps)
    /\ _scrollHeight s' = nadd (_scrollHeight s) (nsub h (aget hs i))
    /\ _lastRepaint s' = _lastRepaint s
    /\ _lastFrom s' = _lastFrom s
    /\ _children s' = _children s
    /\ _element s' = _element s
    /\ _cachedItemsLen s' = _cachedItemsLen s.
Proof.
  intros Hh Hp Hne Hi. unfold Part000.height_update.
  rewrite Hh, Hne. cbv zeta.
  rewrite (computePositions0_run (i + 1) _ (aset hs i h) ps)
    by (simpl; first [assumption | reflexivity | lia]).
  eexists. split; [reflexivity |]. repeat split.
Qed.

End Recompute.

(** ** Predicates kept by the chunk renderer of part_001 *)

Section ChunkPreservation.
Import Chunk Relations.

Lemma getRow_final_state (i : Z) (s : HyperList) :
  final_state (Part001._getRow i s) = s
  \/ exists h, final_state (Part001._getRow i s)
               = final_state (Part001.height_update i h s).
Proof.
  unfold Part001._getRow.
  destruct (generate (_config s)) as [| gen]; [now left |].
  destruct (gen i) as [| nd | element h |]; try (now left).
  - unfold Part001.read_heights, Part001.read_positions.
    destruct (_itemHeights s); simpl; [| now left].
    destruct (_itemPositions s); now left.
  - destruct (isNumber h).
    + right. exists h.
      destruct (Part001.height_update i h s) as [s' [] | s' e]; simpl;
        [| reflexivity].
      destruct element; simpl; [| reflexivity].
      unfold Part001.read_positions. now destruct (_itemPositions s').
    + left. unfold Part001.read_heights.
      now destruct (_itemHeights s).
  - left. unfold Part001.read_heights. now destruct (_itemHeights s).
Qed.

Variable P : HyperList -> Prop.
Hypothesis P_update :
  forall i h s, 0 <= i -> P s -> P (final_state (Part001.height_update i h s)).
Hypothesis P_lastFrom : forall f s, P s -> P (with_lastFrom f s).
Hypothesis P_children : forall c s, P s -> P (with_children c s).
Hypothesis P_lastRepaint : forall r s, P s -> P (with_lastRepaint r s).

Lemma getRow_keeps (i : Z) (s : HyperList) :
  0 <= i -> P s -> P (final_state (Part001._getRow i s)).
Proof.
  intros Hi Hs. destruct (getRow_final_state i s) as [-> | [h ->]]; auto.
Qed.

Lemma row_loop_keeps (n : nat) (i : Z) (st : HyperList * list node) :
  0 <= i -> P (fst st) ->
  P (fst (final_state (for_each n i Part001.row_step st))).
Proof.
  revert i st. induction n as [| n IH]; intros i st Hi Hs; [exact Hs |].
  cbn [for_each]. unfold Part001.row_step at 1.
  pose proof (getRow_keeps i (fst st) Hi Hs) as Hrow.
  destruct (Part001._getRow i (fst st)) as [s' row | s' e]; simpl in Hrow.
  - apply IH; [lia | exact Hrow].
  - exact Hrow.
Qed.

Lemma render_from_keeps (force : bool) (from0 : option Z) (s : HyperList) :
  P s -> P (final_state (Part001.render_from force from0 s)).
Proof.
  intros Hs. unfold Part001.render_from.
  destruct (negb force && _); [exact Hs |].
  set (from := Part001.clamp_from from0 s).
  set (s1 := with_lastFrom (Part001.index_num from) s).
  assert (H1 : P s1) by now apply P_lastFrom.
  destruct (Part001.rows_count from _) as [n |]; [| exact H1].
  assert (Hfrom : 0 <= default 0 from).
  { destruct from as [z |] eqn:E; simpl; [| lia].
    now apply (clamp_from_nonneg from0 s). }
  pose proof (row_loop_keeps n (default 0 from) (s1, []) Hfrom H1) as Hloop.
  destruct (for_each n (default 0 from) Part001.row_step (s1, []))
    as [[s' rows] [] | [s' rows] e]; simpl in *.
  - now apply P_children.
  - exact Hloop.
Qed.

Lemma renderChunk_keeps (force : bool) (s : HyperList) :
  P s -> P (final_state (Part001._renderChunk force s)).
Proof.
  intros Hs. unfold Part001._renderChunk, Part001._getReverseFrom,
    Part001._getFrom.
  destruct (reverse (_config s)).
  - destruct (itemCount (_config s)) as [| | n]; simpl;
      try now apply render_from_keeps.
    destruct (n - 1 <=? 0); simpl; [now apply render_from_keeps |].
    destruct (_itemPositions s); simpl; [now apply render_from_keeps | exact Hs].
  - destruct (_itemPositions s); simpl; [now apply render_from_keeps | exact Hs].
Qed.

Lemma render_keeps (s : HyperList) :
  P s -> P (final_state (Part001.render s)).
Proof.
  intros Hs. unfold Part001.render.
  destruct (Part001.should_render _ s); [| exact Hs].
  pose proof (renderChunk_keeps false s Hs) as H.
  destruct (Part001._renderChunk false s) as [s' r | s' e]; simpl in *.
  - now apply P_lastRepaint.
  - exact H.
Qed.

End ChunkPreservation.

(** ** Prefix sums and total extent in part_001 *)

Section ChunkInvariants.
Import Chunk Relations.

Lemma height_update_cases (i : Z) (h : num) (s : HyperList) (hs ps : array) :
  _itemHeights s = Some hs ->
  _itemPositions s = Some ps ->
  (nseq h (aget hs i) = true /\ Part001.height_update i h s = Return s tt)
  \/ (nseq h (aget hs i) = false
      /\ exists s',
           Part001.height_update i h s = Return s' tt
           /\ _config s' = _config s
           /\ _itemHeights s' = Some (aset hs i h)
           /\ _itemPositions s'
              = Some (Part001.fill_positions (reverse (_config s))
                        (_scrollHeight s) (aset hs i h)
                        (Part001.loop_count
                           (if (i <? 1) && negb (reverse (_config s))
                            then 1 else i)
                           (itemCount (_config s)))
                        (if (i <? 1) && negb (reverse (_config s))
                         then 1 else i) ps)
           /\ _scrollHeight s' = asum (aset hs i h)).
Proof.
  intros Hh Hp. destruct (nseq h (aget hs i)) eqn:E.
  - left. split; [reflexivity |]. unfold Part001.height_update.
    now rewrite Hh, E.
  - right. split; [reflexivity |].
    destruct (height_update_run i h s hs ps Hh Hp E)
      as (s' & H1 & H2 & H3 & H4 & H5 & _).
    exists s'. auto.
Qed.

Lemma position_invariant_update (i : Z) (h : num) (s : HyperList) :
  0 <= i ->
  position_invariant s ->
  position_invariant (final_state (Part001.height_update i h s)).
Proof.
  intros Hi (hs & ps & Hh & Hp & Hrel).
  destruct (height_update_cases i h s hs ps Hh Hp)
    as [[_ ->] | [_ (s' & -> & Hc & Hh' & Hp' & _)]]; simpl.
  { exists hs, ps. auto. }
  eexists _, _. split; [exact Hh' |]. split; [exact Hp' |].
  rewrite Hc. intros n Hn. specialize (Hrel n Hn). rewrite Hn.
  destruct (reverse (_config s)).
  - destruct (fill_reverse (_scrollHeight s) (aset hs i h) ps i n Hi)
      as (Hout & Hin & _).
    replace ((i <? 1) && negb true) with false by now rewrite andb_false_r.
    intros k Hk. destruct (Z_lt_le_dec k i) as [Hlt | Hge].
    + rewrite !Hout by lia. rewrite aget_aset_ne by lia. now apply Hrel.
    + apply Hin; lia.
  - rewrite andb_true_r.
    assert (Hfrom : (if i <? 1 then 1 else i) = Z.max i 1).
    { destruct (i <? 1) eqn:E; lia. }
    rewrite Hfrom.
    destruct (fill_forward (_scrollHeight s) (aset hs i h) ps (Z.max i 1) n
                ltac:(lia)) as (Hout & Hin).
    intros k Hk. destruct (Z_lt_le_dec k (Z.max i 1)) as [Hlt | Hge].
    + rewrite !Hout by lia. rewrite aget_aset_ne by lia. now apply Hrel.
    + apply Hin; lia.
Qed.

Lemma extent_invariant_update (i : Z) (h : num) (s : HyperList) :
  0 <= i ->
  extent_invariant s ->
  extent_invariant (final_state (Part001.height_update i h s)).
Proof.
  intros Hi (hs & Hh & [ps Hp] & Hsum).
  destruct (height_update_cases i h s hs ps) as
    [[_ ->] | [_ (s' & -> & Hc & Hh' & Hp' & Hs')]]; simpl; auto.
  - exists hs. split; [exact Hh |]. split; [now exists ps | exact Hsum].
  - eexists. split; [exact Hh' |]. split; [eauto | exact Hs'].
Qed.



End ChunkInvariants.

Section ChunkRefresh.
Import Chunk Relations.

Ltac bind_step H :=
  match type of H with
  | bind ?m _ = Return _ _ =>
      let E := fresh "E" in
      destruct m as [? ? | ? ?] eqn:E; cbn [bind] in H; [| discriminate H]
  end.


(** The state reached by [refresh] of part_001 just before it renders. *)
Lemma refresh_tables (s0 s2 : HyperList) (h : num) :
  Part001._computeScrollHeight s0 = Return s2 h ->
  forall s3 s4,
    Part001.fresh_positions (with_scrollHeight h s2) = Return s3 tt ->
    Part001._computePositions 0 s3 = Return s4 tt ->
    position_invariant s4 /\ extent_invariant s4.
Proof.
  unfold Part001._computeScrollHeight.
  destruct (_itemHeights s0) as [hs |] eqn:Hh; [| discriminate].
  intros [= <- <-] s3 s4 Hfresh Hpos.
  assert (H3 : _itemHeights s3 = Some hs /\ _scrollHeight s3 = asum hs
               /\ _config s3 = _config s0
               /\ exists ps, _itemPositions s3 = Some ps).
  { unfold Part001.fresh_positions in Hfresh. simpl in Hfresh.
    destruct (_itemPositions s0) as [ps |] eqn:Hp.
    - injection Hfresh as <-. simpl. repeat split; eauto.
    - destruct (itemCount (_config s0)) as [| | n]; try discriminate.
      + injection Hfresh as <-. simpl. repeat split; eauto.
      + destruct (Part001.valid_array_length n); [| discriminate].
        injection Hfresh as <-. simpl. repeat split; eauto. }
  destruct H3 as (Hh3 & Hs3 & Hc3 & ps & Hp3).
  rewrite (computePositions_run 0 s3 hs ps Hh3 Hp3) in Hpos.
  injection Hpos as <-. split.
  - exists hs. eexists. split; [exact Hh3 |]. split; [reflexivity |].
    cbn [_config with_itemPositions]. intros n Hn. rewrite Hn.
    destruct (reverse (_config s3)); simpl.
    + destruct (fill_reverse (_scrollHeight s3) hs ps 0 n ltac:(lia))
        as (_ & Hin & _).
      intros k Hk. apply Hin; lia.
    + destruct (fill_forward (_scrollHeight s3) hs ps 1 n ltac:(lia))
        as (_ & Hin).
      intros k Hk. apply Hin; lia.
  - exists hs. split; [exact Hh3 |]. split; [eexists; reflexivity | exact Hs3].
Qed.

Lemma position_invariant_stable :
  (forall f s, position_invariant s -> position_invariant (with_lastFrom f s))
  /\ (forall c s, position_invariant s -> position_invariant (with_children c s))
  /\ (forall r s, position_invariant s
                  -> position_invariant (with_lastRepaint r s)).
Proof. repeat split; intros ? ? H; exact H. Qed.

Lemma extent_invariant_stable :
  (forall f s, extent_invariant s -> extent_invariant (with_lastFrom f s))
  /\ (forall c s, extent_invariant s -> extent_invariant (with_children c s))
  /\ (forall r s, extent_invariant s -> extent_invariant (with_lastRepaint r s)).
Proof. repeat split; intros ? ? H; exact H. Qed.

(** Both relations hold when [refresh] of part_001 returns. *)
Lemma refresh_invariants (element : option Element)
    (newConfig : option NewConfig) (s s' : HyperList) :
  Part001.refresh element newConfig s = Return s' tt ->
  position_invariant s' /\ extent_invariant s'.
Proof.
  unfold Part001.refresh. intros H.
  bind_step H. bind_step H. bind_step H. bind_step H. bind_step H.
  repeat match goal with x : unit |- _ => destruct x end.
  destruct (refresh_tables _ _ _ E1 _ _ E2 E3) as [Hpos Hext].
  destruct (truthy (_scrollHeight s4)).
  - bind_step H. injection H as <-.
    destruct position_invariant_stable as (P1 & P2 & P3).
    destruct extent_invariant_stable as (X1 & X2 & X3).
    split.
    + pose proof (renderChunk_keeps position_invariant
                    position_invariant_update P1 P2
                    (bool_decide (_lastRepaint s4 <> None)) s4 Hpos) as K.
      now rewrite E4 in K.
    + pose proof (renderChunk_keeps extent_invariant
                    extent_invariant_update X1 X2
                    (bool_decide (_lastRepaint s4 <> None)) s4 Hext) as K.
      now rewrite E4 in K.
  - injection H as <-. auto.
Qed.



End ChunkRefresh.

(** ** Sums of heights *)

Section Sums.

Lemma nsame_refl (a : num) : nsame a a.
Proof. destruct a; simpl; auto. reflexivity. Qed.

Lemma nsame_sym (a b : num) : nsame a b -> nsame b a.
Proof. destruct a, b; simpl; auto. intros H. now symmetry. Qed.

Lemma nsame_trans (a b c : num) : nsame a b -> nsame b c -> nsame a c.
Proof.
  destruct a, b, c; simpl; auto; try contradiction.
  intros H1 H2. now rewrite H1.
Qed.

Lemma nadd_same (a a' b b' : num) :
  nsame a a' -> nsame b b' -> nsame (nadd a b) (nadd a' b').
Proof.
  destruct a, a', b, b'; simpl; auto; try contradiction.
  intros H1 H2. now rewrite H1, H2.
Qed.

Lemma nadd_assoc (a b c : num) :
  nsame (nadd (nadd a b) c) (nadd a (nadd b c)).
Proof. destruct a, b, c; simpl; auto. ring. Qed.

Lemma nadd_zero_l (a : num) : nsame (nadd (Fin 0) a) a.
Proof. destruct a; simpl; auto. ring. Qed.

(** Replacing a finite summand [p] by [h] changes a sum by [h - p]. *)
Lemma nadd_replace (a c h : num) (p : Q) :
  nsame (nadd (nadd (nadd a (Fin p)) c) (nsub h (Fin p)))
        (nadd (nadd a h) c).
Proof. unfold nsub. destruct a, c, h; simpl; auto. ring. Qed.

Lemma asum_fold (a : array) : asum a = fold_left sum_step a (Fin 0).
Proof. reflexivity. Qed.

Lemma fold_sum_shift (l : array) (x : num) :
  nsame (fold_left sum_step l x) (nadd x (fold_left sum_step l (Fin 0))).
Proof.
  revert x. induction l as [| e l IH]; intros x; simpl.
  - destruct x; simpl; auto. ring.
  - eapply nsame_trans; [apply IH |].
    eapply nsame_trans;
      [| apply nadd_same; [apply nsame_refl | apply nsame_sym, IH]].
    destruct e as [v |]; simpl.
    + eapply nsame_trans; [apply nadd_assoc |].
      apply nadd_same; [apply nsame_refl |].
      apply nadd_same; [apply nsame_sym, nadd_zero_l | apply nsame_refl].
    + apply nadd_same; [apply nsame_refl |].
      apply nsame_sym, nadd_zero_l.
Qed.

Lemma fold_sum_same (l : array) (x y : num) :
  nsame x y -> nsame (fold_left sum_step l x) (fold_left sum_step l y).
Proof.
  intros H.
  eapply nsame_trans; [apply fold_sum_shift |].
  eapply nsame_trans; [| apply nsame_sym, fold_sum_shift].
  apply nadd_same; [exact H | apply nsame_refl].
Qed.

(** The incremental update of part_000 agrees with a fresh sum when the
    replaced height is a finite number stored in the table. *)
Lemma asum_replace (a : array) (i : Z) (h : num) (p : Q) (total : num) :
  0 <= i ->
  a !! Z.to_nat i = Some (Some (Fin p)) ->
  nsame total (asum a) ->
  nsame (nadd total (nsub h (aget a i))) (asum (aset a i h)).
Proof.
  intros Hi Hlook Htotal.
  assert (Hget : aget a i = Fin p).
  { unfold aget. destruct (i <? 0) eqn:E; [lia |]. now rewrite Hlook. }
  assert (Hlt : (Z.to_nat i < length a)%nat) by (eapply lookup_lt_Some; eauto).
  rewrite Hget. unfold aset. destruct (i <? 0) eqn:E; [lia |]. cbv zeta.
  apply Nat.ltb_lt in Hlt as Hb. rewrite Hb.
  rewrite insert_take_drop by exact Hlt.
  set (l1 := take (Z.to_nat i) a).
  set (l2 := drop (S (Z.to_nat i)) a).
  assert (Ha : asum a
               = fold_left sum_step l2
                           (nadd (fold_left sum_step l1 (Fin 0)) (Fin p))).
  { rewrite <- (take_drop_middle a (Z.to_nat i) (Some (Fin p)) Hlook) at 1.
    rewrite asum_fold, fold_left_app. reflexivity. }
  rewrite Ha in Htotal.
  rewrite asum_fold, fold_left_app. cbn [fold_left sum_step].
  eapply nsame_trans;
    [apply nadd_same; [exact Htotal | apply nsame_refl] |].
  eapply nsame_trans;
    [apply nadd_same; [apply fold_sum_shift | apply nsame_refl] |].
  eapply nsame_trans; [| apply nsame_sym, fold_sum_shift].
  eapply nsame_trans; [| apply nadd_replace].
  apply nadd_same; [| apply nsame_refl].
  apply nsame_refl.
Qed.

End Sums.

(** ** Prefix sums and total extent in part_000 *)

Section ChunkInvariants0.
Import Chunk Relations.

Lemma getRow0_final_state (i : Z) (s : HyperList) :
  final_state (Part000._getRow i s) = s
  \/ exists h, final_state (Part000._getRow i s)
               = final_state (Part000.height_update i h s).
Proof.
  unfold Part000._getRow.
  destruct (generate (_config s)) as [| gen]; [now left |].
  destruct (gen i) as [| nd | element h |]; try (now left).
  - unfold Part001.read_heights, Part001.read_positions.
    destruct (_itemHeights s); simpl; [| now left].
    destruct (_itemPositions s); now left.
  - destruct (isNumber h).
    + right. exists h.
      destruct (Part000.height_update i h s) as [s' [] | s' e]; simpl;
        [| reflexivity].
      destruct element; simpl; [| reflexivity].
      unfold Part001.read_positions. now destruct (_itemPositions s').
    + left. unfold Part001.read_heights.
      now destruct (_itemHeights s).
  - left. unfold Part001.read_heights. now destruct (_itemHeights s).
Qed.

Lemma height_update0_cases (i : Z) (h : num) (s : HyperList) (hs ps : array) :
  0 <= i ->
  _itemHeights s = Some hs ->
  _itemPositions s = Some ps ->
  (nseq h (aget hs i) = true /\ Part000.height_update i h s = Return s tt)
  \/ (nseq h (aget hs i) = false
      /\ exists s',
           Part000.height_update i h s = Return s' tt
           /\ _config s' = _config s
           /\ _itemHeights s' = Some (aset hs i h)
           /\ _itemPositions s'
              = Some (Part001.fill_positions false
                        (nadd (_scrollHeight s) (nsub h (aget hs i)))
                        (aset hs i h)
                        (Part001.loop_count (i + 1) (itemCount (_config s)))
                        (i + 1) ps)
           /\ _scrollHeight s' = nadd (_scrollHeight s) (nsub h (aget hs i))
           /\ _cachedItemsLen s' = _cachedItemsLen s).
Proof.
  intros Hi Hh Hp. destruct (nseq h (aget hs i)) eqn:E.
  - left. split; [reflexivity |]. unfold Part000.height_update.
    now rewrite Hh, E.
  - right. split; [reflexivity |].
    destruct (height_update0_run i h s hs ps Hh Hp E Hi)
      as (s' & H1 & H2 & H3 & H4 & H5 & _ & _ & _ & _ & H6).
    exists s'. auto 10.
Qed.



Lemma extent_same_getRow0 (i : Z) (s : HyperList) (hs : array) (p : Q) :
  0 <= i ->
  _itemHeights s = Some hs ->
  hs !! Z.to_nat i = Some (Some (Fin p)) ->
  extent_same s ->
  extent_same (final_state (Part000._getRow i s)).
Proof.
  intros Hi Hh Hlook Hs.
  destruct (getRow0_final_state i s) as [-> | [h ->]]; [exact Hs |].
  destruct Hs as (hs0 & Hh0 & [ps Hp] & Hsum).
  rewrite Hh in Hh0. injection Hh0 as <-.
  destruct (height_update0_cases i h s hs ps Hi Hh Hp)
    as [[_ ->] | [_ (s' & -> & Hc & Hh' & Hp' & Hs' & _)]]; simpl.
  - exists hs. split; [exact Hh |]. split; [now exists ps | exact Hsum].
  - eexists. split; [exact Hh' |]. split; [eauto |].
    rewrite Hs'. now apply (asum_replace hs i h p).
Qed.

End ChunkInvariants0.

(** ** A changed row height *)

Section LengthUpdate.
Import Chunk Relations.

Lemma in_loop_indices (from k : Z) (m : nat) :
  In k ((fun j => from + Z.of_nat j) <$> seq 0 m)
  <-> from <= k < from + Z.of_nat m.
Proof.
  rewrite <- list_elem_of_In, list_elem_of_fmap. split.
  - intros (j & -> & Hj). apply elem_of_seq in Hj. lia.
  - intros Hk. exists (Z.to_nat (k - from)). split; [lia |].
    apply elem_of_seq. lia.
Qed.

(** C8, as amended.  In forward mode, for a row [i] whose generator
    reports the numeric height [h]: when [h] equals the stored height the
    update returns the state unchanged; otherwise the height table gets
    [h] at [i], part_000 reassigns the positions [i + 1 .. n - 1] while
    part_001 reassigns [max i 1 .. n - 1], position [i] included, giving
    it [height[i-1] + position[i-1]] again; positions below are left as
    they were, every position after [i] satisfies the prefix-sum
    recurrence on the new heights, and the scroll height is the old one
    plus the difference (part_000) or the fresh sum (part_001). *)
Theorem C8_length_update (i : Z) (h : num) (s : HyperList) (hs ps : array)
    (n : Z) :
  0 <= i ->
  _itemHeights s = Some hs ->
  _itemPositions s = Some ps ->
  itemCount (_config s) = Count n ->
  reverse (_config s) = false ->
  (nseq h (aget hs i) = true ->
   Part000.height_update i h s = Return s tt
   /\ Part001.height_update i h s = Return s tt)
  /\ (nseq h (aget hs i) = false ->
      exists s0 s1 ps0 ps1,
        Part000.height_update i h s = Return s0 tt
        /\ Part001.height_update i h s = Return s1 tt
        /\ _itemHeights s0 = Some (aset hs i h)
        /\ _itemHeights s1 = Some (aset hs i h)
        /\ _itemPositions s0 = Some ps0
        /\ _itemPositions s1 = Some ps1
        /\ (forall k, In k (Part000.positions_assigned (i + 1) s)
                      <-> i + 1 <= k < n)
        /\ (forall k, In k (Part001.positions_assigned i s)
                      <-> Z.max i 1 <= k < n)
        /\ (forall k, k <= i -> aget ps0 k = aget ps k)
        /\ (forall k, k < Z.max i 1 -> aget ps1 k = aget ps k)
        /\ (1 <= i < n ->
            aget ps1 i = nadd (aget hs (i - 1)) (aget ps (i - 1)))
        /\ (forall k, i < k < n ->
              aget ps0 k = nadd (aget (aset hs i h) (k - 1)) (aget ps0 (k - 1))
              /\ aget ps1 k
                 = nadd (aget (aset hs i h) (k - 1)) (aget ps1 (k - 1)))
        /\ _scrollHeight s0 = nadd (_scrollHeight s) (nsub h (aget hs i))
        /\ _scrollHeight s1 = asum (aset hs i h)).
Proof.
  intros Hi Hh Hp Hn Hrev. split.
  - intros E. unfold Part000.height_update, Part001.height_update.
    now rewrite Hh, E.
  - intros E.
    destruct (height_update0_cases i h s hs ps Hi Hh Hp)
      as [[E' _] | [_ (s0 & R0 & _ & Hh0 & Hp0 & Hs0 & _)]]; [congruence |].
    destruct (height_update_cases i h s hs ps Hh Hp)
      as [[E' _] | [_ (s1 & R1 & _ & Hh1 & Hp1 & Hs1)]]; [congruence |].
    rewrite Hrev, Hn in Hp1. rewrite andb_true_r in Hp1. rewrite Hn in Hp0.
    assert (Hfrom : (if i <? 1 then 1 else i) = Z.max i 1).
    { destruct (i <? 1) eqn:E1; lia. }
    rewrite Hfrom in Hp1.
    destruct (fill_forward (nadd (_scrollHeight s) (nsub h (aget hs i)))
                (aset hs i h) ps (i + 1) n ltac:(lia)) as (Hout0 & Hin0).
    destruct (fill_forward (_scrollHeight s) (aset hs i h) ps (Z.max i 1) n
                ltac:(lia)) as (Hout1 & Hin1).
    eexists s0, s1, _, _.
    split; [exact R0 |]. split; [exact R1 |].
    split; [exact Hh0 |]. split; [exact Hh1 |].
    split; [exact Hp0 |]. split; [exact Hp1 |].
    split; [| split].
    { intros k. unfold Part000.positions_assigned.
      destruct (i + 1 =? 0) eqn:E0; [lia |]. cbn [app].
      rewrite in_loop_indices, Hn. unfold Part001.loop_count. lia. }
    { intros k. unfold Part001.positions_assigned.
      rewrite Hrev, Hn, andb_true_r, Hfrom, in_loop_indices.
      unfold Part001.loop_count. lia. }
    split; [intros k Hk; apply Hout0; lia |].
    split; [intros k Hk; apply Hout1; lia |].
    split.
    { intros Hi1. rewrite Hin1 by lia. rewrite Hout1 by lia.
      now rewrite aget_aset_ne by lia. }
    split.
    { intros k Hk. split; [apply Hin0 | apply Hin1]; lia. }
    split; assumption.
Qed.

(** Row 3 of the ten-row list grows from 10 to 25 pixels. *)
Lemma C8_length_update_witness :
  exists s1 ps1,
    Part001.height_update 3 (of_Z 25) Demo.ten = Return s1 tt
    /\ _itemPositions s1 = Some ps1
    /\ aget ps1 3 = aget (default [] (_itemPositions Demo.ten)) 3
    /\ _scrollHeight s1
       = asum (aset (default [] (_itemHeights Demo.ten)) 3 (of_Z 25)).
Proof.
  destruct (C8_length_update 3 (of_Z 25) Demo.ten
              (default [] (_itemHeights Demo.ten))
              (default [] (_itemPositions Demo.ten)) 10)
    as [_ H]; try reflexivity; [lia |].
  destruct H as (s0 & s1 & ps0 & ps1 & _ & R1 & _ & _ & _ & Hp1 & _ & _ & _
                 & _ & H3 & _ & _ & Hs1); [vm_compute; reflexivity |].
  exists s1, ps1. split; [exact R1 |]. split; [exact Hp1 |].
  split; [| exact Hs1].
  rewrite H3 by lia. reflexivity.
Defined.

(** C8 as stated fails for part_001: when the height of row 3 changes, the
    recomputation made by [_getRow], [_computePositions(i)], assigns the
    positions 3 to 9; it starts at [i], not at [i + 1], and position 3 is
    written again (part_000 starts at 4). *)
Lemma C8_starts_at_i_counterexample :
  Part001.positions_assigned 3 Demo.ten = [3; 4; 5; 6; 7; 8; 9]
  /\ Part000.positions_assigned (3 + 1) Demo.ten = [4; 5; 6; 7; 8; 9]
  /\ head (Part001.positions_assigned 3 Demo.ten) <> Some (3 + 1)
  /\ Part001.height_update 3 (of_Z 25) Demo.ten
     = bind (Part001._computePositions 3
               (with_itemHeights
                  (Some (aset (default [] (_itemHeights Demo.ten)) 3 (of_Z 25)))
                  Demo.ten))
            (fun s2 _ =>
               bind (Part001._computeScrollHeight s2)
                    (fun s3 h => Return (with_scrollHeight h s3) tt)).
Proof.
  split; [reflexivity |]. split; [reflexivity |].
  split; [vm_compute; congruence |]. vm_compute. reflexivity.
Qed.

End LengthUpdate.

(** ** Full resolve of lib/index.js *)

Section FullResolve.
Import LibIndex Layout.

Lemma row_at_put_eq (rows : list (option Row)) (i : Z) (r : Row) :
  0 <= i < Z.of_nat (length rows) -> row_at (row_put rows i r) i = Some r.
Proof.
  intros Hi. unfold row_at, row_put.
  destruct (i <? 0) eqn:E; [lia |].
  rewrite list_lookup_insert_eq by lia. reflexivity.
Qed.

Lemma row_at_put_ne (rows : list (option Row)) (i j : Z) (r : Row) :
  i <> j -> row_at (row_put rows i r) j = row_at rows j.
Proof.
  intros Hne. unfold row_at, row_put.
  destruct (j <? 0) eqn:Ej; [reflexivity |].
  destruct (i <? 0) eqn:Ei; [reflexivity |].
  rewrite list_lookup_insert_ne by lia. reflexivity.
Qed.

Lemma length_row_put (rows : list (option Row)) (i : Z) (r : Row) :
  length (row_put rows i r) = length rows.
Proof.
  unfold row_put. destruct (i <? 0); [reflexivity |]. apply length_insert.
Qed.

Lemma extremes_start (V : Z -> bool) : extremes V 0 (-1) (-1).
Proof. left. split; [reflexivity |]. split; [reflexivity |]. intros; lia. Qed.

Lemma extremes_step (V : Z -> bool) (i first last : Z) :
  0 <= i ->
  extremes V i first last ->
  extremes V (i + 1)
           (if V i && (first <? 0) then i else first)
           (if V i then i else last).
Proof.
  intros Hi [(-> & -> & Hnone) | (Hf & Hfl & Hl & Vf & Vl & Hall)].
  - destruct (V i) eqn:E; simpl.
    + right. do 5 (split; [first [lia | assumption] |]).
      intros j Hj Vj. destruct (Z.eq_dec j i); [lia |].
      rewrite Hnone in Vj by lia. discriminate.
    + left. do 2 (split; [reflexivity |]). intros j Hj.
      destruct (Z.eq_dec j i) as [-> | Hne]; [exact E | apply Hnone; lia].
  - replace (first <? 0) with false by lia. rewrite andb_false_r.
    destruct (V i) eqn:E.
    + right. do 5 (split; [first [lia | assumption] |]).
      intros j Hj Vj. destruct (Z.eq_dec j i); [lia |].
      specialize (Hall j ltac:(lia) Vj). lia.
    + right. do 5 (split; [first [lia | assumption] |]).
      intros j Hj Vj. destruct (Z.eq_dec j i) as [-> | Hne];
        [congruence | specialize (Hall j ltac:(lia) Vj); lia].
Qed.


Lemma render_step_resolving (s0 : HyperList) (N : Z) (L P : Z -> Z)
    (start end_ i : Z) (a : Layout) :
  offsets N L P ->
  _renderRow s0 = default_renderer ->
  0 <= i < N ->
  resolving s0 N L P start end_ i a ->
  exists a', render_step start end_ i a = Return a' tt
             /\ resolving s0 N L P start end_ (i + 1) a'.
Proof.
  intros [P0 Pstep] Hrender Hi (Hset & [Hlen Hrows] & Hdone & Hsum & Hext).
  destruct (Hrows i Hi) as (r & Hr & Hl & [nd Hnd]).
  unfold render_step. rewrite Hr. cbn [default from_option id].
  destruct Hset as (Hrr & Hset). rewrite Hrr, Hrender.
  unfold default_renderer. rewrite Hnd. cbn [row_length set_node]. rewrite Hl.
  eexists. split; [reflexivity |].
  unfold resolving, renderable, same_settings.
  cbn [lay_list lay_len lay_first lay_last _rows with_root with_rows
       _renderRow _rowLength _padding _refreshLoop _root].
  assert (HV : (lay_len a <? end_) && (start <? lay_len a + L i)
               = visible_at P start end_ i).
  { unfold visible_at. rewrite Hsum, Pstep by lia. reflexivity. }
  rewrite HV.
  split; [| split; [| split; [| split]]].
  - cbn. rewrite Hrr. tauto.
  - split; [rewrite length_row_put; exact Hlen |].
    intros j Hj. destruct (Z.eq_dec j i) as [-> | Hne].
    + rewrite row_at_put_eq by lia. eexists. split; [reflexivity |].
      cbn. split; [reflexivity | eauto].
    + rewrite row_at_put_ne by lia. apply Hrows. lia.
  - intros j Hj. destruct (Z.eq_dec j i) as [-> | Hne].
    + rewrite row_at_put_eq by lia. eexists. split; [reflexivity |].
      cbn. rewrite Hsum. split; reflexivity.
    + rewrite row_at_put_ne by lia. apply Hdone. lia.
  - rewrite Hsum, Pstep by lia. reflexivity.
  - apply extremes_step; [lia | exact Hext].
Qed.

Lemma render_loop_resolving (s0 : HyperList) (N : Z) (L P : Z -> Z)
    (start end_ : Z) (n : nat) (i : Z) (a : Layout) :
  offsets N L P ->
  _renderRow s0 = default_renderer ->
  0 <= i -> i + Z.of_nat n = N ->
  resolving s0 N L P start end_ i a ->
  exists a', for_each n i (render_step start end_) a = Return a' tt
             /\ resolving s0 N L P start end_ N a'.
Proof.
  intros Hoff Hrender. revert i a.
  induction n as [| n IH]; intros i a Hi Hn Hinv.
  - exists a. split; [reflexivity |].
    assert (E : i = N) by lia. rewrite E in Hinv. exact Hinv.
  - destruct (render_step_resolving s0 N L P start end_ i a Hoff Hrender
                ltac:(lia) Hinv) as (a1 & Hstep & Hinv1).
    cbn [for_each]. rewrite Hstep. apply IH; [lia | lia | exact Hinv1].
Qed.

(** The outcome of a full resolve on rows that the default renderer can
    lay out. *)
Lemma renderRows_spec (s0 : HyperList) (N : Z) (L P : Z -> Z) :
  offsets N L P ->
  _renderRow s0 = default_renderer ->
  renderable N L (_rows s0) ->
  let start := scrollTop (_root s0) - _padding s0 in
  let end_ := scrollTop (_root s0) + clientHeight (_root s0) + _padding s0 in
  exists s1 first last,
    _renderRows s0 = Return s1 tt
    /\ same_settings s1 s0
    /\ geometry N L P (_rows s1)
    /\ (forall j r, row_at (_rows s1) j = Some r -> 0 <= j < N ->
          row_visible r = visible_at P start end_ j)
    /\ _contentLength s1 = Some (P N)
    /\ _window s1 = Some {| win_start := Some start; win_end := Some end_;
                            win_first := first; win_last := last |}
    /\ extremes (visible_at P start end_) N first last.
Proof.
  intros Hoff Hrender Hrows start end_.
  assert (H0 : resolving s0 N L P start end_ 0
                 {| lay_list := s0; lay_len := 0; lay_first := -1;
                    lay_last := -1 |}).
  { split; [repeat split |]. split; [exact Hrows |].
    split; [intros; lia |]. split; [symmetry; apply Hoff |].
    apply extremes_start. }
  destruct Hrows as [Hlen Hrows].
  destruct (render_loop_resolving s0 N L P start end_ (length (_rows s0)) 0 _
              Hoff Hrender ltac:(lia) ltac:(lia) H0)
    as (a & Hloop & Hset & [Hlen' Hrows'] & Hdone & Hsum & Hext).
  unfold _renderRows. fold start end_. rewrite Hloop.
  eexists _, _, _. split; [reflexivity |].
  cbn [_rows with_window with_contentLength _contentLength _window].
  split; [exact Hset |]. split; [| split; [| split; [| split]]].
  - split; [exact Hlen' |]. intros j Hj.
    destruct (Hrows' j Hj) as (r & Hr & Hl & Hnd).
    destruct (Hdone j Hj) as (r' & Hr' & Hs & _).
    rewrite Hr in Hr'. injection Hr' as <-. eauto.
  - intros j r Hr Hj. destruct (Hdone j Hj) as (r' & Hr' & _ & Hv).
    rewrite Hr in Hr'. now injection Hr' as <-.
  - now rewrite Hsum.
  - reflexivity.
  - exact Hext.
Qed.

End FullResolve.

(** ** The window tracker, scrolling forward *)

Section TrackerForward.
Import LibIndex Layout.

Variables (N : Z) (L P : Z -> Z).
Hypothesis Hoff : offsets N L P.
Hypothesis Hpos : positive N L.







(** Changing the visibility flag of one row keeps the geometry. *)
Lemma geometry_set_visible (rows : list (option Row)) (i : Z) (r : Row)
    (v : bool) :
  geometry N L P rows ->
  row_at rows i = Some r ->
  geometry N L P (row_put rows i (set_visible v r)).
Proof.
  intros [Hlen Hrows] Hr. split; [now rewrite length_row_put |].
  intros j Hj. destruct (Z.eq_dec j i) as [-> | Hne].
  - rewrite row_at_put_eq by lia.
    destruct (Hrows i Hj) as (r' & Hr' & H1 & H2 & H3).
    rewrite Hr in Hr'. injection Hr' as <-. eexists. split; [reflexivity |].
    cbn. auto.
  - rewrite row_at_put_ne by lia. now apply Hrows.
Qed.






End TrackerForward.

Section TrackerWindow.
Import LibIndex Layout.

Variables (N : Z) (L P : Z -> Z).
Hypothesis Hoff : offsets N L P.
Hypothesis Hpos : positive N L.



End TrackerWindow.

(** ** Incremental tracking against a full resolve *)

Section TrackerEquivalence.
Import LibIndex Layout.

Lemma offsets_of_rows (rows : list (option Row)) :
  offsets (Z.of_nat (length rows)) (length_at rows) (offset_at rows).
Proof.
  split; [reflexivity |]. intros j Hj. unfold offset_at.
  replace (Z.to_nat (j + 1)) with (S (Z.to_nat j)) by lia.
  cbn [sum_below]. now rewrite Z2Nat.id by lia.
Qed.

Lemma ready_renderable (rows : list (option Row)) :
  ready rows ->
  renderable (Z.of_nat (length rows)) (length_at rows) rows
  /\ positive (Z.of_nat (length rows)) (length_at rows).
Proof.
  intros H. split; [split; [reflexivity |] |].
  - intros j Hj. destruct (H j Hj) as (r & l & Hr & Hl & _ & Hnd).
    exists r. unfold length_at. rewrite Hr. cbn. rewrite Hl. auto.
  - intros j Hj. destruct (H j Hj) as (r & l & Hr & Hl & Hpos & _).
    unfold length_at. rewrite Hr. cbn. now rewrite Hl.
Qed.

Lemma geometry_renderable (N : Z) (L P : Z -> Z) (rows : list (option Row)) :
  geometry N L P rows -> renderable N L rows.
Proof.
  intros [Hlen H]. split; [exact Hlen |]. intros j Hj.
  destruct (H j Hj) as (r & Hr & _ & Hl & Hnd). eauto.
Qed.


End TrackerEquivalence.

Section TrackerExamples.
Import LibIndex Layout.

Lemma ready_Forall (rows : list (option Row)) :
  Forall (fun o => exists r l, o = Some r /\ row_length r = Some l /\ 0 < l
                               /\ is_Some (row_node r)) rows ->
  ready rows.
Proof.
  intros H j Hj. unfold row_at. destruct (j <? 0) eqn:E; [lia |].
  destruct (rows !! Z.to_nat j) as [o |] eqn:Ho.
  - rewrite Forall_lookup in H. destruct (H _ _ Ho) as (r & l & -> & Hr).
    exists r, l. cbn. tauto.
  - apply lookup_ge_None in Ho. lia.
Qed.



(** Two further divergences, outside the amended statement.  When every
    row of the previous window is passed, [_findRow] starts its walk one
    row too far: on the ten-row list scrolled from 0 to 35 the tracker
    answers rows 4 to 6 where a full resolve answers rows 3 to 6. *)
Example tracker_skips_a_row :
  win_first <$> _window (final_state (_refreshWindow (scroll_to 35 Demo.ten_rows)))
  = Some 4
  /\ win_first <$> _window (final_state (_renderRows (scroll_to 35 Demo.ten_rows)))
     = Some 3.
Proof. vm_compute. split; reflexivity. Qed.

(** Scrolling back, the fast path returns as soon as the last row is
    unchanged, and misses the row that enters at the top: the uneven list
    scrolled from 25 to 15 keeps the window [2 .. 2] where a full resolve
    answers [1 .. 2]. *)
Example backward_fast_path_misses_a_row :
  win_first <$> _window (final_state (_refreshWindow (scroll_to 15 Demo.uneven)))
  = Some 2
  /\ win_first <$> _window (final_state (_renderRows (scroll_to 15 Demo.uneven)))
     = Some 1.
Proof. vm_compute. split; reflexivity. Qed.

End TrackerExamples.

(** ** Content length of lib/index.js *)

Section ContentLength.
Import LibIndex Layout.

Lemma for_each_keeps {S : Type} (Q : S -> Prop)
    (body : Z -> S -> outcome S unit) :
  (forall i s, Q s -> Q (final_state (body i s))) ->
  forall n i s, Q s -> Q (final_state (for_each n i body s)).
Proof.
  intros Hbody n. induction n as [| n IH]; intros i s Hs; [exact Hs |].
  cbn [for_each]. specialize (Hbody i s Hs).
  destruct (body i s) as [s' [] | s' e]; simpl in *; [now apply IH | exact Hbody].
Qed.

Lemma total_length_app (l1 l2 : list (option Row)) :
  total_length (l1 ++ l2) = total_length l1 + total_length l2.
Proof.
  unfold total_length. induction l1 as [| o l1 IH]; simpl; [reflexivity |].
  rewrite IH. lia.
Qed.

Lemma measured_lookup (rows : list (option Row)) (i : Z) :
  measured rows ->
  0 <= i < Z.of_nat (length rows) ->
  exists r l, rows !! Z.to_nat i = Some (Some r)
              /\ row_at rows i = Some r /\ row_length r = Some l.
Proof.
  intros H Hi. unfold row_at. destruct (Z.ltb_spec i 0) as [E | E]; [lia |].
  destruct (rows !! Z.to_nat i) as [o |] eqn:Ho.
  - unfold measured in H. rewrite Forall_lookup in H.
    destruct (H _ _ Ho) as (r & l & -> & Hl). exists r, l. auto.
  - apply lookup_ge_None in Ho. lia.
Qed.

(** Rewriting a row without changing its length keeps the total. *)
Lemma total_length_put (rows : list (option Row)) (i : Z) (r r' : Row) :
  row_at rows i = Some r ->
  row_length r' = row_length r ->
  total_length (row_put rows i r') = total_length rows
  /\ (measured rows -> measured (row_put rows i r')).
Proof.
  unfold row_at, row_put. destruct (i <? 0) eqn:E; [discriminate |].
  intros Hr Hl.
  destruct (rows !! Z.to_nat i) as [[r0 |] |] eqn:Ho; try discriminate.
  injection Hr as ->.
  assert (Hlt : (Z.to_nat i < length rows)%nat) by (eapply lookup_lt_Some; eauto).
  rewrite insert_take_drop by exact Hlt. split.
  - rewrite <- (take_drop_middle rows (Z.to_nat i) (Some r) Ho) at 3.
    rewrite !total_length_app. unfold total_length at 2 4. simpl.
    now rewrite Hl.
  - unfold measured. intros H.
    rewrite <- (take_drop_middle rows (Z.to_nat i) (Some r) Ho) in H.
    apply Forall_app in H as [H1 H2]. apply Forall_cons in H2 as [Hx H2].
    apply Forall_app. split; [exact H1 |]. apply Forall_cons. split; [| exact H2].
    destruct Hx as (r1 & l & [= <-] & Hl1). exists r', l.
    split; [reflexivity | congruence].
Qed.

(** On laid-out rows the content length found by the full resolve is the
    sum of the row lengths. *)
Lemma geometry_total (N : Z) (L P : Z -> Z) (rows : list (option Row)) :
  offsets N L P ->
  geometry N L P rows ->
  total_length rows = P N /\ measured rows.
Proof.
  intros [P0 Pstep] [Hlen Hrows].
  assert (Hlook : forall k, (k < length rows)%nat ->
            exists r, rows !! k = Some (Some r)
                      /\ row_length r = Some (L (Z.of_nat k))).
  { intros k Hk. destruct (Hrows (Z.of_nat k) ltac:(lia)) as (r & Hr & _ & Hl & _).
    unfold row_at in Hr.
    destruct (Z.ltb_spec (Z.of_nat k) 0) as [E | E]; [lia |].
    rewrite Nat2Z.id in Hr.
    destruct (rows !! k) as [[r0 |] |]; try discriminate.
    injection Hr as ->. eauto. }
  split.
  - assert (Htake : forall k, (k <= length rows)%nat ->
              total_length (take k rows) = P (Z.of_nat k)).
    { induction k as [| k IH]; intros Hk;
        [change (Z.of_nat 0) with 0; now rewrite P0 |].
      destruct (Hlook k ltac:(lia)) as (r & Hr & Hl).
      rewrite (take_S_r _ _ _ Hr), total_length_app, IH by lia.
      unfold total_length at 1. simpl. rewrite Hl. simpl.
      replace (Z.of_nat (S k)) with (Z.of_nat k + 1) by lia.
      rewrite Pstep by lia. lia. }
    rewrite <- (firstn_all rows) at 1. rewrite Htake by lia. now rewrite Hlen.
  - unfold measured. apply Forall_lookup. intros k o Ho.
    destruct (Hlook k ltac:(eapply lookup_lt_Some; eauto)) as (r & Hr & Hl).
    rewrite Ho in Hr. injection Hr as ->. eauto.
Qed.

Lemma renderRows_content (s0 : HyperList) (N : Z) (L : Z -> Z) :
  _renderRow s0 = default_renderer ->
  renderable N L (_rows s0) ->
  exists s1, _renderRows s0 = Return s1 tt /\ content_invariant s1.
Proof.
  intros Hrender Hrows.
  assert (HN : N = Z.of_nat (length (_rows s0))) by (destruct Hrows; lia).
  assert (HL : renderable N (length_at (_rows s0)) (_rows s0)).
  { destruct Hrows as [Hlen Hrows]. split; [exact Hlen |]. intros j Hj.
    destruct (Hrows j Hj) as (r & Hr & Hl & Hnd). exists r.
    unfold length_at. rewrite Hr. cbn. rewrite Hl. auto. }
  pose proof (offsets_of_rows (_rows s0)) as Hoff. rewrite <- HN in Hoff.
  destruct (renderRows_spec s0 N _ _ Hoff Hrender HL)
    as (s1 & f & l & H1 & _ & Hgeo & _ & Hlen & _).
  exists s1. split; [exact H1 |].
  destruct (geometry_total _ _ _ _ Hoff Hgeo) as [Htotal Hm].
  split; [exact Hm | now rewrite Htotal].
Qed.

Lemma append_content (row : Row) (s s' : HyperList) (w : Window) :
  content_invariant s ->
  _window s = Some w ->
  append row s = Return s' tt ->
  content_invariant s'.
Proof.
  intros [Hm Hc] Hw. unfold append.
  destruct (match row_length row with
            | Some l => Some l
            | None => if itruthy (_rowLength s) then _rowLength s else None
            end) as [l |]; [| discriminate].
  cbn [_window with_rows _rows _contentLength]. rewrite Hw.
  cbn [row_node set_visible set_start set_length].
  destruct (row_node row) as [nd |]; [| discriminate].
  intros [= <-].
  cbn [_rows _contentLength with_contentLength with_root with_rows].
  assert (Hput : row_put (_rows s ++ [Some (set_length (Some l) row)])
                   (Z.of_nat (length (_rows s)))
                   (set_visible (ilt (_contentLength s) (win_end w))
                      (set_start (_contentLength s) (set_length (Some l) row)))
                 = _rows s
                   ++ [Some (set_visible (ilt (_contentLength s) (win_end w))
                               (set_start (_contentLength s)
                                  (set_length (Some l) row)))]).
  { unfold row_put.
    destruct (Z.ltb_spec (Z.of_nat (length (_rows s))) 0) as [E | E]; [lia |].
    rewrite Nat2Z.id. rewrite insert_app_r_alt by lia.
    now replace (length (_rows s) - length (_rows s))%nat with O by lia. }
  rewrite Hput. split.
  - cbn [_rows _contentLength with_contentLength with_root with_rows].
    apply Forall_app. split; [exact Hm |]. apply Forall_cons. split; [| constructor].
    eexists _, l. split; reflexivity.
  - cbn [_rows _contentLength with_contentLength with_root with_rows].
    rewrite total_length_app, Hc. cbn [iadd]. f_equal.
    unfold total_length at 3. simpl. lia.
Qed.

Lemma detach_loop_spec (rows : list (option Row)) (n : nat) (i : Z)
    (s : HyperList) (acc : Z) :
  _rows s = rows ->
  measured rows ->
  0 <= i -> i + Z.of_nat n <= Z.of_nat (length rows) ->
  match for_each n i detach_step (s, Some acc) with
  | Return (s', len) _ =>
      _rows s' = rows /\ _contentLength s' = _contentLength s
      /\ _window s' = _window s
      /\ len = Some (acc + total_length (take n (drop (Z.to_nat i) rows)))
  | Throw (s', _) _ =>
      _rows s' = rows /\ _contentLength s' = _contentLength s
  end.
Proof.
  intros Hrows Hm. revert i s acc Hrows.
  induction n as [| n IH]; intros i s acc Hrows Hi Hn.
  - simpl. repeat split; try assumption. f_equal. unfold total_length. simpl. lia.
  - destruct (measured_lookup rows i Hm ltac:(lia)) as (r & l & Hlook & Hr & Hl).
    cbn [for_each]. unfold detach_step at 1. cbn [fst snd]. rewrite Hrows, Hr.
    unfold removeChild.
    destruct (row_node r) as [nd |]; [| split; [exact Hrows | reflexivity]].
    destruct (bool_decide (nd ∈ children (_root s)));
      [| split; [exact Hrows | reflexivity]].
    rewrite Hl. cbn [iadd].
    specialize (IH (i + 1)
                   (with_root (set_children
                                 (filter (fun m => m <> nd) (children (_root s)))
                                 (_root s)) s)
                   (acc + l) Hrows ltac:(lia) ltac:(lia)).
    destruct (for_each n (i + 1) detach_step _) as [[s' len] [] | [s' len] e];
      [| exact IH].
    destruct IH as (H1 & H2 & H3 & H4).
    repeat split; try assumption.
    rewrite H4. f_equal.
    rewrite (drop_S _ _ _ Hlook). cbn [take].
    replace (Z.to_nat (i + 1)) with (S (Z.to_nat i)) by lia.
    unfold total_length at 2. simpl. rewrite Hl. simpl.
    fold (total_length (take n (drop (S (Z.to_nat i)) rows))). lia.
Qed.

Lemma shift_step_content (len : inum) (i : Z) (s : HyperList) :
  content_invariant s ->
  content_invariant (final_state (shift_step len i s)).
Proof.
  intros [Hm Hc]. unfold shift_step.
  destruct (row_at (_rows s) i) as [r |] eqn:Hr; [| split; assumption].
  unfold content_invariant.
  cbn [final_state _rows _contentLength with_rows].
  destruct (total_length_put (_rows s) i r (set_start (isub (row_start r) len) r)
              Hr eq_refl) as [Ht Hm'].
  split; [now apply Hm' | now rewrite Ht].
Qed.

(** Removing the rows [lo .. hi] keeps the content length equal to the
    sum of the remaining lengths, whatever the outcome of the call. *)
Lemma removeRows_content (lo hi : Z) (s : HyperList) :
  content_invariant s ->
  0 <= lo -> lo <= hi -> hi < Z.of_nat (length (_rows s)) ->
  content_invariant (final_state (_removeRows lo hi s)).
Proof.
  intros [Hm Hc] Hlo Hlh Hhi. unfold _removeRows.
  set (n := S (Z.to_nat (hi - lo))).
  pose proof (detach_loop_spec (_rows s) n lo s 0 eq_refl Hm Hlo ltac:(lia))
    as Hloop.
  destruct (for_each n lo detach_step (s, Some 0)) as [[s1 len] [] | [s1 len] e].
  2: { destruct Hloop as [H1 H2]. simpl. split; [now rewrite H1 |].
       now rewrite H1, H2. }
  destruct Hloop as (H1 & H2 & H3 & ->).
  set (removed := total_length (take n (drop (Z.to_nat lo) (_rows s)))).
  assert (Hsplice : splice (_rows s) lo (1 + hi - lo)
                    = take (Z.to_nat lo) (_rows s)
                      ++ drop (Z.to_nat lo + n) (_rows s)).
  { unfold splice. destruct (Z.ltb_spec lo 0) as [E | E]; [lia |].
    f_equal; f_equal; lia. }
  assert (Hsplit : total_length (_rows s)
                   = total_length (take (Z.to_nat lo) (_rows s)) + removed
                     + total_length (drop (Z.to_nat lo + n) (_rows s))).
  { rewrite <- (take_drop (Z.to_nat lo) (_rows s)) at 1.
    rewrite total_length_app.
    rewrite <- (take_drop n (drop (Z.to_nat lo) (_rows s))) at 1.
    rewrite total_length_app, drop_drop. unfold removed. lia. }
  assert (Hinv : content_invariant
                   (with_rows (splice (_rows s1) lo (1 + hi - lo))
                      (with_contentLength
                         (isub (_contentLength s1) (Some (0 + removed))) s1))).
  { split; cbn [_rows _contentLength with_rows with_contentLength].
    - rewrite H1, Hsplice. unfold measured in *.
      apply Forall_app. split; [now apply Forall_take | now apply Forall_drop].
    - rewrite H1, H2, Hc, Hsplice, total_length_app. cbn [isub]. f_equal. lia. }
  cbv zeta.
  match goal with
  | |- content_invariant (final_state (bind ?m ?k)) =>
      assert (Hshift : content_invariant (final_state m))
  end.
  { destruct (hi <? _); [| exact Hinv].
    apply for_each_keeps; [| exact Hinv].
    intros j t. apply shift_step_content. }
  match goal with
  | |- content_invariant (final_state (bind ?m ?k)) =>
      destruct m as [s2 [] | s2 e]; [| exact Hshift]
  end.
  cbn [bind final_state] in *.
  destruct (_window s2) as [w |]; [| exact Hshift].
  destruct (ile (win_start w) (Some hi) && ige (win_end w) (Some lo));
    [| exact Hshift].
  cbn [final_state].
  match goal with
  | |- content_invariant (if ?c then _ else _) => destruct c
  end; exact Hshift.
Qed.

End ContentLength.


(** ** Row removal in lib/index.js *)

Section RowRemoval.
Import LibIndex Layout.

(** C5: [_removeRows] does not keep the contract of row removal.  In a
    list of a hundred rows of 10 pixels whose window is rows 3 to 12
    (offsets 30 to 130), [_removeRows(5, 9)] returns normally; the five
    rows are spliced out and the content length drops by 50, but the six
    rows that followed the removed range keep their old starts 100 to 150
    (the shift starts at the seventh), the rows that moved into the
    viewport stay hidden, and the window is left as it was: its [first]
    and [last] are never touched, because the test compares the offsets
    [start] and [end] of the window with the row indices, and no resolve
    follows.  When that test passes, as for [_removeRows(1, 1)] in a list
    whose window starts at offset 0, the call ends in a TypeError, the
    method [_renderVisible] it calls being nowhere defined. *)
Theorem C5_removeRows_divergence :
  let starts (s : HyperList) := (fun o => o ≫= row_start) <$> _rows s in
  let shown (s : HyperList) :=
    (fun o : option Row => default false (row_visible <$> o)) <$> _rows s in
  _window Demo.hundred
  = Some {| win_start := Some 30; win_end := Some 130;
            win_first := 3; win_last := 12 |}
  /\ (exists s',
        _removeRows 5 9 Demo.hundred = Return s' tt
        /\ length (_rows s') = 95%nat
        /\ length (children (_root s')) = 95%nat
        /\ _contentLength s' = Some 950
        /\ take 8 (drop 3 (starts s'))
           = [Some 30; Some 40; Some 100; Some 110; Some 120; Some 130;
              Some 140; Some 150]
        /\ take 3 (drop 11 (starts s')) = [Some 110; Some 120; Some 130]
        /\ take 10 (drop 3 (shown s'))
           = [true; true; true; true; true; false; false; false; false; false]
        /\ _window s' = _window Demo.hundred
        /\ exists s'',
             _renderRows s' = Return s'' tt
             /\ take 8 (drop 3 (starts s''))
                = [Some 30; Some 40; Some 50; Some 60; Some 70; Some 80;
                   Some 90; Some 100])
  /\ (_window Demo.ten_rows
      = Some {| win_start := Some 0; win_end := Some 30;
                win_first := 0; win_last := 2 |}
      /\ exists s',
           _removeRows 1 1 Demo.ten_rows
           = Throw s' (TypeError "this._renderVisible is not a function")
           /\ starts s'
              = [Some 0; Some 20; Some 30; Some 30; Some 40; Some 50;
                 Some 60; Some 70; Some 80]
           /\ _window s' = _window Demo.ten_rows).
Proof.
  cbv zeta. split; [reflexivity |]. split.
  - exists (final_state (_removeRows 5 9 Demo.hundred)).
    split; [vm_compute; reflexivity |].
    do 7 (split; [vm_compute; reflexivity |]).
    exists (final_state (_renderRows (final_state (_removeRows 5 9 Demo.hundred)))).
    split; vm_compute; reflexivity.
  - split; [reflexivity |].
    exists (final_state (_removeRows 1 1 Demo.ten_rows)).
    split; [vm_compute; reflexivity |].
    split; vm_compute; reflexivity.
Qed.

End RowRemoval.


(** ** The prefix-sum relation of the position tables *)

Section PrefixSums.
Import Chunk Relations Layout.

Lemma renderable_own_lengths (N : Z) (L : Z -> Z)
    (rows : list (option LibIndex.Row)) :
  renderable N L rows -> renderable N (length_at rows) rows.
Proof.
  intros [Hlen Hrows]. split; [exact Hlen |]. intros j Hj.
  destruct (Hrows j Hj) as (r & Hr & Hl & Hnd). exists r.
  unfold length_at. rewrite Hr. cbn. rewrite Hl. auto.
Qed.




End PrefixSums.


Section PrefixSumExamples.
Import Chunk Relations Layout.



(** Outside the amended statement: the forward loop of
    [_computePositions] in part_001 starts at index 1, where part_000 and
    the reverse branch assign [position[0]].  The reverse-mode list above,
    switched to forward mode by [refresh], keeps 50 as [position[0]]. *)
Example forward_after_reverse :
  Part001.refresh None (Some (Demo.options 3 10 false)) Demo.reversed
  = Return Demo.reversed_then_forward tt
  /\ reverse (_config Demo.reversed_then_forward) = false
  /\ _itemPositions Demo.reversed_then_forward
     = Some [Some (of_Z 50); Some (of_Z 60); Some (of_Z 70)]
  /\ ~ origin_invariant Demo.reversed_then_forward.
Proof.
  split; [vm_compute; reflexivity |].
  split; [vm_compute; reflexivity |].
  split; [vm_compute; reflexivity |].
  intros (_ & ps & Hp & H0). vm_compute in Hp. injection Hp as <-.
  vm_compute in H0. discriminate H0.
Qed.

End PrefixSumExamples.


(** ** The total extent *)

Section TotalExtent.
Import Chunk Relations Layout.

Lemma whole_rows_Forall (bound : Z) (rows : list (option LibIndex.Row)) :
  Forall (fun o => forall r l, o = Some r -> LibIndex.row_length r = Some l ->
                               0 <= l) rows ->
  total_length rows <= bound ->
  Exact.whole_rows bound rows.
Proof.
  intros Hall Hsum. split; [| exact Hsum]. intros j r l Hr Hl.
  unfold LibIndex.row_at in Hr. destruct (j <? 0); [discriminate |].
  destruct (rows !! Z.to_nat j) as [o |] eqn:E; [| discriminate].
  rewrite Forall_lookup in Hall. exact (Hall _ _ E r l Hr Hl).
Qed.

(** C3, as amended: the total extent is the sum of the row lengths.  In
    part_001 a [refresh] that returns leaves the scroll height equal to
    the sum of the height table, taken by the same [reduce], and [_getRow]
    (with the length change a generator may report) and a frame of the
    render loop keep it so, whatever their outcome.  In part_000 [_getRow]
    adds the difference of the lengths to the scroll height; on a table of
    whole heights, with a generator that reports a whole height for the
    row, this keeps the scroll height equal to the sum.  In lib/index.js,
    on rows of whole lengths: with the default renderer on rows that all
    have a node and a numeric length the full resolve returns and sets the
    content length to the sum of the row lengths; [append], when it
    returns on a list that has a window, has added the length of the new
    row; and [_removeRows] subtracts the lengths of the rows it splices
    out, whatever its outcome. *)
Theorem C3_total_extent :
  (forall element newConfig s s',
      Part001.refresh element newConfig s = Return s' tt ->
      extent_invariant s')
  /\ (forall i s, 0 <= i -> extent_invariant s ->
        extent_invariant (final_state (Part001._getRow i s)))
  /\ (forall s, extent_invariant s ->
        extent_invariant (final_state (Part001.render s)))
  /\ (forall i s hs gen,
        0 <= i < Z.of_nat (length hs) ->
        _itemHeights s = Some hs ->
        generate (_config s) = Function gen ->
        Exact.whole_table (2 ^ 52) hs ->
        (forall element h, gen i = GenSized element h -> isNumber h = true ->
           Exact.whole (2 ^ 52) h) ->
        extent_same s ->
        extent_same (final_state (Part000._getRow i s)))
  /\ (forall s0 N L,
        LibIndex._renderRow s0 = LibIndex.default_renderer ->
        renderable N L (LibIndex._rows s0) ->
        Exact.whole_rows Exact.exact_limit (LibIndex._rows s0) ->
        exists s1, LibIndex._renderRows s0 = Return s1 tt
                   /\ content_invariant s1)
  /\ (forall row s s' w,
        content_invariant s -> LibIndex._window s = Some w ->
        LibIndex.append row s = Return s' tt ->
        Exact.whole_rows Exact.exact_limit (LibIndex._rows s') ->
        content_invariant s')
  /\ (forall lo hi s,
        content_invariant s ->
        Exact.whole_rows Exact.exact_limit (LibIndex._rows s) ->
        0 <= lo -> lo <= hi -> hi < Z.of_nat (length (LibIndex._rows s)) ->
        content_invariant (final_state (LibIndex._removeRows lo hi s))).
Proof.
  destruct extent_invariant_stable as (S1 & S2 & S3).
  split.
  { intros element newConfig s s' H.
    exact (proj2 (refresh_invariants element newConfig s s' H)). }
  split.
  { intros i s Hi H.
    apply (getRow_keeps extent_invariant); try assumption.
    intros; now apply extent_invariant_update. }
  split.
  { intros s H.
    apply (render_keeps extent_invariant); try assumption.
    intros; now apply extent_invariant_update. }
  split.
  { intros i s hs gen Hi Hh _ [Hwhole _] _ Hs.
    destruct (lookup_lt_is_Some_2 hs (Z.to_nat i) ltac:(lia)) as [e He].
    rewrite Forall_lookup in Hwhole.
    destruct (Hwhole _ _ He) as (z & -> & _).
    apply (extent_same_getRow0 i s hs (inject_Z z)); try assumption; lia. }
  split; [intros s0 N L Hr Hrows _; now apply (renderRows_content s0 N L) |].
  split.
  { intros row s s' w Hc Hw Happ _. exact (append_content row s s' w Hc Hw Happ). }
  intros lo hi s Hc _. now apply removeRows_content.
Qed.

End TotalExtent.

Section TotalExtentExamples.
Import Chunk Relations Layout.

Lemma C3_total_extent_witness :
  extent_invariant
    (final_state
       (Part001.refresh None (Some (Demo.options 10 100 false)) Demo.ten))
  /\ content_invariant
       (final_state (LibIndex._removeRows 1 2 Demo.ten_rows_at_50)).
Proof.
  destruct C3_total_extent as (H1 & _ & _ & _ & _ & _ & H7). split.
  - apply (H1 None (Some (Demo.options 10 100 false)) Demo.ten).
    vm_compute. reflexivity.
  - apply (H7 1 2 Demo.ten_rows_at_50); [| | lia | lia | simpl; lia].
    + split; [| reflexivity].
      cbv [Demo.ten_rows_at_50 LibIndex._rows measured].
      repeat (apply List.Forall_cons;
              [eexists _, _; split; reflexivity |]).
      apply List.Forall_nil.
    + apply whole_rows_Forall; [| vm_compute; discriminate].
      cbv [Demo.ten_rows_at_50 LibIndex._rows].
      repeat (apply List.Forall_cons;
              [intros r l [= <-] [= <-]; lia |]).
      apply List.Forall_nil.
Defined.

(** A row of 10 pixels appended to a new list: until the first frame the
    list has no window, and [append] stores the row without adding its
    length to the content length, which stays 0. *)
Lemma C3_append_before_render_counterexample :
  LibIndex.append (Demo.row 0 10)
    (LibIndex.construct (Demo.viewport 0 100) None None (Some 0))
  = Return Demo.one_pending tt
  /\ LibIndex._window Demo.one_pending = None
  /\ LibIndex._contentLength Demo.one_pending = Some 0
  /\ total_length (LibIndex._rows Demo.one_pending) = 10
  /\ ~ content_invariant Demo.one_pending.
Proof.
  split; [vm_compute; reflexivity |].
  split; [reflexivity |]. split; [reflexivity |]. split; [reflexivity |].
  intros [_ H]. vm_compute in H. discriminate H.
Qed.

End TotalExtentExamples.


(** * Further properties of the code *)

(** ** The searches for the first row of a chunk *)

Section ChunkSearch.
Import Chunk.

Lemma scan_from_spec (positions : array) (y : num) (i : Z) :
  let r := fst (Part001.scan_from positions y i) in
  i <= r <= i + Z.of_nat (length positions)
  /\ (forall k, i <= k < r ->
        exists p, positions !! Z.to_nat (k - i) = Some (Some p)
                  /\ nlt p y = true)
  /\ (forall p, positions !! Z.to_nat (r - i) = Some (Some p) ->
        nlt p y = false).
Proof.
  cbv zeta. revert i.
  induction positions as [| e rest IH]; intros i.
  - simpl. split; [lia |]. split; [intros k Hk; lia |].
    intros p Hp. discriminate Hp.
  - destruct e as [p |]; cbn [Part001.scan_from].
    + destruct (nlt p y) eqn:Hlt.
      * specialize (IH (i + 1)).
        destruct (Part001.scan_from rest y (i + 1)) as [r reads].
        cbn [fst] in *. destruct IH as (Hr & Hbelow & Hstop).
        split; [simpl; lia |]. split.
        -- intros k Hk. destruct (Z.eq_dec k i) as [-> | Hne].
           ++ exists p. rewrite Z.sub_diag. split; [reflexivity | exact Hlt].
           ++ destruct (Hbelow k ltac:(lia)) as (q & Hq & Hqy).
              exists q. split; [| exact Hqy].
              replace (Z.to_nat (k - i)) with (S (Z.to_nat (k - (i + 1))))
                by lia.
              exact Hq.
        -- intros q Hq. apply Hstop.
           replace (Z.to_nat (r - i)) with (S (Z.to_nat (r - (i + 1)))) in Hq
             by lia.
           exact Hq.
      * cbn [fst]. split; [simpl; lia |]. split; [intros k Hk; lia |].
        rewrite Z.sub_diag. intros q [= <-]. exact Hlt.
    + cbn [fst]. split; [simpl; lia |]. split; [intros k Hk; lia |].
      rewrite Z.sub_diag. intros q Hq. discriminate Hq.
Qed.

Lemma scan_reverse_spec (positions : array) (bound : num) (i : nat) :
  let r := fst (Part001.scan_reverse positions bound i) in
  0 <= r <= Z.of_nat i
  /\ (forall k, r < k <= Z.of_nat i -> nlt (aget positions k) bound = true)
  /\ (0 < r -> nlt (aget positions r) bound = false).
Proof.
  cbv zeta. induction i as [| i IH].
  - simpl. split; [lia |]. split; [intros k Hk; lia | lia].
  - cbn [Part001.scan_reverse].
    destruct (nlt (aget positions (Z.of_nat (S i))) bound) eqn:Hlt.
    + destruct (Part001.scan_reverse positions bound i) as [r reads].
      cbn [fst] in *. destruct IH as (Hr & Habove & Hstop).
      split; [lia |]. split; [| exact Hstop].
      intros k Hk. destruct (Z.eq_dec k (Z.of_nat (S i))) as [-> | Hne];
        [exact Hlt | apply Habove; lia].
    + cbn [fst]. split; [lia |]. split; [intros k Hk; lia |].
      intros _. exact Hlt.
Qed.

(** X1: [_getFrom] (part_000 and part_001) returns the first index whose
    stored position is not below the scroll coordinate: every index before
    it holds a number below the coordinate, and the position read at the
    index itself is not below it, be it a number, a hole or the slot one
    past the end of the table.  The search always ends, at the latest one
    past the end, and changes nothing. *)
Theorem getFrom_first_not_below (s : HyperList) (y : num)
    (positions : array) :
  _itemPositions s = Some positions ->
  exists r,
    Part001._getFrom y s = Return s r
    /\ Part000._getFrom y s = Return s r
    /\ 0 <= r <= Z.of_nat (length positions)
    /\ (forall k, 0 <= k < r -> nlt (aget positions k) y = true)
    /\ nlt (aget positions r) y = false.
Proof.
  intros Hp. unfold Part001._getFrom, Part000._getFrom. rewrite Hp.
  destruct (scan_from_spec positions y 0) as (Hr & Hbelow & Hstop).
  eexists. split; [reflexivity |]. split; [reflexivity |].
  split; [lia |]. split.
  - intros k Hk. destruct (Hbelow k Hk) as (p & Hk' & Hlt).
    unfold aget. destruct (Z.ltb_spec k 0); [lia |].
    rewrite Z.sub_0_r in Hk'. now rewrite Hk'.
  - unfold aget.
    destruct (Z.ltb_spec (fst (Part001.scan_from positions y 0)) 0); [lia |].
    rewrite Z.sub_0_r in Hstop.
    destruct (positions !! Z.to_nat (fst (Part001.scan_from positions y 0)))
      as [[p |] |] eqn:E; try reflexivity.
    now apply Hstop.
Qed.

(** On the fifty rows of 20 pixels, the search at the offset 100 answers
    the row 5, which starts there. *)
Lemma getFrom_first_not_below_witness :
  exists r,
    Part001._getFrom (of_Z 100) Demo.fifty = Return Demo.fifty r
    /\ nlt (aget (default [] (_itemPositions Demo.fifty)) r) (of_Z 100) = false
    /\ r = 5.
Proof.
  destruct (getFrom_first_not_below Demo.fifty (of_Z 100)
              (default [] (_itemPositions Demo.fifty)) eq_refl)
    as (r & H1 & _ & _ & _ & H5).
  exists r. split; [exact H1 |]. split; [exact H5 |].
  vm_compute in H1. now injection H1 as <-.
Defined.

(** X2: with a row count [n] and a position table, [_getReverseFrom]
    returns [n - 1] without reading the table when [n <= 1]; otherwise it
    walks down from [n - 1] and returns the largest index [r] such that
    [r] is 0 or the position at [r] is not below the far edge of the
    viewport, [scrollTop + containerSize]: every index above [r] holds a
    position below that edge. *)
Theorem getReverseFrom_last_not_below (s : HyperList) (y : num) (n : Z)
    (positions : array) :
  itemCount (_config s) = Count n ->
  _itemPositions s = Some positions ->
  let edge := nadd y (_containerSize s) in
  exists r,
    Part001._getReverseFrom y s = Return s (Some r)
    /\ (n <= 1 -> r = n - 1)
    /\ (1 <= n ->
        0 <= r <= n - 1
        /\ (forall k, r < k <= n - 1 -> nlt (aget positions k) edge = true)
        /\ (0 < r -> nlt (aget positions r) edge = false)).
Proof.
  intros Hn Hp. cbv zeta. unfold Part001._getReverseFrom. rewrite Hn, Hp.
  destruct (Z.leb_spec (n - 1) 0) as [Hle | Hgt].
  - exists (n - 1). split; [reflexivity |]. split; [reflexivity |].
    intros H1. split; [lia |]. split; [intros k Hk; lia | lia].
  - destruct (scan_reverse_spec positions (nadd y (_containerSize s))
                (Z.to_nat (n - 1))) as (Hr & Habove & Hstop).
    eexists. split; [reflexivity |]. split; [lia |].
    intros _. split; [lia |]. split; [| exact Hstop].
    intros k Hk. apply Habove. lia.
Qed.

(** The reverse list of three rows (positions 50, 30, 0) in a viewport of
    100 scrolled to 0: no position reaches the far edge 100, and the
    search goes down to 0. *)
Lemma getReverseFrom_last_not_below_witness :
  exists r,
    Part001._getReverseFrom (of_Z 0) Demo.reversed
    = Return Demo.reversed (Some r)
    /\ 0 <= r <= 2
    /\ r = 0.
Proof.
  destruct (getReverseFrom_last_not_below Demo.reversed (of_Z 0) 3
              (default [] (_itemPositions Demo.reversed)) eq_refl eq_refl)
    as (r & H1 & _ & H3).
  exists r. split; [exact H1 |]. split; [apply H3; lia |].
  vm_compute in H1. now injection H1 as <-.
Defined.

End ChunkSearch.


(** ** Chunks of a generator that returns element nodes *)

Section ChunkRows.
Import Chunk.

Variables (gen : Z -> generated) (f : Z -> node).
Hypothesis gen_nodes : forall i, gen i = GenNode (f i).

Lemma getRow_node (i : Z) (s : HyperList) :
  generate (_config s) = Function gen ->
  is_Some (_itemHeights s) -> is_Some (_itemPositions s) ->
  Part001._getRow i s = Return s (f i)
  /\ Part000._getRow i s = Return s (f i).
Proof.
  intros Hg [hs Hh] [ps Hp].
  unfold Part001._getRow, Part000._getRow, Part001.read_heights,
    Part001.read_positions.
  rewrite Hg, gen_nodes, Hh. cbn [bind]. rewrite Hp. split; reflexivity.
Qed.

Lemma row_loop_nodes (m : nat) (i : Z) (s : HyperList) (acc : list node) :
  generate (_config s) = Function gen ->
  is_Some (_itemHeights s) -> is_Some (_itemPositions s) ->
  for_each m i Part001.row_step (s, acc)
  = Return (s, acc ++ (f <$> seqZ i (Z.of_nat m))) tt
  /\ for_each m i Part000.row_step (s, acc)
     = Return (s, acc ++ (f <$> seqZ i (Z.of_nat m))) tt.
Proof.
  intros Hg Hh Hp. revert i acc.
  induction m as [| m IH]; intros i acc.
  - simpl. rewrite app_nil_r. split; reflexivity.
  - cbn [for_each]. unfold Part001.row_step at 1, Part000.row_step at 1.
    cbn [fst snd].
    destruct (getRow_node i s Hg Hh Hp) as [-> ->].
    destruct (IH (i + 1) (acc ++ [f i])) as [-> ->].
    rewrite (seqZ_cons i (Z.of_nat (S m))) by lia.
    replace (Z.pred (Z.of_nat (S m))) with (Z.of_nat m) by lia.
    change (Z.succ i) with (i + 1).
    rewrite fmap_cons, <- app_assoc. split; reflexivity.
Qed.

(** The loop bound of a chunk is a number of rows that stays inside the
    list. *)
Lemma rows_count_inside (z n : Z) (s : HyperList) :
  itemCount (_config s) = Count n ->
  exists m, Part001.rows_count (Some z) (Part001.clamp_to (Some z) s) = Some m
            /\ (m = 0%nat \/ z + Z.of_nat m <= n).
Proof.
  intros Hn.
  pose proof (clamp_to_le_count (Some z) s) as Hle. rewrite Hn in Hle.
  destruct (Part001.clamp_to (Some z) s) as [q | | |]; cbn [Part001.rows_count].
  - eexists. split; [reflexivity |].
    assert (Hq : (q <= inject_Z n)%Q).
    { apply Qnot_lt_le. intros Hlt.
      unfold ngt, nlt, ncmp, count_num, of_Z in Hle.
      unfold Qcompare in Hle. unfold Qlt, Z.lt in Hlt.
      now rewrite Hlt in Hle. }
    apply Qceiling_resp_le in Hq. rewrite Qceiling_Z in Hq. lia.
  - discriminate Hle.
  - exists O. auto.
  - exists O. auto.
Qed.

Lemma render_from_nodes (force : bool) (z0 n : Z) (s : HyperList) :
  generate (_config s) = Function gen ->
  is_Some (_itemHeights s) -> is_Some (_itemPositions s) ->
  itemCount (_config s) = Count n ->
  exists z m,
    Part001.clamp_from (Some z0) s = Some z
    /\ 0 <= z /\ (m = 0%nat \/ z + Z.of_nat m <= n)
    /\ Part001.render_from force (Some z0) s
       = (if negb force && nseq (_lastFrom s) (of_Z z) then Return s false
          else Return (with_children (f <$> seqZ z (Z.of_nat m))
                         (with_lastFrom (of_Z z) s)) true)
    /\ Part000.render_from force z0 s
       = Part001.render_from force (Some z0) s.
Proof.
  intros Hg Hh Hp Hn.
  assert (Hz : exists z, Part001.clamp_from (Some z0) s = Some z).
  { unfold Part001.clamp_from. destruct (_ || _); eauto. }
  destruct Hz as [z Hz].
  pose proof (clamp_from_nonneg _ _ _ Hz) as Hz0.
  destruct (rows_count_inside z n s Hn) as (m & Hm & Hin).
  exists z, m. split; [exact Hz |]. split; [exact Hz0 |].
  split; [exact Hin |].
  unfold Part001.render_from, Part000.render_from. rewrite Hz.
  cbn [Part001.index_num default].
  destruct (negb force && nseq (_lastFrom s) (of_Z z));
    [split; reflexivity |].
  rewrite clamp_to_lastFrom, Hm. unfold id.
  destruct (row_loop_nodes m z (with_lastFrom (of_Z z) s) [] Hg Hh Hp)
    as [-> ->].
  split; reflexivity.
Qed.

(** The index handed to the clamping by [_renderChunk]; it only depends
    on the configuration, the positions and the container. *)
Lemma renderChunk_start (s : HyperList) (n : Z) :
  is_Some (_itemPositions s) ->
  itemCount (_config s) = Count n ->
  exists z0,
    forall force c v,
      Part001._renderChunk force (with_children c (with_lastFrom v s))
      = Part001.render_from force (Some z0)
          (with_children c (with_lastFrom v s))
      /\ Part001._renderChunk force s = Part001.render_from force (Some z0) s
      /\ (reverse (_config s) = false ->
          overrideScrollPosition (_config s) = None ->
          Part000._renderChunk force s = Part000.render_from force z0 s).
Proof.
  intros [ps Hp] Hn.
  unfold Part001._renderChunk, Part000._renderChunk, Part001._getReverseFrom,
    Part001._getFrom, Part000._getFrom, Part001._getScrollPosition.
  cbn [_config _itemPositions _containerSize _element with_children
       with_lastFrom].
  rewrite Hn, Hp.
  destruct (reverse (_config s)).
  - destruct (n - 1 <=? 0); cbn [bind]; eexists; intros force c v;
      (split; [reflexivity |]); (split; [reflexivity |]); discriminate.
  - cbn [bind]. eexists. intros force c v.
    split; [reflexivity |]. split; [reflexivity |].
    intros _ ->. reflexivity.
Qed.

(** X3: with a generator that answers an element node for every index,
    [_renderChunk] of part_001 never throws on an instance that has its
    tables and a row count [n].  Either it returns [false] and leaves the
    instance as it was, which only happens when it is not forced and the
    first row of the chunk is the one of the previous chunk; or it attaches
    the nodes of [m] consecutive rows starting at a row [z], in ascending
    order and all inside the list, records [z] in [_lastFrom] and changes
    nothing else.  In forward mode without an override of the scroll
    position, part_000 does the same. *)
Theorem renderChunk_rows (force : bool) (s : HyperList) (n : Z) :
  generate (_config s) = Function gen ->
  is_Some (_itemHeights s) -> is_Some (_itemPositions s) ->
  itemCount (_config s) = Count n ->
  exists z m,
    0 <= z /\ (m = 0%nat \/ z + Z.of_nat m <= n)
    /\ Part001._renderChunk force s
       = (if negb force && nseq (_lastFrom s) (of_Z z) then Return s false
          else Return (with_children (f <$> seqZ z (Z.of_nat m))
                         (with_lastFrom (of_Z z) s)) true)
    /\ (reverse (_config s) = false ->
        overrideScrollPosition (_config s) = None ->
        Part000._renderChunk force s = Part001._renderChunk force s).
Proof.
  intros Hg Hh Hp Hn.
  destruct (renderChunk_start s n Hp Hn) as [z0 Hstart].
  destruct (Hstart force [] NaN) as (_ & H1 & H0).
  destruct (render_from_nodes force z0 n s Hg Hh Hp Hn)
    as (z & m & _ & Hz & Hm & Hrender & Hsame).
  exists z, m. split; [exact Hz |]. split; [exact Hm |].
  split; [now rewrite H1 |].
  intros Hrev Hover. now rewrite H0, H1.
Qed.

(** X4: with such a generator, a call of [_renderChunk] that is not
    forced and follows another call at the same scroll position renders
    nothing: it returns [false] and leaves the instance as the first call
    left it. *)
Theorem renderChunk_repeat (force : bool) (s s' : HyperList) (n : Z)
    (b : bool) :
  generate (_config s) = Function gen ->
  is_Some (_itemHeights s) -> is_Some (_itemPositions s) ->
  itemCount (_config s) = Count n ->
  Part001._renderChunk force s = Return s' b ->
  Part001._renderChunk false s' = Return s' false.
Proof.
  intros Hg Hh Hp Hn Hrun.
  destruct (renderChunk_start s n Hp Hn) as [z0 Hstart].
  destruct (render_from_nodes force z0 n s Hg Hh Hp Hn)
    as (z & m & Hclamp & Hz & _ & Hrender & _).
  destruct (Hstart force [] NaN) as (_ & H1 & _).
  rewrite H1, Hrender in Hrun.
  assert (Hsame : nseq (of_Z z) (of_Z z) = true).
  { unfold nseq. rewrite ncmp_of_Z, Z.compare_refl. reflexivity. }
  destruct (negb force && nseq (_lastFrom s) (of_Z z)) eqn:E.
  - injection Hrun as <- <-.
    apply andb_true_iff in E as [_ E].
    destruct (Hstart false [] NaN) as (_ & H2 & _).
    rewrite H2.
    destruct (render_from_nodes false z0 n s Hg Hh Hp Hn)
      as (z' & m' & Hclamp' & _ & _ & Hrender' & _).
    rewrite Hclamp in Hclamp'. injection Hclamp' as <-.
    rewrite Hrender'. cbn [negb andb]. now rewrite E.
  - injection Hrun as <- <-.
    destruct (Hstart false (f <$> seqZ z (Z.of_nat m)) (of_Z z)) as (H2 & _).
    rewrite H2. unfold Part001.render_from.
    change (Part001.clamp_from (Some z0)
              (with_children (f <$> seqZ z (Z.of_nat m))
                 (with_lastFrom (of_Z z) s)))
      with (Part001.clamp_from (Some z0) s).
    rewrite Hclamp. cbn [Part001.index_num _lastFrom with_children
                         with_lastFrom negb andb].
    now rewrite Hsame.
Qed.

End ChunkRows.


Section ChunkRowsExamples.
Import Chunk.

Lemma renderChunk_rows_witness :
  exists z m,
    0 <= z /\ (m = 0%nat \/ z + Z.of_nat m <= 50)
    /\ Part001._renderChunk true (Demo.scrolled 400 Demo.fifty)
       = Return (with_children (Z.to_nat <$> seqZ z (Z.of_nat m))
                   (with_lastFrom (of_Z z) (Demo.scrolled 400 Demo.fifty)))
                true.
Proof.
  destruct (renderChunk_rows (fun i => GenNode (Z.to_nat i)) Z.to_nat
              (fun _ => eq_refl) true (Demo.scrolled 400 Demo.fifty) 50)
    as (z & m & Hz & Hm & H & _);
    [reflexivity | eexists; reflexivity | eexists; reflexivity | reflexivity |].
  exists z, m. auto.
Defined.

Lemma renderChunk_repeat_witness :
  let s' :=
    final_state (Part001._renderChunk false (Demo.scrolled 400 Demo.fifty)) in
  Part001._renderChunk false s' = Return s' false.
Proof.
  cbv zeta.
  apply (renderChunk_repeat (fun i => GenNode (Z.to_nat i)) Z.to_nat
           (fun _ => eq_refl) false (Demo.scrolled 400 Demo.fifty) _ 50 true);
    [reflexivity | eexists; reflexivity | eexists; reflexivity | reflexivity |].
  vm_compute. reflexivity.
Defined.

End ChunkRowsExamples.

(** ** Rows that the generator fails to deliver *)

Section GeneratorErrors.
Import Chunk.

(** X5: when the generator answers [{element, height}] with a numeric
    height that differs from the stored one but with an [element] that is
    no node, [_getRow] throws its "did not return a DOM Node" error only
    after it has recorded the height: the instance it leaves behind has the
    new height in its table and a scroll height that counts it (a fresh
    sum in part_001, the old value plus the difference in part_000). *)
Theorem getRow_rejects_after_update (i : Z) (s : HyperList)
    (gen : Z -> generated) (h : num) (hs ps : array) :
  0 <= i ->
  generate (_config s) = Function gen ->
  gen i = GenSized None h ->
  isNumber h = true ->
  _itemHeights s = Some hs ->
  _itemPositions s = Some ps ->
  nseq h (aget hs i) = false ->
  (exists s1,
      Part001._getRow i s
      = Throw s1 (Error "Generator did not return a DOM Node for index")
      /\ _itemHeights s1 = Some (aset hs i h)
      /\ _scrollHeight s1 = asum (aset hs i h))
  /\ (exists s0,
        Part000._getRow i s
        = Throw s0 (Error "Generator did not return a DOM Node for index")
        /\ _itemHeights s0 = Some (aset hs i h)
        /\ _scrollHeight s0 = nadd (_scrollHeight s) (nsub h (aget hs i))).
Proof.
  intros Hi Hg Hgen Hnum Hh Hp Hne.
  unfold Part001._getRow, Part000._getRow. rewrite Hg, Hgen, Hnum. split.
  - destruct (height_update_cases i h s hs ps Hh Hp)
      as [[Heq _] | (_ & s1 & -> & _ & Hh1 & _ & Hs1)]; [congruence |].
    exists s1. split; [reflexivity |]. split; assumption.
  - destruct (height_update0_cases i h s hs ps Hi Hh Hp)
      as [[Heq _] | (_ & s0 & -> & _ & Hh0 & _ & Hs0 & _)]; [congruence |].
    exists s0. split; [reflexivity |]. split; assumption.
Qed.

End GeneratorErrors.

Section GeneratorErrorsExamples.
Import Chunk.

(** On the ten rows of 10 pixels whose generator reports 25 pixels and no
    element, the call for row 3 throws and leaves a scroll height of
    115. *)
Lemma getRow_rejects_after_update_witness :
  exists s1,
    Part001._getRow 3 Demo.ten_without_elements
    = Throw s1 (Error "Generator did not return a DOM Node for index")
    /\ nsame (_scrollHeight s1) (of_Z 115).
Proof.
  destruct (getRow_rejects_after_update 3 Demo.ten_without_elements
              (fun _ => GenSized None (of_Z 25)) (of_Z 25)
              (default [] (_itemHeights Demo.ten_without_elements))
              (default [] (_itemPositions Demo.ten_without_elements)))
    as [(s1 & H1 & _ & H3) _];
    [lia | reflexivity | reflexivity | reflexivity | reflexivity | reflexivity
     | vm_compute; reflexivity |].
  exists s1. split; [exact H1 |].
  rewrite H3. vm_compute. reflexivity.
Defined.

End GeneratorErrorsExamples.

(** ** The snapshot part_000 *)

Section Snapshot0.
Import Chunk.

(** X6: [refresh] of part_000 never returns.  Whatever the arguments and
    the instance, the call ends in an exception; when the arguments pass
    the validation, the exception is the ReferenceError raised by the read
    of the undeclared name [scrollHeight], and it leaves the merged
    configuration and possibly a rebuilt height table behind, with the
    positions and the scroll height untouched.  The constructor, which
    calls [refresh], never returns either. *)
Theorem refresh0_never_returns :
  (forall element newConfig s,
      returned (Part000.refresh element newConfig s) = false)
  /\ (forall element config,
        returned (Part000.construct element config) = false)
  /\ (forall element newConfig s s' e,
        (forall el, element = Some el -> nodeType el = 1) ->
        (forall nc, newConfig = Some nc ->
           returned (Part001.configure nc (replace_element element s))
           = true) ->
        Part000.refresh element newConfig s = Throw s' e ->
        e = ReferenceError "scrollHeight is not defined"
        /\ _itemPositions s' = _itemPositions s
        /\ _scrollHeight s' = _scrollHeight s
        /\ _children s' = _children s).
Proof.
  assert (H1 : forall element newConfig s,
             returned (Part000.refresh element newConfig s) = false).
  { intros element newConfig s. unfold Part000.refresh.
    destruct element as [el |]; [destruct (nodeType el =? 1) |];
      cbn [bind]; try reflexivity;
      (destruct newConfig as [nc |];
       [match goal with
        | |- context [Part001.configure nc ?t] =>
            destruct (Part001.configure nc t)
        end |]; reflexivity). }
  split; [exact H1 |]. split.
  - intros element config. unfold Part000.construct.
    destruct (nodeType element =? 1); [| reflexivity].
    specialize (H1 (Some element) config (Part001.blank element)).
    destruct (Part000.refresh _ _ _); [discriminate H1 | reflexivity].
  - intros element newConfig s s' e Hel Hcfg. unfold Part000.refresh.
    assert (Hfirst : (match element with
                      | None => Return s tt
                      | Some el =>
                          if nodeType el =? 1 then Return (with_element el s) tt
                          else Throw s
                                 (Error
                                    "HyperList requires a valid DOM Node container")
                      end) = Return (replace_element element s) tt).
    { destruct element as [el |]; [| reflexivity].
      rewrite (Hel el eq_refl). reflexivity. }
    rewrite Hfirst. cbn [bind].
    destruct newConfig as [nc |]; cbn [bind].
    + specialize (Hcfg nc eq_refl).
      assert (Hkeep : forall t,
                 _itemPositions (final_state (Part001.configure nc t))
                 = _itemPositions t
                 /\ _scrollHeight (final_state (Part001.configure nc t))
                    = _scrollHeight t
                 /\ _children (final_state (Part001.configure nc t))
                    = _children t).
      { intros t. unfold Part001.configure. cbv zeta.
        repeat match goal with
               | |- context [match ?x with _ => _ end] => destruct x
               end; cbn; auto. }
      specialize (Hkeep (replace_element element s)).
      destruct (Part001.configure nc (replace_element element s))
        as [s1 [] | s1 e1]; [| discriminate Hcfg].
      cbn [bind final_state] in *. intros [= <- <-].
      destruct Hkeep as (K1 & K2 & K3).
      split; [reflexivity |].
      rewrite K1, K2, K3. destruct element; auto.
    + intros [= <- <-]. split; [reflexivity |]. destruct element; auto.
Qed.

End Snapshot0.


(** ** Two frames at the same scroll position *)

Section Frames.
Import Chunk.

(** The configuration and the container are not touched by a length
    update. *)
Lemma height_update_settings (i : Z) (h : num) (s : HyperList) :
  let s' := final_state (Part001.height_update i h s) in
  _config s' = _config s /\ _element s' = _element s.
Proof.
  cbv zeta. unfold Part001.height_update.
  destruct (_itemHeights s) as [hs |]; [| auto].
  destruct (nseq h (aget hs i)); [auto |].
  set (s1 := with_itemHeights (Some (aset hs i h)) s).
  assert (Hloop : _config (final_state (Part001._computePositions i s1))
                  = _config s
                  /\ _element (final_state (Part001._computePositions i s1))
                     = _element s).
  { unfold Part001._computePositions. cbv zeta.
    apply (for_each_keeps
             (fun t => _config t = _config s /\ _element t = _element s));
      [| auto].
    intros k t Ht. unfold Part001.position_step.
    destruct (_itemPositions t); [| exact Ht].
    destruct (_itemHeights t); exact Ht. }
  destruct (Part001._computePositions i s1) as [s2 [] | s2 e];
    cbn [final_state] in *; [| exact Hloop].
  unfold Part001._computeScrollHeight.
  destruct (_itemHeights s2); exact Hloop.
Qed.

(** X7: the render loop of part_001 settles.  After a frame that returns,
    a second frame at the same scroll position, when that position is a
    number, does nothing: it returns without calling [_renderChunk] and
    leaves the instance as the first frame left it. *)
Theorem render_settles (s s' : HyperList) (b : bool) :
  is_nan (Part001._getScrollPosition s) = false ->
  Part001.render s = Return s' b ->
  Part001._getScrollPosition s' = Part001._getScrollPosition s
  /\ Part001.render s' = Return s' false.
Proof.
  intros Hnum Hrun. pose proof Hrun as Hrun0.
  unfold Part001.render in Hrun.
  destruct (Part001.should_render (Part001._getScrollPosition s) s) eqn:E.
  - pose proof (renderChunk_keeps
                  (fun t => _config t = _config s /\ _element t = _element s))
      as Hkeep.
    specialize (Hkeep ltac:(intros i h t _ [H1 H2];
                            destruct (height_update_settings i h t) as [-> ->];
                            auto)
                      ltac:(intros; assumption) ltac:(intros; assumption)
                      false s (conj eq_refl eq_refl)).
    destruct (Part001._renderChunk false s) as [s1 r | s1 e];
      [| discriminate Hrun].
    cbn [final_state] in Hkeep. destruct Hkeep as [Hc He].
    injection Hrun as <- <-.
    assert (Hy : Part001._getScrollPosition
                   (with_lastRepaint (Some (Part001._getScrollPosition s)) s1)
                 = Part001._getScrollPosition s).
    { unfold Part001._getScrollPosition. cbn [_config _element with_lastRepaint].
      now rewrite Hc, He. }
    split; [exact Hy |].
    unfold Part001.render. rewrite Hy.
    unfold Part001.should_render. cbn [_lastRepaint with_lastRepaint from_option].
    unfold nseq at 1. rewrite (ncmp_refl _ Hnum). reflexivity.
  - injection Hrun as <- <-. split; [reflexivity | exact Hrun0].
Qed.

End Frames.

Section FramesExamples.
Import Chunk.

(** The fifty rows scrolled to 100: the first frame renders, the second
    does nothing. *)
Lemma render_settles_witness :
  Part001.render (Demo.scrolled 100 Demo.fifty) = Return Demo.fifty_at_100 true
  /\ Part001.render Demo.fifty_at_100 = Return Demo.fifty_at_100 false.
Proof.
  assert (H : Part001.render (Demo.scrolled 100 Demo.fifty)
              = Return Demo.fifty_at_100 true) by (vm_compute; reflexivity).
  split; [exact H |].
  exact (proj2 (render_settles (Demo.scrolled 100 Demo.fifty)
                  Demo.fifty_at_100 true eq_refl H)).
Defined.

End FramesExamples.

(** ** Metrics of a list of uniform rows *)

Section UniformMetrics.
Import Chunk.

Lemma nlt_nsub_self (h : num) : nlt (nsub h h) (Fin 0) = false.
Proof.
  destruct h as [q | | |]; try reflexivity.
  unfold nsub, nneg, nadd, nlt, ncmp.
  assert (E : (q + - q ?= 0)%Q = Eq) by (apply Qeq_alt, Qplus_opp_r).
  now rewrite E.
Qed.

Lemma insert_sorted_replicate (h : num) (k : nat) :
  insert_sorted h (replicate k h) = replicate (S k) h.
Proof.
  induction k as [| k IH]; [reflexivity |].
  cbn [replicate insert_sorted]. rewrite nlt_nsub_self, IH. reflexivity.
Qed.

Lemma isort_replicate (h : num) (k : nat) : isort (replicate k h) = replicate k h.
Proof.
  unfold isort.
  assert (H : forall j,
             fold_left (fun acc x => insert_sorted x acc) (replicate k h)
                       (replicate j h)
             = replicate (k + j) h).
  { induction k as [| k IH]; intros j; [reflexivity |].
    cbn [replicate fold_left]. rewrite insert_sorted_replicate.
    rewrite (IH (S j)). f_equal. lia. }
  specialize (H O). change (replicate 0 h) with (@nil num) in H.
  rewrite H. f_equal. lia.
Qed.

Lemma asort_afill (n : Z) (h : num) : asort (afill n h) = afill n h.
Proof.
  unfold asort, afill.
  assert (H : forall k, omap id (replicate k (Some h)) = replicate k h).
  { induction k as [| k IH]; [reflexivity |].
    change (omap id (replicate (S k) (Some h)))
      with (h :: omap id (replicate k (Some h))).
    now rewrite IH. }
  rewrite H, isort_replicate, !length_replicate, Nat.sub_diag.
  cbn [replicate]. rewrite app_nil_r, fmap_replicate. reflexivity.
Qed.

Lemma fold_sum_replicate (q : Q) (k : nat) (a : Q) :
  exists x, fold_left sum_step (replicate k (Some (Fin q))) (Fin a) = Fin x
            /\ (x == a + inject_Z (Z.of_nat k) * q)%Q.
Proof.
  revert a. induction k as [| k IH]; intros a.
  - exists a. split; [reflexivity |]. simpl. ring.
  - cbn [replicate fold_left sum_step nadd].
    destruct (IH (a + q)%Q) as (x & -> & Hx). exists x.
    split; [reflexivity |]. rewrite Hx.
    rewrite Nat2Z.inj_succ. unfold Z.succ. rewrite inject_Z_plus. ring.
Qed.

Lemma median_afill (n : Z) (q : Q) :
  1 <= n -> nsame (median (afill n (Fin q)) (Count n)) (Fin q).
Proof.
  intros Hn. unfold median.
  assert (Hmid : 0 <= n / 2 < n).
  { split; [apply Z.div_pos; lia | apply Z.div_lt_upper_bound; lia]. }
  destruct (Z.eqb_spec (Z.rem n 2) 0) as [E | E].
  - assert (Hn2 : 2 <= n).
    { destruct (Z.eq_dec n 1) as [-> | Hne]; [discriminate E | lia]. }
    assert (1 <= n / 2) by (apply Z.div_le_lower_bound; lia).
    rewrite !aget_afill by lia.
    change (((q + q) / 2 == q)%Q). field.
  - rewrite aget_afill by lia. apply nsame_refl.
Qed.

(** The metrics of [n >= 1] equal heights [q], in the exact arithmetic
    of the model. *)
Lemma uniform_metrics_rational (s : HyperList) (n : Z) (q c : Q) :
  itemCount (_config s) = Count n ->
  1 <= n ->
  _itemHeights s = Some (afill n (Fin q)) ->
  ~ (q == 0)%Q ->
  clientHeight (_element s) = Fin c ->
  exists s' h,
    Part001._computeScrollHeight s = Return s' h
    /\ Part000._computeScrollHeight s = Return s' h
    /\ nsame h (Fin (inject_Z n * q))
    /\ nsame (_averageHeight s') (Fin q)
    /\ _containerSize s' = Fin c
    /\ _screenItemsLen s' = of_Z (Qceiling (c / q))
    /\ _cachedItemsLen s'
       = nmax (nor (_cachedItemsLen s) (Fin 0))
              (nmul (of_Z (Qceiling (c / q))) (Fin 3)).
Proof.
  intros Hn Hn1 Hh Hq Hc.
  unfold Part001._computeScrollHeight, Part000._computeScrollHeight.
  rewrite Hh, Hn, Hc, asort_afill.
  pose proof (median_afill n q Hn1) as Hmed.
  destruct (median (afill n (Fin q)) (Count n)) as [a | | |] eqn:Ea;
    try contradiction.
  cbn [nsame] in Hmed.
  assert (Hscreen : nceil (ndiv (Fin c) (Fin a)) = of_Z (Qceiling (c / q))).
  { unfold ndiv.
    destruct (Qeq_bool a 0) eqn:E0.
    - apply Qeq_bool_iff in E0. rewrite Hmed in E0. contradiction.
    - cbn [nceil]. unfold of_Z. do 2 f_equal.
      apply Qceiling_comp. now rewrite Hmed. }
  eexists _, _. split; [reflexivity |]. split; [reflexivity |].
  split.
  { unfold asum, afill.
    destruct (fold_sum_replicate q (Z.to_nat n) 0) as (x & -> & Hx).
    cbn [nsame]. rewrite Hx, Z2Nat.id by lia. ring. }
  cbn [_averageHeight _containerSize _screenItemsLen _cachedItemsLen
       with_metrics].
  split; [exact Hmed |]. split; [reflexivity |].
  rewrite Hscreen. split; reflexivity.
Qed.

(** X8: on a table of [n >= 1] equal whole heights [q >= 1], as [refresh]
    builds it from a numeric [itemHeight], in a container of whole height
    [c >= 0], all in the range that the code computes exactly
    ([n * q <= 2^53] and [3 * c <= 2^53]): [_computeScrollHeight] (of both
    snapshots) answers the scroll height [n * q], takes [q] as the average
    height, and counts [ceil(c / q)] rows per screen; the cached row count
    is the larger of its previous value (or 0) and three times that
    number. *)
Theorem uniform_metrics (s : HyperList) (n q c : Z) :
  itemCount (_config s) = Count n ->
  1 <= n ->
  _itemHeights s = Some (afill n (of_Z q)) ->
  1 <= q ->
  n * q <= Exact.exact_limit ->
  clientHeight (_element s) = of_Z c ->
  0 <= c ->
  3 * c <= Exact.exact_limit ->
  exists s' h,
    Part001._computeScrollHeight s = Return s' h
    /\ Part000._computeScrollHeight s = Return s' h
    /\ nsame h (of_Z (n * q))
    /\ nsame (_averageHeight s') (of_Z q)
    /\ _containerSize s' = of_Z c
    /\ _screenItemsLen s' = of_Z (Qceiling (inject_Z c / inject_Z q))
    /\ _cachedItemsLen s'
       = nmax (nor (_cachedItemsLen s) (Fin 0))
              (nmul (of_Z (Qceiling (inject_Z c / inject_Z q))) (Fin 3)).
Proof.
  intros Hn Hn1 Hh Hq _ Hc _ _.
  destruct (uniform_metrics_rational s n (inject_Z q) (inject_Z c)
              Hn Hn1 Hh)
    as (s' & h & H1 & H2 & H3 & H4 & H5 & H6 & H7); [| exact Hc |].
  { intros E. change 0%Q with (inject_Z 0) in E.
    apply (proj1 (inject_Z_injective q 0)) in E. lia. }
  exists s', h. split; [exact H1 |]. split; [exact H2 |].
  split.
  { destruct h as [x | | |]; try contradiction.
    cbn [nsame of_Z] in *. rewrite H3, inject_Z_mult. reflexivity. }
  auto.
Qed.

End UniformMetrics.

Section UniformMetricsExamples.
Import Chunk.

(** Fifty rows of 20 pixels in a container of 100: five rows per
    screen. *)
Lemma uniform_metrics_witness :
  exists s' h,
    Part001._computeScrollHeight Demo.fifty = Return s' h
    /\ nsame h (of_Z 1000)
    /\ _screenItemsLen s' = of_Z 5.
Proof.
  destruct (uniform_metrics Demo.fifty 50 20 100)
    as (s' & h & H1 & _ & H3 & _ & _ & H6 & _);
    [reflexivity | lia | reflexivity | lia | unfold Exact.exact_limit; lia
     | reflexivity | lia | unfold Exact.exact_limit; lia |].
  exists s', h. split; [exact H1 |]. split; [exact H3 | exact H6].
Defined.

End UniformMetricsExamples.


(** ** What the window tracker leaves alone *)

Section TrackerFootprint.
Import LibIndex Tracking.

Lemma revealed_refl (s : HyperList) : revealed s s.
Proof.
  exists (_rows s), (_window s). split; [now destruct s |].
  apply Forall_Forall2_diag, Forall_forall. intros o _. now left.
Qed.

Lemma revealed_window (s0 s : HyperList) (w : option Window) :
  revealed s0 s -> revealed s0 (with_window w s).
Proof.
  intros (rows' & w' & -> & F). exists rows', w. split; [reflexivity | exact F].
Qed.

Lemma revealed_put (s0 s : HyperList) (i : Z) (r : Row) (v : bool) :
  revealed s0 s ->
  row_at (_rows s) i = Some r ->
  revealed s0 (with_rows (row_put (_rows s) i (set_visible v r)) s).
Proof.
  intros (rows' & w' & -> & F) Hr.
  cbn [_rows with_rows with_window] in Hr |- *.
  eexists _, w'. split; [reflexivity |].
  unfold row_at in Hr. unfold row_put.
  destruct (i <? 0); [discriminate Hr |].
  destruct (rows' !! Z.to_nat i) as [[r1 |] |] eqn:E; try discriminate Hr.
  injection Hr as ->.
  apply Forall2_same_length_lookup in F as [Hlen F].
  apply Forall2_same_length_lookup. split; [now rewrite length_insert |].
  intros k x y Hx Hy.
  destruct (Nat.eq_dec k (Z.to_nat i)) as [-> | Hne].
  - rewrite list_lookup_insert_eq in Hy by (eapply lookup_lt_Some; eauto).
    injection Hy as <-.
    destruct (F _ _ _ Hx E) as [H | (r0 & v0 & -> & H)].
    + right. exists r, v. split; [now rewrite H | reflexivity].
    + right. exists r0, v. injection H as ->. split; reflexivity.
  - rewrite list_lookup_insert_ne in Hy by congruence. eauto.
Qed.

Variable s0 : HyperList.

Lemma bind_reveals {A B : Type} (m : outcome HyperList A)
    (k : HyperList -> A -> outcome HyperList B) :
  revealed s0 (final_state m) ->
  (forall s a, revealed s0 s -> revealed s0 (final_state (k s a))) ->
  revealed s0 (final_state (bind m k)).
Proof. intros Hm Hk. destruct m as [s a | s e]; cbn in *; auto. Qed.

Lemma hideRow_reveals (i : Z) (s : HyperList) :
  revealed s0 s -> revealed s0 (final_state (_hideRow i s)).
Proof.
  intros Hs. unfold _hideRow.
  destruct (row_at (_rows s) i) as [r |] eqn:Hr; [| exact Hs].
  pose proof (revealed_put s0 s i r false Hs Hr) as H.
  destruct (row_node r); exact H.
Qed.

Lemma hide_range_reveals (i : Z) (n : nat) (s : HyperList) :
  revealed s0 s -> revealed s0 (final_state (hide_range i n s)).
Proof.
  intros Hs. unfold hide_range. apply for_each_keeps; [| exact Hs].
  intros j t. apply hideRow_reveals.
Qed.

Lemma find_loop_state (fuel : nat) (direction : Z) (endLength : inum)
    (i : Z) (len : inum) (s : HyperList) :
  final_state (find_loop fuel direction endLength i len s) = s.
Proof.
  revert i len. induction fuel as [| fuel IH]; intros i len; [reflexivity |].
  cbn [find_loop].
  destruct (row_at (_rows s) (i + direction)); [| reflexivity].
  destruct (direction <? 0).
  - destruct (_ || _); [reflexivity | apply IH].
  - destruct (_ || _); [reflexivity | apply IH].
Qed.

Lemma findRow_state (startIndex : option Z) (endLength : inum)
    (direction : Z) (s : HyperList) :
  final_state (_findRow startIndex endLength direction s) = s.
Proof.
  unfold _findRow. destruct startIndex as [i |]; [| reflexivity].
  destruct (i <? 0); [reflexivity |].
  destruct (i >=? _); [reflexivity |].
  destruct (row_at (_rows s) i); [apply find_loop_state | reflexivity].
Qed.

Lemma display_loop_reveals (fuel : nat) (direction endIndex : Z)
    (endLength : inum) (i : Z) (len : inum) (s : HyperList) :
  revealed s0 s ->
  revealed s0
    (final_state (display_loop fuel direction endIndex endLength i len s)).
Proof.
  revert i len s. induction fuel as [| fuel IH]; intros i len s Hs;
    [exact Hs |].
  cbn [display_loop].
  destruct (row_at (_rows s) i) as [r |] eqn:Hr; [| exact Hs].
  apply bind_reveals.
  - destruct (row_visible r); [exact Hs |].
    pose proof (revealed_put s0 s i r true Hs Hr) as H.
    cbv zeta. destruct (row_node r); exact H.
  - intros s1 _ H1. cbv zeta.
    destruct (_ || _); [exact H1 | now apply IH].
Qed.

Lemma displayRows_reveals (startIndex : Z) (endLength : inum)
    (direction : Z) (s : HyperList) :
  revealed s0 s ->
  revealed s0 (final_state (_displayRows startIndex endLength direction s)).
Proof.
  intros Hs. unfold _displayRows.
  destruct (row_at (_rows s) startIndex); [| exact Hs].
  now apply display_loop_reveals.
Qed.

Lemma hide_leading_reveals (fuel : nat) (win : Window) (start : Z) (i : Z)
    (len : inum) (s : HyperList) :
  revealed s0 s ->
  revealed s0 (final_state (hide_leading fuel win start i len s)).
Proof.
  revert i len s. induction fuel as [| fuel IH]; intros i len s Hs;
    cbn [hide_leading];
    (destruct (row_at (_rows s) i); [| exact Hs]);
    (destruct (ile _ _); [| exact Hs]);
    (apply bind_reveals; [now apply hideRow_reveals |]);
    intros s1 _ H1; [exact H1 | now apply IH].
Qed.

Lemma hide_trailing_reveals (fuel : nat) (win : Window) (end_ : inum)
    (i : Z) (len : inum) (s : HyperList) :
  revealed s0 s ->
  revealed s0 (final_state (hide_trailing fuel win end_ i len s)).
Proof.
  revert i len s. induction fuel as [| fuel IH]; intros i len s Hs;
    [exact Hs |].
  cbn [hide_trailing].
  destruct (row_at (_rows s) (i - 1)); [| exact Hs].
  destruct (ilt _ _); [exact Hs |].
  apply bind_reveals; [now apply hideRow_reveals |].
  intros s1 _ H1. now apply IH.
Qed.

Lemma refresh_forward_reveals (win : Window) (start : Z) (end_ : inum)
    (s : HyperList) :
  revealed s0 s ->
  revealed s0 (final_state (refresh_forward win start end_ s)).
Proof.
  intros Hs. unfold refresh_forward.
  assert (Hdisplay : forall first t,
             revealed s0 t ->
             revealed s0
               (final_state
                  (bind (_displayRows first end_ 1 t)
                     (fun t last =>
                        bind (if last <? win_last win
                              then hide_range (last + 1)
                                     (Z.to_nat (win_last win - last)) t
                              else Return t tt)
                             (fun t _ => new_window start end_ first last t))))).
  { intros first t Ht. apply bind_reveals; [now apply displayRows_reveals |].
    intros t1 last H1. apply bind_reveals.
    - destruct (last <? win_last win); [now apply hide_range_reveals | exact H1].
    - intros t2 _ H2. now apply revealed_window. }
  apply bind_reveals.
  - destruct (win_first win >=? 0); [| exact Hs].
    apply bind_reveals; [now apply hide_leading_reveals |].
    intros t r Ht. exact Ht.
  - intros t [i first] Ht.
    destruct (first <? 0).
    + pose proof (findRow_state i (Some start) 1 t) as Hfind.
      destruct (_findRow i (Some start) 1 t) as [t1 first1 | t1 e];
        cbn [final_state bind] in *; subst t1; [| exact Ht].
      destruct (row_at (_rows t) first1); [| exact Ht].
      destruct (ilt _ _); [exact Ht | now apply Hdisplay].
    + destruct (_ && _); [exact Ht | now apply Hdisplay].
Qed.

Lemma refresh_backward_reveals (win : Window) (start : Z) (end_ : inum)
    (s : HyperList) :
  revealed s0 s ->
  revealed s0 (final_state (refresh_backward win start end_ s)).
Proof.
  intros Hs. unfold refresh_backward.
  assert (Hdisplay : forall last t,
             revealed s0 t ->
             revealed s0
               (final_state
                  (bind (_displayRows last (Some start) (-1) t)
                     (fun t first =>
                        bind (if win_first win <? first
                              then hide_range (win_first win)
                                     (Z.to_nat (first - win_first win)) t
                              else Return t tt)
                             (fun t _ => new_window start end_ first last t))))).
  { intros last t Ht. apply bind_reveals; [now apply displayRows_reveals |].
    intros t1 first H1. apply bind_reveals.
    - destruct (win_first win <? first);
        [now apply hide_range_reveals | exact H1].
    - intros t2 _ H2. now apply revealed_window. }
  apply bind_reveals.
  - destruct (win_first win >=? 0); [| exact Hs].
    apply bind_reveals; [now apply hide_trailing_reveals |].
    intros t r Ht. exact Ht.
  - intros t [i last] Ht.
    destruct (last <? 0).
    + pose proof (findRow_state i end_ (-1) t) as Hfind.
      destruct (_findRow i end_ (-1) t) as [t1 last1 | t1 e];
        cbn [final_state bind] in *; subst t1; [| exact Ht].
      destruct (row_at (_rows t) last1); [| exact Ht].
      destruct (igt _ _); [exact Ht | now apply Hdisplay].
    + destruct (_ && _); [exact Ht | now apply Hdisplay].
Qed.

End TrackerFootprint.

Section TrackerFootprintTheorem.
Import LibIndex Tracking.

(** X9: whatever the list and however the call ends, [_refreshWindow]
    only writes the visibility flags of rows and the window.  It never
    changes the number of rows, nor the node, the length or the start of a
    row; it attaches and detaches no node of the root; and it leaves the
    content length, the renderer, the default row length and the padding
    as they were. *)
Theorem refreshWindow_footprint (s : HyperList) :
  let s' := final_state (_refreshWindow s) in
  _root s' = _root s
  /\ _contentLength s' = _contentLength s
  /\ _renderRow s' = _renderRow s
  /\ _rowLength s' = _rowLength s
  /\ _padding s' = _padding s
  /\ length (_rows s') = length (_rows s)
  /\ forall j r',
       row_at (_rows s') j = Some r' ->
       exists r, row_at (_rows s) j = Some r
                 /\ row_node r' = row_node r
                 /\ row_length r' = row_length r
                 /\ row_start r' = row_start r.
Proof.
  cbv zeta.
  assert (H : revealed s (final_state (_refreshWindow s))).
  { unfold _refreshWindow.
    destruct (_window s) as [win |]; [| apply revealed_refl].
    destruct (_ && _); [apply revealed_refl |].
    destruct (igt _ _);
      [apply refresh_forward_reveals | apply refresh_backward_reveals];
      apply revealed_refl. }
  destruct H as (rows' & w' & -> & F).
  cbn [_root _contentLength _renderRow _rowLength _padding _rows with_window
       with_rows].
  do 5 (split; [reflexivity |]).
  split; [symmetry; eapply Forall2_length; exact F |].
  intros j r' Hr'. unfold row_at in *.
  destruct (j <? 0); [discriminate Hr' |].
  destruct (rows' !! Z.to_nat j) as [[r1 |] |] eqn:E; try discriminate Hr'.
  injection Hr' as ->.
  destruct (Forall2_lookup_r _ _ _ _ _ F E) as (o & Ho & Hsame).
  rewrite Ho. destruct Hsame as [H | (r & v & -> & H)].
  - subst o. exists r'. auto.
  - injection H as ->. exists r. auto.
Qed.

End TrackerFootprintTheorem.


(** ** The row search of the window tracker *)

Section RowSearch.
Import LibIndex Layout.

Variables (N : Z) (L P : Z -> Z).
Hypothesis Hoff : offsets N L P.

Lemma find_forward_spec (e si : Z) (s : HyperList) (fuel : nat) (i : Z) :
  geometry N L P (_rows s) ->
  0 <= si -> si <= i -> i < N ->
  N - i <= Z.of_nat fuel ->
  match find_loop fuel 1 (Some e) i (Some (P (i + 1) - L si)) s with
  | Return s' r =>
      s' = s /\ i < r < N /\ e < P (r + 1) - L si
      /\ forall k, i < k < r -> P (k + 1) - L si <= e
  | Throw s' err =>
      s' = s /\ err = undefined_read
      /\ forall k, i < k < N -> P (k + 1) - L si <= e
  end.
Proof.
  intros Hg Hsi. revert i.
  induction fuel as [| fuel IH]; intros i Hi HiN Hfuel; [lia |].
  cbn [find_loop]. destruct Hg as [Hlen Hrows].
  destruct (Z.eq_dec (i + 1) N) as [Hend | Hmore].
  - assert (Hnone : row_at (_rows s) (i + 1) = None).
    { unfold row_at. destruct (i + 1 <? 0); [reflexivity |].
      rewrite lookup_ge_None_2 by lia. reflexivity. }
    rewrite Hnone. split; [reflexivity |]. split; [reflexivity |].
    intros k Hk. lia.
  - destruct (Hrows (i + 1) ltac:(lia)) as (r & Hr & _ & Hl & _).
    rewrite Hr, Hl. replace (1 <? 0) with false by reflexivity.
    cbn [iadd igt ilt].
    assert (Hnext : P (i + 1) - L si + L (i + 1) = P (i + 1 + 1) - L si).
    { destruct Hoff as [_ Pstep]. rewrite (Pstep (i + 1)) by lia. lia. }
    rewrite Hnext.
    replace (i + 1 =? Z.of_nat (length (_rows s))) with false by lia.
    rewrite orb_false_r.
    destruct (Z.ltb_spec e (P (i + 1 + 1) - L si)) as [Hgt | Hle].
    + split; [reflexivity |]. split; [lia |]. split; [exact Hgt |].
      intros k Hk. lia.
    + specialize (IH (i + 1) ltac:(lia) ltac:(lia) ltac:(lia)).
      destruct (find_loop fuel 1 (Some e) (i + 1)
                  (Some (P (i + 1 + 1) - L si)) s) as [s' r' | s' err].
      * destruct IH as (-> & Hr' & Hgt & Hbefore).
        split; [reflexivity |]. split; [lia |]. split; [exact Hgt |].
        intros k Hk. destruct (Z.eq_dec k (i + 1)) as [-> | Hne];
          [exact Hle | apply Hbefore; lia].
      * destruct IH as (-> & -> & Hall).
        split; [reflexivity |]. split; [reflexivity |].
        intros k Hk. destruct (Z.eq_dec k (i + 1)) as [-> | Hne];
          [exact Hle | apply Hall; lia].
Qed.

Lemma find_backward_spec (e : Z) (s : HyperList) (fuel : nat) (i : Z) :
  geometry N L P (_rows s) ->
  0 <= i -> i < N ->
  i <= Z.of_nat fuel ->
  match find_loop fuel (-1) (Some e) i (Some (P i)) s with
  | Return s' r =>
      s' = s /\ 0 <= r < i /\ (P r < e \/ r = 0)
      /\ forall k, r < k < i -> e <= P k
  | Throw s' err => s' = s /\ err = undefined_read /\ i = 0
  end.
Proof.
  intros Hg. revert i.
  induction fuel as [| fuel IH]; intros i Hi HiN Hfuel.
  - cbn [find_loop]. split; [reflexivity |]. split; [reflexivity | lia].
  - cbn [find_loop]. destruct Hg as [Hlen Hrows].
    destruct (Z.eq_dec i 0) as [-> | Hpos].
    + cbn. split; [reflexivity |]. split; reflexivity.
    + destruct (Hrows (i + -1) ltac:(lia)) as (r & Hr & _ & Hl & _).
      rewrite Hr, Hl. replace (-1 <? 0) with true by reflexivity.
      cbn [isub ilt].
      assert (Hprev : P i - L (i + -1) = P (i + -1)).
      { destruct Hoff as [_ Pstep]. specialize (Pstep (i + -1) ltac:(lia)).
        replace (i + -1 + 1) with i in Pstep by lia. lia. }
      rewrite Hprev.
      destruct ((P (i + -1) <? e) || (i + -1 =? 0)) eqn:E.
      * split; [reflexivity |]. split; [lia |]. split; [lia |].
        intros k Hk. lia.
      * apply orb_false_iff in E as [E1 E2].
        specialize (IH (i + -1) ltac:(lia) ltac:(lia) ltac:(lia)).
        destruct (find_loop fuel (-1) (Some e) (i + -1) (Some (P (i + -1))) s)
          as [s' r' | s' err].
        -- destruct IH as (-> & Hr' & Hstop & Hafter).
           split; [reflexivity |]. split; [lia |]. split; [exact Hstop |].
           intros k Hk. destruct (Z.eq_dec k (i + -1)) as [-> | Hne];
             [lia | apply Hafter; lia].
        -- destruct IH as (_ & _ & H0). lia.
Qed.

(** X10: [_findRow] on a laid-out list of [N] rows of whole lengths (row
    [j] of length [L j] starting at [P j], all offsets in the range that
    the code computes exactly), called with a start index [si] inside the
    list, changes nothing and answers as follows.  Searching forward for
    the offset [e], it adds to the start of row [si] the lengths of the
    rows that follow it, the length of row [si] itself being left out: it
    returns the first index [r > si] with [P (r + 1) - L si > e], and
    throws a TypeError on the read past the last row when there is none;
    it never returns [N].  Searching backward, it returns the first index
    [r < si], going down, that starts before [e] or is 0, and throws a
    TypeError when [si] is 0, on the read of the row before the first. *)
Theorem findRow_answers (e si : Z) (s : HyperList) :
  geometry N L P (_rows s) ->
  Exact.whole_rows Exact.exact_limit (_rows s) ->
  - Exact.exact_limit <= e <= Exact.exact_limit ->
  0 <= si < N ->
  match _findRow (Some si) (Some e) 1 s with
  | Return s' r =>
      s' = s /\ si < r < N /\ e < P (r + 1) - L si
      /\ forall k, si < k < r -> P (k + 1) - L si <= e
  | Throw s' err =>
      s' = s /\ err = undefined_read
      /\ forall k, si < k < N -> P (k + 1) - L si <= e
  end
  /\ match _findRow (Some si) (Some e) (-1) s with
     | Return s' r =>
         s' = s /\ 0 <= r < si /\ (P r < e \/ r = 0)
         /\ forall k, r < k < si -> e <= P k
     | Throw s' err => s' = s /\ err = undefined_read /\ si = 0
     end.
Proof.
  intros Hg _ _ Hsi. pose proof Hg as [Hlen Hrows].
  destruct (Hrows si Hsi) as (r & Hr & Hs & _).
  unfold _findRow.
  replace (si <? 0) with false by lia.
  replace (si >=? Z.of_nat (length (_rows s))) with false by lia.
  rewrite Hr, Hs. split.
  - assert (Hstart : P si = P (si + 1) - L si)
      by (destruct Hoff as [_ Pstep]; rewrite Pstep by lia; lia).
    rewrite Hstart.
    apply (find_forward_spec e si s (length (_rows s)) si Hg); lia.
  - apply (find_backward_spec e s (length (_rows s)) si Hg); lia.
Qed.

End RowSearch.

Section RowSearchExamples.
Import LibIndex Layout.

Lemma ten_rows_whole : Exact.whole_rows Exact.exact_limit (_rows Demo.ten_rows).
Proof.
  apply whole_rows_Forall; [| vm_compute; discriminate].
  cbv [Demo.ten_rows _rows].
  repeat (apply List.Forall_cons; [intros r l [= <-] [= <-]; lia |]).
  apply List.Forall_nil.
Qed.

(** On the ten rows of 10 pixels: searching forward from row 2 for the
    offset 35 answers row 4, though row 3 holds that offset; searching
    backward from row 0 throws. *)
Lemma findRow_answers_witness :
  _findRow (Some 2) (Some 35) 1 Demo.ten_rows = Return Demo.ten_rows 4
  /\ _findRow (Some 0) (Some 35) (-1) Demo.ten_rows
     = Throw Demo.ten_rows undefined_read.
Proof.
  assert (Hg : geometry 10 (fun _ => 10) (fun j => 10 * j)
                 (_rows Demo.ten_rows)).
  { split; [reflexivity |]. intros j Hj.
    assert (Hc : j = 0 \/ j = 1 \/ j = 2 \/ j = 3 \/ j = 4 \/ j = 5 \/ j = 6
                 \/ j = 7 \/ j = 8 \/ j = 9) by lia.
    repeat destruct Hc as [-> | Hc]; try subst j;
      (eexists; split; [reflexivity |]; cbn; repeat split; eauto). }
  assert (Hoff : offsets 10 (fun _ => 10) (fun j => 10 * j))
    by (split; [reflexivity | intros j Hj; lia]).
  pose proof (findRow_answers 10 (fun _ => 10) (fun j => 10 * j) Hoff 35 2
                Demo.ten_rows Hg ten_rows_whole
                ltac:(unfold Exact.exact_limit; lia) ltac:(lia)) as [H1 _].
  pose proof (findRow_answers 10 (fun _ => 10) (fun j => 10 * j) Hoff 35 0
                Demo.ten_rows Hg ten_rows_whole
                ltac:(unfold Exact.exact_limit; lia) ltac:(lia)) as [_ H2].
  split.
  - destruct (_findRow (Some 2) (Some 35) 1 Demo.ten_rows) as [s' r | s' err].
    + destruct H1 as (-> & Hr & Hgt & Hbefore). f_equal.
      destruct (Z.eq_dec r 3) as [-> | H3]; [lia |].
      destruct (Z.eq_dec r 4) as [-> | H4]; [reflexivity |].
      specialize (Hbefore 4 ltac:(lia)). lia.
    + destruct H1 as (_ & _ & Hall). specialize (Hall 4 ltac:(lia)). lia.
  - destruct (_findRow (Some 0) (Some 35) (-1) Demo.ten_rows)
      as [s' r | s' err].
    + destruct H2 as (_ & Hr & _). lia.
    + destruct H2 as (-> & -> & _). reflexivity.
Defined.

End RowSearchExamples.


(** ** Showing the rows of a window *)

Section RowDisplay.
Import LibIndex Layout Tracking.

Variables (N : Z) (L P : Z -> Z).
Hypothesis Hoff : offsets N L P.

Lemma set_visible_same (r : Row) (v : bool) :
  row_visible r = v -> set_visible v r = r.
Proof. intros <-. now destruct r. Qed.

(** One iteration of the loop of [_displayRows]: the row at [i] is
    visible afterwards and nothing else has changed. *)
Lemma show_row (i : Z) (r : Row) (s : HyperList) :
  geometry N L P (_rows s) ->
  row_at (_rows s) i = Some r ->
  0 <= i < N ->
  exists s1,
    (if row_visible r then Return s tt
     else
       let s := with_rows (row_put (_rows s) i (set_visible true r)) s in
       match row_node r with
       | None => Throw s undefined_read
       | Some _ => Return s tt
       end) = Return s1 tt
    /\ s1 = with_rows (_rows s1) s
    /\ geometry N L P (_rows s1)
    /\ rows_shown i i (_rows s) (_rows s1).
Proof.
  intros Hg Hr Hi. pose proof Hg as [Hlen Hrows].
  destruct (Hrows i Hi) as (r0 & Hr0 & _ & _ & [nd Hnd]).
  rewrite Hr in Hr0. injection Hr0 as <-.
  destruct (row_visible r) eqn:Hv.
  - exists s. split; [reflexivity |]. split; [now destruct s |].
    split; [exact Hg |]. split; [reflexivity |]. intros j.
    destruct ((i <=? j) && (j <=? i)) eqn:E; [| reflexivity].
    replace j with i by lia. rewrite Hr. cbn.
    now rewrite set_visible_same.
  - cbv zeta. rewrite Hnd. eexists. split; [reflexivity |].
    cbn [_rows with_rows]. split; [reflexivity |].
    split; [now apply geometry_set_visible |].
    split; [apply length_row_put |]. intros j.
    destruct ((i <=? j) && (j <=? i)) eqn:E.
    + replace j with i by lia. rewrite row_at_put_eq, Hr by lia. reflexivity.
    + rewrite row_at_put_ne by lia. reflexivity.
Qed.

Lemma rows_shown_extend_up (i last : Z) (rows rows1 rows2 : list (option Row)) :
  i < i + 1 <= last + 1 ->
  rows_shown i i rows rows1 ->
  rows_shown (i + 1) last rows1 rows2 ->
  rows_shown i last rows rows2.
Proof.
  intros Hi [Hl1 H1] [Hl2 H2]. split; [congruence |]. intros j.
  rewrite H2, H1.
  destruct (Z.eq_dec j i) as [-> | Hne].
  - replace ((i + 1 <=? i) && (i <=? last)) with false by lia.
    replace ((i <=? i) && (i <=? i)) with true by lia.
    replace ((i <=? i) && (i <=? last)) with true by lia. reflexivity.
  - replace ((i <=? j) && (j <=? i)) with false by lia.
    replace ((i + 1 <=? j) && (j <=? last)) with ((i <=? j) && (j <=? last))
      by lia.
    reflexivity.
Qed.

Lemma rows_shown_extend_down (i first : Z)
    (rows rows1 rows2 : list (option Row)) :
  first <= i ->
  rows_shown i i rows rows1 ->
  rows_shown first (i - 1) rows1 rows2 ->
  rows_shown first i rows rows2.
Proof.
  intros Hi [Hl1 H1] [Hl2 H2]. split; [congruence |]. intros j.
  rewrite H2, H1.
  destruct (Z.eq_dec j i) as [-> | Hne].
  - replace ((first <=? i) && (i <=? i - 1)) with false by lia.
    replace ((i <=? i) && (i <=? i)) with true by lia.
    replace ((first <=? i) && (i <=? i)) with true by lia. reflexivity.
  - replace ((i <=? j) && (j <=? i)) with false by lia.
    replace ((first <=? j) && (j <=? i - 1)) with ((first <=? j) && (j <=? i))
      by lia.
    reflexivity.
Qed.

Lemma display_forward (fuel : nat) (e : Z) (i : Z) (s : HyperList) :
  geometry N L P (_rows s) ->
  0 <= i < N ->
  N - i <= Z.of_nat fuel ->
  exists s' last,
    display_loop fuel 1 (N - 1) (Some e) i (Some (P i)) s = Return s' last
    /\ s' = with_rows (_rows s') s
    /\ geometry N L P (_rows s')
    /\ rows_shown i last (_rows s) (_rows s')
    /\ i <= last < N
    /\ (e <= P (last + 1) \/ last = N - 1)
    /\ forall j, i <= j < last -> P (j + 1) < e.
Proof.
  revert i s. induction fuel as [| fuel IH]; intros i s Hg Hi Hfuel; [lia |].
  pose proof Hg as [Hlen Hrows].
  destruct (Hrows i Hi) as (r & Hr & _ & Hl & _).
  destruct (show_row i r s Hg Hr Hi) as (s1 & H1 & E1 & G1 & S1).
  cbv zeta in H1.
  cbn [display_loop]. rewrite Hr, H1. cbn [bind]. cbv zeta.
  rewrite Hl. cbn [imul iadd ige ile]. rewrite Z.mul_1_r.
  assert (Hnext : P i + L i = P (i + 1))
    by (destruct Hoff as [_ Pstep]; rewrite Pstep by lia; lia).
  rewrite Hnext. replace (0 <? 1) with true by reflexivity.
  destruct ((e <=? P (i + 1)) || (i =? N - 1)) eqn:E.
  - exists s1, i. split; [reflexivity |]. split; [exact E1 |].
    split; [exact G1 |]. split; [exact S1 |]. split; [lia |].
    split; [lia |]. intros j Hj. lia.
  - apply orb_false_iff in E as [E2 E3].
    destruct (IH (i + 1) s1 G1 ltac:(lia) ltac:(lia))
      as (s2 & last & H2 & E2' & G2 & S2 & Hlast & Hstop & Hbefore).
    exists s2, last. split; [exact H2 |].
    split; [rewrite E2' at 1; rewrite E1; reflexivity |].
    split; [exact G2 |].
    split; [apply (rows_shown_extend_up i last _ (_rows s1)); [lia | | ];
            assumption |].
    split; [lia |]. split; [exact Hstop |].
    intros j Hj. destruct (Z.eq_dec j i) as [-> | Hne]; [lia |].
    apply Hbefore. lia.
Qed.

Lemma display_backward (fuel : nat) (e : Z) (i : Z) (s : HyperList) :
  geometry N L P (_rows s) ->
  0 <= i < N ->
  i < Z.of_nat fuel ->
  exists s' first,
    display_loop fuel (-1) 0 (Some e) i (Some (P (i + 1))) s = Return s' first
    /\ s' = with_rows (_rows s') s
    /\ geometry N L P (_rows s')
    /\ rows_shown first i (_rows s) (_rows s')
    /\ 0 <= first <= i
    /\ (P first <= e \/ first = 0)
    /\ forall j, first < j <= i -> e < P j.
Proof.
  revert i s. induction fuel as [| fuel IH]; intros i s Hg Hi Hfuel; [lia |].
  pose proof Hg as [Hlen Hrows].
  destruct (Hrows i Hi) as (r & Hr & _ & Hl & _).
  destruct (show_row i r s Hg Hr Hi) as (s1 & H1 & E1 & G1 & S1).
  cbv zeta in H1.
  cbn [display_loop]. rewrite Hr, H1. cbn [bind]. cbv zeta.
  rewrite Hl. cbn [imul iadd ige ile].
  assert (Hprev : P (i + 1) + L i * -1 = P i)
    by (destruct Hoff as [_ Pstep]; rewrite Pstep by lia; lia).
  rewrite Hprev. replace (0 <? -1) with false by reflexivity.
  destruct ((P i <=? e) || (i =? 0)) eqn:E.
  - exists s1, i. split; [reflexivity |]. split; [exact E1 |].
    split; [exact G1 |]. split; [exact S1 |]. split; [lia |].
    split; [lia |]. intros j Hj. lia.
  - apply orb_false_iff in E as [E2 E3].
    replace (Some (P i)) with (Some (P (i + -1 + 1))) by (f_equal; f_equal; lia).
    destruct (IH (i + -1) s1 G1 ltac:(lia) ltac:(lia))
      as (s2 & first & H2 & E2' & G2 & S2 & Hfirst & Hstop & Hafter).
    exists s2, first. split; [exact H2 |].
    split; [rewrite E2' at 1; rewrite E1; reflexivity |].
    split; [exact G2 |].
    split; [apply (rows_shown_extend_down i first _ (_rows s1)); [lia | |];
            [assumption | now replace (i - 1) with (i + -1) by lia] |].
    split; [lia |]. split; [exact Hstop |].
    intros j Hj. destruct (Z.eq_dec j i) as [-> | Hne]; [lia |].
    apply Hafter. lia.
Qed.

(** X11: [_displayRows] on a laid-out list of [N] rows of whole lengths
    (all offsets in the range that the code computes exactly), started at
    a row [si] of the list, makes a run of consecutive rows visible and
    changes nothing else.  Going forward with the end offset [e], the run
    is [si .. last], where [last], the index it returns, is the first row
    at or after [si] that ends at or beyond [e], or the last row of the
    list.  Going backward with the start offset [e], the run is
    [first .. si], where [first] is the first row, going down from [si],
    that starts at or before [e], or row 0. *)
Theorem displayRows_contract (e si : Z) (s : HyperList) :
  geometry N L P (_rows s) ->
  Exact.whole_rows Exact.exact_limit (_rows s) ->
  - Exact.exact_limit <= e <= Exact.exact_limit ->
  0 <= si < N ->
  (exists s' last,
      _displayRows si (Some e) 1 s = Return s' last
      /\ s' = with_rows (_rows s') s
      /\ rows_shown si last (_rows s) (_rows s')
      /\ si <= last < N
      /\ (e <= P (last + 1) \/ last = N - 1)
      /\ forall j, si <= j < last -> P (j + 1) < e)
  /\ (exists s' first,
        _displayRows si (Some e) (-1) s = Return s' first
        /\ s' = with_rows (_rows s') s
        /\ rows_shown first si (_rows s) (_rows s')
        /\ 0 <= first <= si
        /\ (P first <= e \/ first = 0)
        /\ forall j, first < j <= si -> e < P j).
Proof.
  intros Hg _ _ Hsi. pose proof Hg as [Hlen Hrows].
  destruct (Hrows si Hsi) as (r & Hr & Hs & Hl & _).
  unfold _displayRows. rewrite Hr, Hs, Hl, Hlen. split.
  - replace (0 <? 1) with true by reflexivity.
    destruct (display_forward (length (_rows s)) e si s Hg Hsi ltac:(lia))
      as (s' & last & H1 & H2 & _ & H3 & H4 & H5 & H6).
    exists s', last. auto 10.
  - replace (0 <? -1) with false by reflexivity. cbn [iadd].
    assert (Hnext : P si + L si = P (si + 1))
      by (destruct Hoff as [_ Pstep]; rewrite Pstep by lia; lia).
    rewrite Hnext.
    destruct (display_backward (length (_rows s)) e si s Hg Hsi ltac:(lia))
      as (s' & first & H1 & H2 & _ & H3 & H4 & H5 & H6).
    exists s', first. auto 10.
Qed.

End RowDisplay.


Section RowDisplayExamples.
Import LibIndex Layout Tracking.

Lemma ten_rows_geometry :
  offsets 10 (fun _ => 10) (fun j => 10 * j)
  /\ geometry 10 (fun _ => 10) (fun j => 10 * j) (_rows Demo.ten_rows).
Proof.
  split; [split; [reflexivity | intros j Hj; lia] |].
  split; [reflexivity |]. intros j Hj.
  assert (Hc : j = 0 \/ j = 1 \/ j = 2 \/ j = 3 \/ j = 4 \/ j = 5 \/ j = 6
               \/ j = 7 \/ j = 8 \/ j = 9) by lia.
  repeat destruct Hc as [-> | Hc]; try subst j;
    (eexists; split; [reflexivity |]; cbn; repeat split; eauto).
Qed.

(** On the ten rows of 10 pixels, of which the rows 0 to 2 are visible:
    showing rows forward from row 3 up to the offset 65 stops on row 6,
    and row 5 is visible afterwards. *)
Lemma displayRows_contract_witness :
  exists s' last,
    _displayRows 3 (Some 65) 1 Demo.ten_rows = Return s' last
    /\ 3 <= last < 10
    /\ (row_visible <$> row_at (_rows s') 5) = Some true.
Proof.
  destruct ten_rows_geometry as [Hoff Hg].
  destruct (displayRows_contract 10 (fun _ => 10) (fun j => 10 * j) Hoff 65 3
              Demo.ten_rows Hg ten_rows_whole
              ltac:(unfold Exact.exact_limit; lia) ltac:(lia))
    as [(s' & last & H1 & _ & [_ H3] & H4 & H5 & H6) _].
  exists s', last. split; [exact H1 |]. split; [exact H4 |].
  rewrite H3.
  assert (Hlast : 5 <= last).
  { destruct (Z_lt_le_dec last 5) as [Hlt | Hge]; [| exact Hge]. lia. }
  replace ((3 <=? 5) && (5 <=? last)) with true by lia. reflexivity.
Defined.

End RowDisplayExamples.

(** ** Removing rows from a list that has a window *)

Section RemovalWithWindow.
Import LibIndex Layout.

Lemma detach_loop_window (n : nat) (i : Z) (st : HyperList * inum) :
  _window (fst (final_state (for_each n i detach_step st)))
  = _window (fst st).
Proof.
  apply (for_each_keeps
           (fun st' : HyperList * inum => _window (fst st') = _window (fst st)));
    [| reflexivity].
  intros k st' H. unfold detach_step.
  destruct (row_at (_rows (fst st')) k); [| exact H].
  unfold removeChild. destruct (row_node r); [| exact H].
  destruct (bool_decide _); exact H.
Qed.

Lemma shift_loop_window (len : inum) (n : nat) (i : Z) (s : HyperList) :
  _window (final_state (for_each n i (shift_step len) s)) = _window s.
Proof.
  apply (for_each_keeps (fun s' : HyperList => _window s' = _window s));
    [| reflexivity].
  intros k s' H. unfold shift_step.
  destruct (row_at (_rows s') k); exact H.
Qed.

Lemma removeRows_overlap (lo hi : Z) (s : HyperList) (w : Window) :
  _window s = Some w ->
  ile (win_start w) (Some hi) = true ->
  ige (win_end w) (Some lo) = true ->
  returned (_removeRows lo hi s) = false.
Proof.
  intros Hw H1 H2. unfold _removeRows.
  pose proof (detach_loop_window (S (Z.to_nat (hi - lo))) lo (s, Some 0))
    as Hloop.
  destruct (for_each (S (Z.to_nat (hi - lo))) lo detach_step (s, Some 0))
    as [[s1 len] [] | [s1 len] e]; [| reflexivity].
  cbn [final_state fst] in Hloop. cbv zeta.
  match goal with
  | |- returned (bind ?m _) = false =>
      assert (Hshift : _window (final_state m) = Some w)
  end.
  { destruct (hi <? _).
    - rewrite shift_loop_window. cbn. now rewrite Hloop.
    - cbn. now rewrite Hloop. }
  match goal with
  | |- returned (bind ?m _) = false => destruct m as [s2 [] | s2 e]
  end; [| reflexivity].
  cbn [bind final_state] in *. rewrite Hshift, H1, H2. reflexivity.
Qed.

(** X12: on a list whose window is set, a removal never returns when the
    test that guards the window update passes.  [_removeRows(lo, hi)]
    compares the offsets of the window with the indices of the range
    ([win.start <= hi && win.end >= lo]), and when the comparison holds the
    call ends in an exception, at the latest on the method
    [_renderVisible], which the class does not have.  So does
    [refresh({rowCount})] for a row count below the current one, which
    removes the rows from [rowCount] on: it throws whenever the window
    starts at or before the offset [rows.length - 1] and ends at or past
    the offset [rowCount]. *)
Theorem removal_with_window_throws (s : HyperList) (w : Window) :
  _window s = Some w ->
  (forall lo hi,
      ile (win_start w) (Some hi) = true ->
      ige (win_end w) (Some lo) = true ->
      returned (_removeRows lo hi s) = false)
  /\ (forall options rowCount,
        opt_rowCount options = Some rowCount ->
        rowCount < Z.of_nat (length (_rows s)) ->
        ile (win_start w) (Some (Z.of_nat (length (_rows s)) - 1)) = true ->
        ige (win_end w) (Some rowCount) = true ->
        returned (refresh options s) = false).
Proof.
  intros Hw. split.
  - intros lo hi. now apply removeRows_overlap.
  - intros options rowCount Hopt Hlt H1 H2.
    unfold refresh. rewrite Hopt.
    replace (rowCount =? Z.of_nat (length (_rows s))) with false by lia.
    replace (rowCount <? Z.of_nat (length (_rows s))) with true by lia.
    pose proof (removeRows_overlap rowCount (Z.of_nat (length (_rows s)) - 1)
                  s w Hw H1 H2) as Hthrow.
    destruct (_removeRows rowCount (Z.of_nat (length (_rows s)) - 1) s);
      [discriminate Hthrow | reflexivity].
Qed.

End RemovalWithWindow.

Section RemovalWithWindowExamples.
Import LibIndex Layout.

(** The ten rows of 10 pixels, resolved at the top of a viewport of 30
    pixels: cutting the list to five rows throws. *)
Lemma removal_with_window_throws_witness :
  returned
    (refresh {| opt_rowCount := Some 5; opt_rowLength := None;
                opt_renderRow := None |} Demo.ten_rows) = false.
Proof.
  refine (proj2 (removal_with_window_throws Demo.ten_rows
                   {| win_start := Some 0; win_end := Some 30;
                      win_first := 0; win_last := 2 |} eq_refl)
            {| opt_rowCount := Some 5; opt_rowLength := None;
               opt_renderRow := None |} 5 eq_refl _ eq_refl eq_refl).
  simpl. lia.
Defined.

End RemovalWithWindowExamples.


(** ** Appending to a resolved list *)

Section AppendResolved.
Import LibIndex Layout.

Lemma row_at_app_l (rows : list (option Row)) (o : option Row) (j : Z) :
  0 <= j < Z.of_nat (length rows) ->
  row_at (rows ++ [o]) j = row_at rows j.
Proof.
  intros Hj. unfold row_at. destruct (j <? 0); [reflexivity |].
  rewrite lookup_app_l by lia. reflexivity.
Qed.

Lemma row_at_app_r (rows : list (option Row)) (o : option Row) :
  row_at (rows ++ [o]) (Z.of_nat (length rows)) = o.
Proof.
  unfold row_at. destruct (Z.ltb_spec (Z.of_nat (length rows)) 0); [lia |].
  rewrite Nat2Z.id, lookup_app_r by lia.
  now rewrite Nat.sub_diag.
Qed.

(** X13: [append] on a list that has been resolved (row [j] of length
    [L j] starting at [P j], content length [P N], a window) puts the new
    row at the end with the content length as its start, attaches its node
    as the last child of the root, adds its length to the content length
    and leaves the window as it was.  The layout it leaves is the one a
    full resolve computes: [_renderRows] run right after gives every row
    the same start and length, and the same content length. *)
Theorem append_agrees_with_resolve (s : HyperList) (N : Z) (L P : Z -> Z)
    (w : Window) (row : Row) (n : node) (l : Z) :
  offsets N L P ->
  geometry N L P (_rows s) ->
  _contentLength s = Some (P N) ->
  _window s = Some w ->
  _renderRow s = default_renderer ->
  row_node row = Some n ->
  row_length row = Some l ->
  exists s1 s2,
    append row s = Return s1 tt
    /\ _renderRows s1 = Return s2 tt
    /\ _rows s1
       = _rows s
         ++ [Some {| row_node := Some n; row_length := Some l;
                     row_start := Some (P N);
                     row_visible := ilt (Some (P N)) (win_end w) |}]
    /\ children (_root s1)
       = filter (fun m => m <> n) (children (_root s)) ++ [n]
    /\ _contentLength s1 = Some (P N + l)
    /\ _window s1 = Some w
    /\ _contentLength s2 = _contentLength s1
    /\ forall j, 0 <= j <= N ->
         exists r1 r2,
           row_at (_rows s1) j = Some r1
           /\ row_at (_rows s2) j = Some r2
           /\ row_start r2 = row_start r1
           /\ row_length r2 = row_length r1.
Proof.
  intros Hoff Hg Hc Hw Hrender Hnode Hlen.
  pose proof Hg as [HN Hrows].
  set (row' := {| row_node := Some n; row_length := Some l;
                  row_start := Some (P N);
                  row_visible := ilt (Some (P N)) (win_end w) |}).
  set (L' := fun j => if j =? N then l else L j).
  set (P' := fun j => if j <=? N then P j else P N + l).
  assert (Hoff' : offsets (N + 1) L' P').
  { destruct Hoff as [P0 Pstep]. split.
    - unfold P'. replace (0 <=? N) with true by lia. exact P0.
    - intros j Hj. unfold P', L'.
      destruct (Z.eq_dec j N) as [-> | Hne].
      + replace (N + 1 <=? N) with false by lia.
        replace (N <=? N) with true by lia.
        replace (N =? N) with true by lia. reflexivity.
      + replace (j + 1 <=? N) with true by lia.
        replace (j <=? N) with true by lia.
        replace (j =? N) with false by lia. apply Pstep. lia. }
  assert (Happend : append row s
                    = Return (with_contentLength (Some (P N + l))
                                (with_root (appendChild n (_root s))
                                   (with_rows (_rows s ++ [Some row']) s)))
                             tt).
  { destruct row as [rn rl rs rv]. cbn in Hnode, Hlen. subst rn rl.
    unfold append. cbn [row_length].
    cbn [_window with_rows _rows _contentLength]. rewrite Hw, Hc.
    cbn [row_node set_visible set_start set_length row_length row_start
         row_visible iadd].
    unfold row_put.
    destruct (Z.ltb_spec (Z.of_nat (length (_rows s))) 0); [lia |].
    rewrite Nat2Z.id, insert_app_r_alt by lia.
    rewrite Nat.sub_diag. reflexivity. }
  assert (Hg1 : geometry (N + 1) L' P' (_rows s ++ [Some row'])).
  { split; [rewrite length_app; simpl; lia |].
    intros j Hj. destruct (Z.eq_dec j N) as [Hjn | Hne].
    - subst j.
      replace (row_at (_rows s ++ [Some row']) N) with (Some row')
        by (rewrite <- HN; symmetry; apply row_at_app_r).
      exists row'.
      split; [reflexivity |]. unfold L', P'.
      replace (N <=? N) with true by lia. replace (N =? N) with true by lia.
      cbn. eauto.
    - rewrite row_at_app_l by lia.
      destruct (Hrows j ltac:(lia)) as (r & Hr & Hs & Hl & Hn).
      exists r. unfold L', P'.
      replace (j <=? N) with true by lia. replace (j =? N) with false by lia.
      auto. }
  destruct (renderRows_spec
              (with_contentLength (Some (P N + l))
                 (with_root (appendChild n (_root s))
                    (with_rows (_rows s ++ [Some row']) s)))
              (N + 1) L' P' Hoff' Hrender
              (geometry_renderable _ _ _ _ Hg1))
    as (s2 & f2 & l2 & H2 & _ & [_ Hrows2] & _ & Hlen2 & _).
  eexists _, s2. split; [exact Happend |]. split; [exact H2 |].
  cbn [_rows _root _contentLength _window with_contentLength with_root
       with_rows appendChild set_children children].
  split; [reflexivity |]. split; [reflexivity |]. split; [reflexivity |].
  split; [exact Hw |]. split.
  { rewrite Hlen2. unfold P'. now replace (N + 1 <=? N) with false by lia. }
  intros j Hj. destruct Hg1 as [_ Hrows1].
  destruct (Hrows1 j ltac:(lia)) as (r1 & Hr1 & Hs1 & Hl1 & _).
  destruct (Hrows2 j ltac:(lia)) as (r2 & Hr2 & Hs2 & Hl2 & _).
  exists r1, r2. split; [exact Hr1 |]. split; [exact Hr2 |].
  split; congruence.
Qed.

End AppendResolved.

Section AppendResolvedExamples.
Import LibIndex Layout.

(** A row of 25 pixels appended to the ten resolved rows of 10 pixels
    starts at 100 and brings the content length to 125. *)
Lemma append_agrees_with_resolve_witness :
  exists s1 s2,
    append (Demo.row 10 25) Demo.ten_rows = Return s1 tt
    /\ _renderRows s1 = Return s2 tt
    /\ _contentLength s1 = Some 125
    /\ _contentLength s2 = Some 125.
Proof.
  destruct ten_rows_geometry as [Hoff Hg].
  destruct (append_agrees_with_resolve Demo.ten_rows 10 (fun _ => 10)
              (fun j => 10 * j)
              {| win_start := Some 0; win_end := Some 30;
                 win_first := 0; win_last := 2 |}
              (Demo.row 10 25) 10%nat 25 Hoff Hg)
    as (s1 & s2 & H1 & H2 & _ & _ & H5 & _ & H7 & _);
    try reflexivity.
  exists s1, s2. split; [exact H1 |]. split; [exact H2 |].
  split; [exact H5 |]. rewrite H7. exact H5.
Defined.

End AppendResolvedExamples.


(** ** The children of the root after a full resolve *)

Section ResolvedChildren.
Import LibIndex Layout Tracking.

Lemma filter_absent (n : node) (c : list node) :
  n ∉ c -> filter (fun m => m <> n) c = c.
Proof.
  induction c as [| m c IH]; intros Hn; [reflexivity |].
  apply not_elem_of_cons in Hn as [Hne Hn].
  rewrite filter_cons_True by congruence. now rewrite IH.
Qed.

(** Attaching distinct nodes that are not yet children appends them in
    order. *)
Lemma attach_all (ns c : list node) :
  NoDup ns ->
  (forall m, m ∈ ns -> m ∉ c) ->
  foldl (fun c n => filter (fun m => m <> n) c ++ [n]) c ns = c ++ ns.
Proof.
  revert c. induction ns as [| n ns IH]; intros c Hnd Hfresh.
  - simpl. now rewrite app_nil_r.
  - apply NoDup_cons in Hnd as [Hn Hnd]. cbn [foldl].
    rewrite filter_absent by (apply Hfresh; left).
    rewrite IH; [now rewrite <- app_assoc | exact Hnd |].
    intros m Hm Hin. apply elem_of_app in Hin as [Hin | Hin].
    + apply (Hfresh m); [now right | exact Hin].
    + apply list_elem_of_singleton in Hin as ->. contradiction.
Qed.

Lemma row_nodes_cons (r : Row) (n : node) (rows : list (option Row)) :
  row_node r = Some n -> row_nodes (Some r :: rows) = n :: row_nodes rows.
Proof. intros H. unfold row_nodes. cbn. now rewrite H. Qed.

Lemma row_nodes_put (rows : list (option Row)) (i : Z) (r r' : Row) :
  row_at rows i = Some r ->
  row_node r' = row_node r ->
  row_nodes (row_put rows i r') = row_nodes rows.
Proof.
  unfold row_at, row_put. destruct (i <? 0); [discriminate |].
  intros Hr Hn.
  destruct (rows !! Z.to_nat i) as [[r0 |] |] eqn:E; try discriminate Hr.
  injection Hr as ->.
  rewrite <- (take_drop_middle rows (Z.to_nat i) (Some r) E) at 2.
  rewrite insert_take_drop by (eapply lookup_lt_Some; eauto).
  unfold row_nodes. rewrite !omap_app. cbn. now rewrite Hn.
Qed.

(** One step of the loop of [_renderRows] on a row that has a node and a
    length, with the default renderer. *)
Lemma render_step_attach (start end_ i : Z) (a : Layout) (r : Row)
    (nd : node) (l : Z) :
  _renderRow (lay_list a) = default_renderer ->
  row_at (_rows (lay_list a)) i = Some r ->
  row_node r = Some nd -> row_length r = Some l ->
  exists a',
    render_step start end_ i a = Return a' tt
    /\ _renderRow (lay_list a') = default_renderer
    /\ children (_root (lay_list a'))
       = filter (fun m => m <> nd) (children (_root (lay_list a))) ++ [nd]
    /\ row_nodes (_rows (lay_list a')) = row_nodes (_rows (lay_list a))
    /\ length (_rows (lay_list a')) = length (_rows (lay_list a))
    /\ forall j, j <> i ->
         row_at (_rows (lay_list a')) j = row_at (_rows (lay_list a)) j.
Proof.
  intros Hrender Hr Hnd Hl. unfold render_step. rewrite Hr, Hrender.
  cbn [default from_option id]. unfold default_renderer. rewrite Hnd.
  cbn [row_length set_node]. rewrite Hl.
  eexists. split; [reflexivity |].
  cbn [lay_list _renderRow _root _rows with_root with_rows appendChild
       set_children children].
  split; [exact Hrender |]. split; [reflexivity |].
  split; [apply (row_nodes_put _ i r); [exact Hr | now rewrite Hnd] |].
  split; [apply length_row_put |].
  intros j Hj. now apply row_at_put_ne.
Qed.

Lemma render_loop_attach (start end_ : Z) (n : nat) (i : Z) (a : Layout) :
  _renderRow (lay_list a) = default_renderer ->
  0 <= i ->
  (forall j, i <= j < i + Z.of_nat n ->
     exists r nd l, row_at (_rows (lay_list a)) j = Some r
                    /\ row_node r = Some nd /\ row_length r = Some l) ->
  exists a',
    for_each n i (render_step start end_) a = Return a' tt
    /\ children (_root (lay_list a'))
       = foldl (fun c m => filter (fun k => k <> m) c ++ [m])
               (children (_root (lay_list a)))
               (row_nodes (take n (drop (Z.to_nat i) (_rows (lay_list a)))))
    /\ row_nodes (_rows (lay_list a')) = row_nodes (_rows (lay_list a)).
Proof.
  revert i a. induction n as [| n IH]; intros i a Hrender Hi Hrows.
  - exists a. split; [reflexivity |]. split; reflexivity.
  - destruct (Hrows i ltac:(lia)) as (r & nd & l & Hr & Hnd & Hl).
    destruct (render_step_attach start end_ i a r nd l Hrender Hr Hnd Hl)
      as (a1 & Hstep & Hrender1 & Hc1 & Hn1 & Hlen1 & Hkeep1).
    cbn [for_each]. rewrite Hstep.
    destruct (IH (i + 1) a1 Hrender1 ltac:(lia)) as (a2 & Hloop & Hc2 & Hn2).
    { intros j Hj. rewrite Hkeep1 by lia. apply Hrows. lia. }
    exists a2. split; [exact Hloop |]. split; [| congruence].
    rewrite Hc2, Hc1.
    assert (Hlook : _rows (lay_list a) !! Z.to_nat i = Some (Some r)).
    { unfold row_at in Hr. destruct (i <? 0); [discriminate |].
      destruct (_rows (lay_list a) !! Z.to_nat i) as [[r0 |] |];
        try discriminate Hr. now injection Hr as ->. }
    rewrite (drop_S _ _ _ Hlook). cbn [take].
    rewrite (row_nodes_cons r nd) by exact Hnd. cbn [foldl].
    replace (Z.to_nat (i + 1)) with (S (Z.to_nat i)) by lia.
    f_equal. f_equal. f_equal.
    apply list_eq. intros k. rewrite !lookup_drop.
    specialize (Hkeep1 (Z.of_nat (S (Z.to_nat i) + k)) ltac:(lia)).
    unfold row_at in Hkeep1.
    destruct (Z.ltb_spec (Z.of_nat (S (Z.to_nat i) + k)) 0); [lia |].
    rewrite Nat2Z.id in Hkeep1.
    destruct (_rows (lay_list a1) !! (S (Z.to_nat i) + k)%nat) as [o1 |] eqn:E1;
      destruct (_rows (lay_list a) !! (S (Z.to_nat i) + k)%nat) as [o |] eqn:E;
      cbn in Hkeep1.
    + now rewrite Hkeep1.
    + apply lookup_lt_Some in E1. apply lookup_ge_None in E. lia.
    + apply lookup_lt_Some in E. apply lookup_ge_None in E1. lia.
    + reflexivity.
Qed.

Lemma renderable_rows (N : Z) (L : Z -> Z) (rows : list (option Row)) :
  renderable N L rows ->
  forall j, 0 <= j < 0 + Z.of_nat (length rows) ->
    exists r nd l, row_at rows j = Some r
                   /\ row_node r = Some nd /\ row_length r = Some l.
Proof.
  intros [Hlen Hrows] j Hj.
  destruct (Hrows j ltac:(lia)) as (r & Hr & Hl & [nd Hnd]). eauto 10.
Qed.

(** X14: the nodes a full resolve attaches.  On a list whose rows all
    have a node and a length, with the default renderer, [_renderRows]
    returns with the nodes of the rows unchanged and, when these nodes are
    distinct and none of them is a child of the root yet, with the root's
    previous children followed by the rows' nodes in row order.
    [refresh()] with the current row count, on such a list of at least one
    row, first empties the root: it returns with exactly the rows' nodes
    as children, in row order, a content length equal to the sum of the
    row lengths, a window, and the refresh loop scheduled. *)
Theorem resolve_attaches_rows (s : HyperList) (N : Z) (L : Z -> Z) :
  _renderRow s = default_renderer ->
  renderable N L (_rows s) ->
  NoDup (row_nodes (_rows s)) ->
  (forall m, m ∈ row_nodes (_rows s) -> m ∉ children (_root s)) ->
  (exists s1,
      _renderRows s = Return s1 tt
      /\ row_nodes (_rows s1) = row_nodes (_rows s)
      /\ children (_root s1) = children (_root s) ++ row_nodes (_rows s))
  /\ (forall options,
        opt_renderRow options = None ->
        opt_rowCount options = None \/ opt_rowCount options = Some N ->
        1 <= N ->
        exists s2,
          refresh options s = Return s2 tt
          /\ row_nodes (_rows s2) = row_nodes (_rows s)
          /\ children (_root s2) = row_nodes (_rows s)
          /\ content_invariant s2
          /\ is_Some (_window s2)
          /\ _refreshLoop s2 = true).
Proof.
  intros Hrender Hrows Hnd Hfresh.
  assert (Hrun : forall t : HyperList,
             _renderRow t = default_renderer ->
             _rows t = _rows s ->
             (forall m, m ∈ row_nodes (_rows s) -> m ∉ children (_root t)) ->
             exists t1,
               _renderRows t = Return t1 tt
               /\ row_nodes (_rows t1) = row_nodes (_rows s)
               /\ children (_root t1)
                  = children (_root t) ++ row_nodes (_rows s)
               /\ content_invariant t1
               /\ is_Some (_window t1)
               /\ _refreshLoop t1 = _refreshLoop t).
  { intros t Ht Hsame Hfresh'.
    destruct (render_loop_attach
                (scrollTop (_root t) - _padding t)
                (scrollTop (_root t) + clientHeight (_root t) + _padding t)
                (length (_rows t)) 0
                {| lay_list := t; lay_len := 0; lay_first := -1;
                   lay_last := -1 |} Ht ltac:(lia))
      as (a & Hloop & Hc & Hn).
    { cbn [lay_list]. rewrite Hsame. eapply renderable_rows. exact Hrows. }
    cbn [lay_list] in Hc, Hn.
    assert (Hslice : take (length (_rows t)) (drop (Z.to_nat 0) (_rows t))
                     = _rows s).
    { rewrite Hsame. change (Z.to_nat 0) with 0%nat. cbn [drop].
      apply take_ge. lia. }
    rewrite Hslice in Hc. rewrite Hsame in Hn.
    rewrite (attach_all _ _ Hnd Hfresh') in Hc.
    destruct (renderRows_content t N L Ht) as (t1 & H1 & Hinv);
      [now rewrite Hsame |].
    pose proof H1 as H1'. unfold _renderRows in H1'. rewrite Hloop in H1'.
    injection H1' as E1.
    exists t1. split; [exact H1 |]. rewrite <- E1.
    cbn [_rows _root _window _refreshLoop with_window with_contentLength].
    split; [exact Hn |]. split; [exact Hc |].
    split; [rewrite E1; exact Hinv |]. split; [eauto |].
    clear - Hloop Ht Hsame Hrows.
    assert (Hkeep : _refreshLoop (lay_list a) = _refreshLoop t).
    { destruct (renderRows_spec t N (length_at (_rows t)) (offset_at (_rows t)))
        as (t2 & f & l & H2 & Hset & _).
      - pose proof (offsets_of_rows (_rows t)) as Hoff.
        destruct Hrows as [HlenN _]. rewrite Hsame, HlenN in Hoff.
        now rewrite Hsame.
      - exact Ht.
      - rewrite Hsame. now apply renderable_own_lengths with (L := L).
      - unfold _renderRows in H2. rewrite Hloop in H2. injection H2 as E2.
        destruct Hset as (_ & _ & _ & Hloop' & _). rewrite <- E2 in Hloop'.
        exact Hloop'. }
    exact Hkeep. }
  split.
  - destruct (Hrun s Hrender eq_refl Hfresh)
      as (s1 & H1 & H2 & H3 & _). eauto.
  - intros options Hopt Hcount HN.
    assert (HlenN : Z.of_nat (length (_rows s)) = N) by (now destruct Hrows).
    unfold refresh.
    assert (Hfirst : (match opt_rowCount options with
                      | Some rowCount =>
                          if rowCount =? Z.of_nat (length (_rows s))
                          then Return s (Z.of_nat (length (_rows s)))
                          else
                            bind (if rowCount <? Z.of_nat (length (_rows s))
                                  then _removeRows rowCount
                                         (Z.of_nat (length (_rows s)) - 1) s
                                  else Return s tt)
                              (fun s _ =>
                                 if Part001.valid_array_length rowCount then
                                   let rows := _rows s in
                                   let n := Z.to_nat rowCount in
                                   Return (with_rows
                                             (take n rows
                                              ++ replicate (n - length rows)%nat
                                                   None) s)
                                          rowCount
                                 else Throw s (RangeError "Invalid array length"))
                      | None => Return s (Z.of_nat (length (_rows s)))
                      end) = Return s N).
    { destruct Hcount as [-> | ->]; [now rewrite HlenN |].
      rewrite HlenN, Z.eqb_refl. reflexivity. }
    cbv zeta in Hfirst |- *. rewrite Hfirst. cbn [bind]. rewrite Hopt.
    replace (N =? 0) with false by lia.
    match goal with
    | |- context [_renderRows ?t] =>
        destruct (Hrun t) as (t1 & H1 & H2 & H3 & H4 & H5 & H6)
    end.
    + destruct (opt_rowLength options); exact Hrender.
    + destruct (opt_rowLength options); reflexivity.
    + intros m _. cbn. apply not_elem_of_nil.
    + rewrite H1. cbn [bind]. eexists. split; [reflexivity |].
      cbn [_rows _root _window _refreshLoop with_refreshLoop].
      split; [exact H2 |]. split; [exact H3 |].
      split; [| split; [exact H5 | reflexivity]].
      destruct H4 as [Hm Hc]. split; [exact Hm | exact Hc].
Qed.

End ResolvedChildren.


Section ResolvedChildrenExamples.
Import LibIndex Layout Tracking.

(** Three rows appended to a new list: the first full resolve attaches
    their nodes 0, 1, 2 in that order. *)
Lemma resolve_attaches_rows_witness :
  exists s1,
    _renderRows Demo.three_pending = Return s1 tt
    /\ children (_root s1) = [0; 1; 2]%nat.
Proof.
  destruct (resolve_attaches_rows Demo.three_pending 3
              (length_at (_rows Demo.three_pending)))
    as [(s1 & H1 & _ & H3) _].
  - reflexivity.
  - refine (proj1 (ready_renderable _ _)). apply ready_Forall.
    cbv [Demo.three_pending _rows].
    repeat (apply List.Forall_cons;
            [eexists _, _; split; [reflexivity |]; split; [reflexivity |];
             split; [lia | eexists; reflexivity] |]).
    apply List.Forall_nil.
  - apply (bool_decide_unpack _). vm_compute. exact I.
  - intros m _. vm_compute. apply not_elem_of_nil.
  - exists s1. split; [exact H1 |]. rewrite H3. reflexivity.
Defined.

End ResolvedChildrenExamples.


(** ** A full resolve that fails *)

Section ResolveFailure.
Import LibIndex Layout.

Lemma for_each_outcome {S : Type} (Q : S -> Prop) (E : S -> error -> Prop)
    (body : Z -> S -> outcome S unit) :
  (forall i s, Q s ->
     match body i s with
     | Return s' _ => Q s'
     | Throw s' e => E s' e
     end) ->
  forall n i s, Q s ->
    match for_each n i body s with
    | Return s' _ => Q s'
    | Throw s' e => E s' e
    end.
Proof.
  intros Hbody n. induction n as [| n IH]; intros i s Hs; [exact Hs |].
  cbn [for_each]. specialize (Hbody i s Hs).
  destruct (body i s) as [s' [] | s' e]; [now apply IH | exact Hbody].
Qed.

(** X15: with a well-behaved callback, a full resolve can only fail on a
    row length.  Take a [renderRow] callback that returns without
    throwing, and returns an element node or a falsy value (the callbacks
    of type [renderer]), on rows that are objects or holes.  When
    [_renderRows] throws, the exception is "Must provide a row length",
    the list has no usable default row length, and the call has not
    reached the two assignments that end it: the window and the content
    length are still the ones of before the call, whatever was laid out on
    the way; the settings of the list and the scroll position are
    untouched. *)
Theorem renderRows_failure (s s' : HyperList) (e : error) :
  _renderRows s = Throw s' e ->
  e = Error "Must provide a row length"
  /\ itruthy (_rowLength s) = false
  /\ _window s' = _window s
  /\ _contentLength s' = _contentLength s
  /\ _rowLength s' = _rowLength s
  /\ _padding s' = _padding s
  /\ scrollTop (_root s') = scrollTop (_root s)
  /\ clientHeight (_root s') = clientHeight (_root s)
  /\ length (_rows s') = length (_rows s).
Proof.
  unfold _renderRows.
  set (start := scrollTop (_root s) - _padding s).
  set (end_ := scrollTop (_root s) + clientHeight (_root s) + _padding s).
  set (Q := fun a : Layout =>
              _window (lay_list a) = _window s
              /\ _contentLength (lay_list a) = _contentLength s
              /\ _rowLength (lay_list a) = _rowLength s
              /\ _padding (lay_list a) = _padding s
              /\ scrollTop (_root (lay_list a)) = scrollTop (_root s)
              /\ clientHeight (_root (lay_list a)) = clientHeight (_root s)
              /\ length (_rows (lay_list a)) = length (_rows s)).
  pose proof (for_each_outcome Q
                (fun a err => err = Error "Must provide a row length"
                              /\ itruthy (_rowLength s) = false /\ Q a)
                (render_step start end_)) as Hloop.
  specialize (Hloop ltac:(
    intros i a (H1 & H2 & H3 & H4 & H5 & H6 & H7);
    unfold render_step;
    destruct (_renderRow (lay_list a) i _) as [row [n |]];
    [ cbn [row_length set_node];
      destruct (row_length row) as [l |];
      [ unfold Q; cbn; rewrite length_row_put; auto 10
      | rewrite H3; destruct (itruthy (_rowLength s)) eqn:Et;
        [ destruct (_rowLength s) as [l |]; [| discriminate Et];
          unfold Q; cbn; rewrite length_row_put; auto 10
        | split; [reflexivity |]; split; [reflexivity |];
          unfold Q; cbn; rewrite length_row_put; auto 10 ] ]
    | unfold Q; cbn; rewrite length_row_put; auto 10 ])).
  specialize (Hloop (length (_rows s)) 0
                {| lay_list := s; lay_len := 0; lay_first := -1;
                   lay_last := -1 |}
                ltac:(unfold Q; cbn; auto 10)).
  destruct (for_each (length (_rows s)) 0 (render_step start end_) _)
    as [a [] | a err]; [discriminate |].
  intros [= <- <-]. destruct Hloop as (-> & Hfalsy & HQ).
  split; [reflexivity |]. split; [exact Hfalsy |]. exact HQ.
Qed.

End ResolveFailure.

Section ResolveFailureExamples.
Import LibIndex Layout.

(** The three resolved rows of 10 pixels followed by a row that has a node
    but no length, in a list without a default length, scrolled to 5: the
    resolve throws and the window still describes the offset 0. *)
Lemma renderRows_failure_witness :
  let s :=
    scroll_to 5
      (with_rows (_rows Demo.three
                  ++ [Some {| row_node := Some 3%nat; row_length := None;
                              row_start := None; row_visible := false |}])
                 Demo.three) in
  exists s',
    _renderRows s = Throw s' (Error "Must provide a row length")
    /\ _window s' = _window Demo.three
    /\ _contentLength s' = Some 30.
Proof.
  cbv zeta.
  match goal with
  | |- exists s', _renderRows ?s = _ /\ _ =>
      destruct (_renderRows s) as [s1 [] | s1 e] eqn:E;
        [vm_compute in E; discriminate E |];
        destruct (renderRows_failure s s1 e E) as (-> & _ & Hw & Hc & _)
  end.
  exists s1. split; [reflexivity |]. split; [exact Hw | exact Hc].
Defined.

End ResolveFailureExamples.


(** ** The window of a full resolve *)

Section ResolvedWindow.
Import LibIndex Layout.

(** X16: on rows that all have a node and a length, with the default
    renderer, [_renderRows] returns with every row marked visible exactly
    when it meets the padded viewport, that is when it starts before
    [scrollTop + clientHeight + padding] and ends after
    [scrollTop - padding]; the window it stores holds these two offsets,
    unclamped, together with the first and the last visible row, or -1 and
    -1 when no row is visible. *)
Theorem resolve_marks_viewport (s : HyperList) (N : Z) (L P : Z -> Z) :
  offsets N L P ->
  _renderRow s = default_renderer ->
  renderable N L (_rows s) ->
  let start := scrollTop (_root s) - _padding s in
  let end_ := scrollTop (_root s) + clientHeight (_root s) + _padding s in
  exists s1 first last,
    _renderRows s = Return s1 tt
    /\ (forall j r, 0 <= j < N -> row_at (_rows s1) j = Some r ->
          row_visible r = (P j <? end_) && (start <? P j + L j))
    /\ _window s1
       = Some {| win_start := Some start; win_end := Some end_;
                 win_first := first; win_last := last |}
    /\ ((first = -1 /\ last = -1
         /\ forall j r, 0 <= j < N -> row_at (_rows s1) j = Some r ->
              row_visible r = false)
        \/ (0 <= first <= last /\ last < N
            /\ (forall j r, 0 <= j < N -> row_at (_rows s1) j = Some r ->
                  row_visible r = true -> first <= j <= last)
            /\ exists rf rl,
                 row_at (_rows s1) first = Some rf /\ row_visible rf = true
                 /\ row_at (_rows s1) last = Some rl
                 /\ row_visible rl = true)).
Proof.
  intros Hoff Hrender Hrows. cbv zeta.
  destruct (renderRows_spec s N L P Hoff Hrender Hrows)
    as (s1 & first & last & H1 & _ & [Hlen Hgeo] & Hvis & _ & Hw & Hext).
  exists s1, first, last. split; [exact H1 |].
  assert (Hstep : forall j, 0 <= j < N -> P (j + 1) = P j + L j)
    by (destruct Hoff as [_ Pstep]; exact Pstep).
  split.
  { intros j r Hj Hr. rewrite (Hvis j r Hr Hj). unfold visible_at.
    now rewrite Hstep. }
  split; [exact Hw |].
  destruct Hext as [(-> & -> & Hnone) | (Hf & Hfl & Hl & Vf & Vl & Hall)].
  - left. split; [reflexivity |]. split; [reflexivity |].
    intros j r Hj Hr. rewrite (Hvis j r Hr Hj). now apply Hnone.
  - right. split; [lia |]. split; [exact Hl |]. split.
    + intros j r Hj Hr Hv. apply Hall; [exact Hj |].
      now rewrite <- (Hvis j r Hr Hj).
    + destruct (Hgeo first ltac:(lia)) as (rf & Hrf & _).
      destruct (Hgeo last ltac:(lia)) as (rl & Hrl & _).
      exists rf, rl. split; [exact Hrf |].
      split; [rewrite (Hvis first rf Hrf) by lia; exact Vf |].
      split; [exact Hrl |]. rewrite (Hvis last rl Hrl) by lia. exact Vl.
Qed.

End ResolvedWindow.

Section ResolvedWindowExamples.
Import LibIndex Layout.

(** Ten rows of 10 pixels in a viewport of 30 at the offset 50: the
    window is [50, 80) and holds the rows 5 to 7. *)
Lemma resolve_marks_viewport_witness :
  exists s1 first last,
    _renderRows (scroll_to 50 Demo.ten_rows) = Return s1 tt
    /\ _window s1
       = Some {| win_start := Some 50; win_end := Some 80;
                 win_first := first; win_last := last |}
    /\ first = 5 /\ last = 7.
Proof.
  destruct ten_rows_geometry as [Hoff Hg].
  destruct (resolve_marks_viewport (scroll_to 50 Demo.ten_rows) 10
              (fun _ => 10) (fun j => 10 * j) Hoff eq_refl
              (geometry_renderable _ _ _ _ Hg))
    as (s1 & first & last & H1 & _ & Hw & _).
  exists s1, first, last. split; [exact H1 |]. split; [exact Hw |].
  vm_compute in H1. injection H1 as <-. cbn in Hw.
  injection Hw as <- <-. split; reflexivity.
Defined.

End ResolvedWindowExamples.


(** ** Two tracker runs at the same scroll position *)

Section TrackerSettles.
Import LibIndex Tracking.

Lemma hide_leading_first (fuel : nat) (win : Window) (start : Z) (i : Z)
    (len : inum) (s t : HyperList) (i' f : Z) :
  hide_leading fuel win start i len s = Return t (i', f) ->
  (f = i /\ t = s) \/ f = -1 \/ i < f.
Proof.
  revert i len s. induction fuel as [| fuel IH]; intros i len s;
    cbn [hide_leading];
    (destruct (row_at (_rows s) i); [| discriminate]);
    (destruct (ile _ _); [| intros [= <- <- <-]; now left]);
    (destruct (_hideRow i s) as [s1 [] | s1 e]; [| discriminate]);
    cbn [bind].
  - intros [= <- <- <-]. right. now left.
  - intros H. apply IH in H as [[-> _] | [-> | H]]; right; [right | left | right];
      lia.
Qed.

Lemma hide_trailing_last (fuel : nat) (win : Window) (end_ : inum) (i : Z)
    (len : inum) (s t : HyperList) (i' l : Z) :
  hide_trailing fuel win end_ i len s = Return t (i', l) ->
  (l = i - 1 /\ t = s) \/ l = -1 \/ l < i - 1.
Proof.
  revert i len s. induction fuel as [| fuel IH]; intros i len s;
    cbn [hide_trailing].
  - intros [= <- <- <-]. right. now left.
  - destruct (row_at (_rows s) (i - 1)); [| discriminate].
    destruct (ilt _ _); [intros [= <- <- <-]; now left |].
    destruct (_hideRow (i - 1) s) as [s1 [] | s1 e]; [| discriminate].
    cbn [bind]. intros H.
    apply IH in H as [[-> _] | [-> | H]]; right; [right | left | right]; lia.
Qed.

Lemma display_loop_index (fuel : nat) (direction endIndex : Z)
    (endLength : inum) (i : Z) (len : inum) (s t : HyperList) (r : Z) :
  display_loop fuel direction endIndex endLength i len s = Return t r ->
  0 <= r.
Proof.
  revert i len s. induction fuel as [| fuel IH]; intros i len s;
    [discriminate |].
  cbn [display_loop].
  destruct (row_at (_rows s) i) as [row |] eqn:Hr; [| discriminate].
  assert (Hi : 0 <= i).
  { unfold row_at in Hr. destruct (Z.ltb_spec i 0); [discriminate | lia]. }
  match goal with
  | |- bind ?m _ = _ -> _ => destruct m as [s1 [] | s1 e]; [| discriminate]
  end.
  cbn [bind]. cbv zeta.
  destruct (_ || _); [intros [= _ <-]; exact Hi | apply IH].
Qed.

Lemma displayRows_index (startIndex : Z) (endLength : inum) (direction : Z)
    (s t : HyperList) (r : Z) :
  _displayRows startIndex endLength direction s = Return t r -> 0 <= r.
Proof.
  unfold _displayRows. destruct (row_at (_rows s) startIndex); [| discriminate].
  apply display_loop_index.
Qed.

Lemma row_at_index (rows : list (option Row)) (i : Z) (r : Row) :
  row_at rows i = Some r -> 0 <= i.
Proof.
  unfold row_at. destruct (Z.ltb_spec i 0); [discriminate | lia].
Qed.

Lemma refresh_forward_result (win : Window) (start : Z) (end_ : inum)
    (s s1 : HyperList) :
  refresh_forward win start end_ s = Return s1 tt ->
  s1 = s
  \/ exists first last,
       _window s1 = Some {| win_start := Some start; win_end := end_;
                            win_first := first; win_last := last |}
       /\ 0 <= first.
Proof.
  unfold refresh_forward.
  assert (Hdisplay : forall first t,
             0 <= first ->
             bind (_displayRows first end_ 1 t)
               (fun t last =>
                  bind (if last <? win_last win
                        then hide_range (last + 1)
                               (Z.to_nat (win_last win - last)) t
                        else Return t tt)
                       (fun t _ => new_window start end_ first last t))
             = Return s1 tt ->
             exists first last,
               _window s1 = Some {| win_start := Some start; win_end := end_;
                                    win_first := first; win_last := last |}
               /\ 0 <= first).
  { intros first t Hfirst.
    destruct (_displayRows first end_ 1 t) as [t1 last | t1 e];
      [| discriminate].
    cbn [bind].
    match goal with
    | |- bind ?m _ = _ -> _ => destruct m as [t2 [] | t2 e]; [| discriminate]
    end.
    cbn [bind]. unfold new_window. intros [= <-].
    exists first, last. split; [reflexivity | exact Hfirst]. }
  destruct (Z.geb_spec (win_first win) 0) as [Hwf | Hwf].
  - destruct (hide_leading _ win start (win_first win) (win_start win) s)
      as [t [i first] | t e] eqn:Hhide; [| discriminate].
    cbn [bind fst snd].
    destruct (Z.ltb_spec first 0) as [Hneg | Hnonneg].
    + destruct (_findRow (Some i) (Some start) 1 t) as [t1 first1 | t1 e];
        [| discriminate].
      cbn [bind].
      destruct (row_at (_rows t1) first1) as [row |] eqn:Hrow; [| discriminate].
      destruct (ilt _ _); [discriminate |].
      intros H. right. apply (Hdisplay first1 t1); [| exact H].
      eapply row_at_index. exact Hrow.
    + destruct (_ && _) eqn:Efast.
      * intros [= <-]. left.
        apply andb_true_iff in Efast as [Efirst _].
        apply hide_leading_first in Hhide as [[_ ->] | [-> | Hgt]];
          [reflexivity | lia | lia].
      * intros H. right. now apply (Hdisplay first t).
  - cbn [bind]. discriminate.
Qed.

Lemma refresh_backward_result (win : Window) (start : Z) (end_ : inum)
    (s s1 : HyperList) :
  refresh_backward win start end_ s = Return s1 tt ->
  s1 = s
  \/ exists first last,
       _window s1 = Some {| win_start := Some start; win_end := end_;
                            win_first := first; win_last := last |}
       /\ 0 <= first.
Proof.
  unfold refresh_backward.
  assert (Hdisplay : forall last t,
             bind (_displayRows last (Some start) (-1) t)
               (fun t first =>
                  bind (if win_first win <? first
                        then hide_range (win_first win)
                               (Z.to_nat (first - win_first win)) t
                        else Return t tt)
                       (fun t _ => new_window start end_ first last t))
             = Return s1 tt ->
             exists first last,
               _window s1 = Some {| win_start := Some start; win_end := end_;
                                    win_first := first; win_last := last |}
               /\ 0 <= first).
  { intros last t.
    destruct (_displayRows last (Some start) (-1) t) as [t1 first | t1 e] eqn:Hd;
      [| discriminate].
    apply displayRows_index in Hd.
    cbn [bind].
    match goal with
    | |- bind ?m _ = _ -> _ => destruct m as [t2 [] | t2 e]; [| discriminate]
    end.
    cbn [bind]. unfold new_window. intros [= <-].
    exists first, last. split; [reflexivity | exact Hd]. }
  destruct (Z.geb_spec (win_first win) 0) as [Hwf | Hwf].
  - destruct (hide_trailing _ win end_ (win_last win + 1) (win_end win) s)
      as [t [i last] | t e] eqn:Hhide; [| discriminate].
    cbn [bind fst snd].
    destruct (Z.ltb_spec last 0) as [Hneg | Hnonneg].
    + destruct (_findRow (Some i) end_ (-1) t) as [t1 last1 | t1 e];
        [| discriminate].
      cbn [bind].
      destruct (row_at (_rows t1) last1); [| discriminate].
      destruct (igt _ _); [discriminate |].
      intros H. right. now apply (Hdisplay last1 t1).
    + destruct (_ && _) eqn:Efast.
      * intros [= <-]. left.
        apply andb_true_iff in Efast as [Elast _].
        apply hide_trailing_last in Hhide as [[_ ->] | [-> | Hlt]];
          [reflexivity | lia | lia].
      * intros H. right. now apply (Hdisplay last t).
  - cbn [bind]. discriminate.
Qed.

(** X17: the window tracker settles.  After a call of [_refreshWindow]
    that returns, a second call at the same scroll position returns at once
    and leaves the list exactly as the first call left it. *)
Theorem refreshWindow_settles (s s1 : HyperList) :
  _refreshWindow s = Return s1 tt ->
  _refreshWindow s1 = Return s1 tt.
Proof.
  intros Hrun. pose proof Hrun as Hrun0. unfold _refreshWindow in Hrun.
  destruct (_window s) as [win |] eqn:Hw; [| discriminate].
  destruct (_ && _) eqn:Efast; [injection Hrun as <-; exact Hrun0 |].
  set (start := Z.max 0 (scrollTop (_root s) - _padding s)) in *.
  set (end_ := imin (_contentLength s)
                 (Some (scrollTop (_root s) + clientHeight (_root s)
                        + _padding s))) in *.
  assert (Hres : s1 = s
                 \/ exists first last,
                      _window s1
                      = Some {| win_start := Some start; win_end := end_;
                                win_first := first; win_last := last |}
                      /\ 0 <= first).
  { destruct (igt _ _);
      [eapply refresh_forward_result | eapply refresh_backward_result];
      exact Hrun. }
  assert (Hsame : revealed s s1).
  { destruct (igt _ _).
    - pose proof (refresh_forward_reveals s win start end_ s (revealed_refl s))
        as H. now rewrite Hrun in H.
    - pose proof (refresh_backward_reveals s win start end_ s (revealed_refl s))
        as H. now rewrite Hrun in H. }
  destruct Hres as [-> | (first & last & Hw1 & Hfirst)]; [exact Hrun0 |].
  destruct Hsame as (rows' & w' & E & _).
  unfold _refreshWindow. rewrite Hw1.
  assert (Hstart : Z.max 0 (scrollTop (_root s1) - _padding s1) = start)
    by (rewrite E; reflexivity).
  rewrite Hstart. cbn [win_start win_first ieq].
  rewrite Z.eqb_refl. replace (first >=? 0) with true by lia. reflexivity.
Qed.

End TrackerSettles.

Section TrackerSettlesExamples.
Import LibIndex.

(** The six rows of 40 pixels scrolled from 0 to 50: the first call moves
    the window, the second changes nothing. *)
Lemma refreshWindow_settles_witness :
  let s1 := final_state (_refreshWindow (scroll_to 50 Demo.six)) in
  _window s1 <> _window Demo.six
  /\ _refreshWindow s1 = Return s1 tt.
Proof.
  cbv zeta. split; [vm_compute; discriminate |].
  apply (refreshWindow_settles (scroll_to 50 Demo.six)).
  vm_compute. reflexivity.
Defined.

End TrackerSettlesExamples.

(** ** A new list of uniform rows *)

Section UniformStart.
Import Chunk.

Lemma nlt_Fin (a b : Q) : nlt (Fin a) (Fin b) = true <-> (a < b)%Q.
Proof.
  unfold nlt, ncmp. rewrite Qlt_alt.
  destruct (a ?= b)%Q; split; congruence.
Qed.

Lemma computeScrollHeight_uniform (s : HyperList) (n : Z) (q c : Q) :
  itemCount (_config s) = Count n ->
  1 <= n ->
  _itemHeights s = Some (afill n (Fin q)) ->
  ~ (q == 0)%Q ->
  clientHeight (_element s) = Fin c ->
  exists a x,
    (a == q)%Q /\ (x == inject_Z n * q)%Q
    /\ Part001._computeScrollHeight s
       = Return (with_metrics (Fin c) (of_Z (Qceiling (c / q)))
                   (nmax (nor (_cachedItemsLen s) (Fin 0))
                         (nmul (of_Z (Qceiling (c / q))) (Fin 3)))
                   (Fin a) s)
                (Fin x).
Proof.
  intros Hn Hn1 Hh Hq Hc.
  unfold Part001._computeScrollHeight.
  rewrite Hh, Hn, Hc, asort_afill.
  pose proof (median_afill n q Hn1) as Hmed.
  destruct (median (afill n (Fin q)) (Count n)) as [a | | |] eqn:Ea;
    try contradiction.
  cbn [nsame] in Hmed.
  assert (Hscreen : nceil (ndiv (Fin c) (Fin a)) = of_Z (Qceiling (c / q))).
  { unfold ndiv.
    destruct (Qeq_bool a 0) eqn:E0.
    - apply Qeq_bool_iff in E0. rewrite Hmed in E0. contradiction.
    - cbn [nceil]. unfold of_Z. do 2 f_equal.
      apply Qceiling_comp. now rewrite Hmed. }
  unfold asum, afill.
  destruct (fold_sum_replicate q (Z.to_nat n) 0) as (x & -> & Hx).
  exists a, x. split; [exact Hmed |]. split.
  { rewrite Hx, Z2Nat.id by lia. ring. }
  rewrite Hscreen. reflexivity.
Qed.

Lemma cached_fresh (k : Z) :
  0 <= k ->
  exists cq, nmax (nor NaN (Fin 0)) (nmul (of_Z k) (Fin 3)) = Fin cq
             /\ (cq == inject_Z (3 * k))%Q.
Proof.
  intros Hk. unfold nor, truthy, nmul, of_Z, nmax, ncmp.
  destruct (0 ?= inject_Z k * 3)%Q eqn:E.
  - exists 0%Q. split; [reflexivity |].
    apply Qeq_alt in E. rewrite inject_Z_mult. rewrite E. ring.
  - eexists. split; [reflexivity |]. rewrite inject_Z_mult. ring.
  - exists 0%Q. split; [reflexivity |].
    apply Qgt_alt in E.
    assert (H : (inject_Z 0 <= inject_Z k)%Q) by (rewrite <- Zle_Qle; lia).
    change (inject_Z 0) with 0%Q in H. lra.
Qed.

Lemma rows_count_top (t : HyperList) (n K : Z) (cq : Q) :
  itemCount (_config t) = Count n ->
  _cachedItemsLen t = Fin cq ->
  (cq == inject_Z K)%Q ->
  0 <= K ->
  Part001.rows_count (Some 0) (Part001.clamp_to (Some 0) t)
  = Some (Z.to_nat (if n <? 2 * K then n else K)).
Proof.
  intros Hn Hc Hcq HK. unfold Part001.clamp_to. rewrite Hn, Hc.
  cbn [count_num Part001.index_num nadd of_Z].
  unfold ngt.
  destruct (Z.ltb_spec n (2 * K)) as [Hlt | Hge].
  - assert (H2 : nlt (of_Z n) (Fin (inject_Z 0 + cq + cq)) = true).
    { unfold of_Z. apply nlt_Fin. rewrite Hcq.
      assert (H : (inject_Z n < inject_Z (2 * K))%Q) by (rewrite <- Zlt_Qlt; lia).
      rewrite inject_Z_mult in H. change (inject_Z 0) with 0%Q.
      change (inject_Z 2) with 2%Q in H. lra. }
    rewrite H2, orb_true_r. unfold of_Z. cbn [Part001.rows_count].
    rewrite Qceiling_Z. f_equal. lia.
  - assert (H1 : nlt (of_Z n) (Fin (inject_Z 0 + cq)) = false).
    { apply not_true_iff_false. unfold of_Z. rewrite nlt_Fin, Hcq.
      assert (H : (inject_Z K <= inject_Z n)%Q) by (rewrite <- Zle_Qle; lia).
      change (inject_Z 0) with 0%Q. lra. }
    assert (H2 : nlt (of_Z n) (Fin (inject_Z 0 + cq + cq)) = false).
    { apply not_true_iff_false. unfold of_Z. rewrite nlt_Fin, Hcq.
      assert (H : (inject_Z (2 * K) <= inject_Z n)%Q)
        by (rewrite <- Zle_Qle; lia).
      rewrite inject_Z_mult in H. change (inject_Z 0) with 0%Q.
      change (inject_Z 2) with 2%Q in H. lra. }
    rewrite H1, H2. cbn [orb Part001.rows_count].
    assert (E : Qceiling (inject_Z 0 + cq) = K).
    { rewrite <- (Qceiling_Z K). apply Qceiling_comp. rewrite Hcq.
      change (inject_Z 0) with 0%Q. ring. }
    rewrite E. f_equal. lia.
Qed.

Lemma fill_positions_length (rev : bool) (sh : num) (hs : array) (m : nat)
    (i : Z) (ps : array) :
  0 <= i -> i + Z.of_nat m <= Z.of_nat (length ps) ->
  length (Part001.fill_positions rev sh hs m i ps) = length ps.
Proof.
  revert i ps. induction m as [| m IH]; intros i ps Hi Hm; [reflexivity |].
  cbn [Part001.fill_positions].
  assert (Hset : forall v, length (aset ps i v) = length ps).
  { intros v. unfold aset. destruct (Z.ltb_spec i 0); [lia |].
    destruct (Nat.ltb_spec (Z.to_nat i) (length ps)); [| lia].
    apply length_insert. }
  rewrite IH; [apply Hset | lia | rewrite Hset; lia].
Qed.

(** The positions computed from a table of zeros over uniform heights:
    row [j] is placed at [j * q]. *)
Lemma fill_uniform (sh : num) (n : Z) (q : Q) :
  1 <= n ->
  forall j, 0 <= j < n ->
    exists p,
      aget (Part001.fill_positions false sh (afill n (Fin q))
              (Part001.loop_count 1 (Count n)) 1 (afill n (Fin 0))) j
      = Fin p
      /\ (p == inject_Z j * q)%Q.
Proof.
  intros Hn.
  destruct (fill_forward sh (afill n (Fin q)) (afill n (Fin 0)) 1 n ltac:(lia))
    as [Hkeep Hstep].
  intros j Hj. assert (Hj0 : 0 <= j) by lia. revert Hj.
  pattern j. apply natlike_ind; [| | exact Hj0]; clear j Hj0.
  - intros _. exists 0%Q. split; [| simpl; ring].
    rewrite Hkeep by lia. apply aget_afill. lia.
  - intros j Hj0 IH Hj. destruct (IH ltac:(lia)) as (p & Hp & Hpq).
    exists (q + p)%Q. split.
    + rewrite Hstep by lia. replace (Z.succ j - 1) with j by lia.
      rewrite Hp, aget_afill by lia. reflexivity.
    + rewrite Hpq. unfold Z.succ. rewrite inject_Z_plus. ring.
Qed.

Section UniformStartInner.
Variables (gen : Z -> generated) (f : Z -> node).
Hypothesis gen_nodes : forall i, gen i = GenNode (f i).

Lemma renderChunk_top (force : bool) (t : HyperList) (ps : array) (n K : Z)
    (cq : Q) :
  generate (_config t) = Function gen ->
  is_Some (_itemHeights t) ->
  _itemPositions t = Some ps ->
  ps !! 0%nat = Some (Some (Fin 0)) ->
  reverse (_config t) = false ->
  overrideScrollPosition (_config t) = None ->
  scrollTop (_element t) = Fin 0 ->
  itemCount (_config t) = Count n ->
  _cachedItemsLen t = Fin cq ->
  (cq == inject_Z K)%Q ->
  0 <= K -> 0 <= n ->
  Part001._renderChunk force t
  = if negb force && nseq (_lastFrom t) (of_Z 0) then Return t false
    else Return (with_children (f <$> seqZ 0 (if n <? 2 * K then n else K))
                   (with_lastFrom (of_Z 0) t)) true.
Proof.
  intros Hg Hh Hp Hp0 Hrev Hover Htop Hn Hc Hcq HK Hn0.
  unfold Part001._renderChunk, Part001._getScrollPosition, Part001._getFrom.
  rewrite Hrev, Hover, Htop, Hp.
  destruct ps as [| [p |] rest]; try discriminate Hp0.
  injection Hp0 as ->. cbn [Part001.scan_from bind fst].
  replace (nlt (Fin 0) (Fin 0)) with false by reflexivity.
  cbn [fst]. unfold Part001.render_from.
  replace (Part001.clamp_from (Some (0 - 1)) t) with (Some 0) by reflexivity.
  cbn [Part001.index_num default].
  destruct (negb force && nseq (_lastFrom t) (of_Z 0)); [reflexivity |].
  rewrite clamp_to_lastFrom, (rows_count_top t n K cq Hn Hc Hcq HK).
  unfold id.
  destruct (row_loop_nodes gen f gen_nodes
              (Z.to_nat (if n <? 2 * K then n else K)) 0
              (with_lastFrom (of_Z 0) t) [] Hg Hh
              ltac:(cbn; rewrite Hp; eauto)) as [-> _].
  rewrite Z2Nat.id by (destruct (n <? 2 * K); lia). reflexivity.
Qed.

(** A new list of uniform rows of a rational height [q], in the exact
    arithmetic of the model. *)
Lemma construct_uniform_rational (n : Z) (q c : Q) :
  1 <= n <= 4294967295 -> (0 < q)%Q -> (0 <= c)%Q ->
  let rows_per_screen := Qceiling (c / q) in
  let cached := 3 * rows_per_screen in
  exists s,
    Part001.construct
      {| nodeType := 1; scrollTop := Fin 0; clientHeight := Fin c |}
      (Some {| new_generate := Some (Function gen);
               new_itemCount := Some (Count n);
               new_itemHeight := Some (HeightNumber (Fin q));
               new_useFragment := None; new_reverse := None;
               new_overrideScrollPosition := None |})
    = Return s tt
    /\ _children s = f <$> seqZ 0 (if n <? 2 * cached then n else cached)
    /\ _itemHeights s = Some (afill n (Fin q))
    /\ (exists ps, _itemPositions s = Some ps
                   /\ Z.of_nat (length ps) = n
                   /\ forall j, 0 <= j < n ->
                        nsame (aget ps j) (Fin (inject_Z j * q)))
    /\ nsame (_scrollHeight s) (Fin (inject_Z n * q))
    /\ _screenItemsLen s = of_Z rows_per_screen
    /\ nsame (_cachedItemsLen s) (of_Z cached)
    /\ _lastFrom s = of_Z 0
    /\ _lastRepaint s = Some (Fin 0).
Proof.
  intros Hn Hq Hc. cbv zeta.
  set (element := {| nodeType := 1; scrollTop := Fin 0; clientHeight := Fin c |}).
  set (k := Qceiling (c / q)).
  assert (Hk : 0 <= k).
  { unfold k. rewrite <- (Qceiling_Z 0). apply Qceiling_resp_le.
    change (inject_Z 0) with 0%Q. apply Qle_shift_div_l; [exact Hq | lra]. }
  unfold Part001.construct. cbn [nodeType element Z.eqb Pos.eqb].
  fold element.
  unfold Part001.refresh. cbn [nodeType element Z.eqb Pos.eqb bind].
  fold element.
  unfold Part001.configure, Part001.merge_config, assign.
  cbn [_config with_config with_element Part001.blank empty_config
       new_generate new_itemCount new_itemHeight new_useFragment new_reverse
       new_overrideScrollPosition default from_option id
       generate itemCount itemHeight useFragment set_useFragment
       bool_decide decide_rel is_Some].
  replace (Part001.valid_array_length n) with true
    by (unfold Part001.valid_array_length; lia).
  cbn [isNumber is_nan negb orb bind]. rewrite orb_true_r. cbn [bind].
  set (s1 := with_itemHeights (Some (afill n (Fin q))) _).
  destruct (computeScrollHeight_uniform s1 n q c eq_refl ltac:(lia) eq_refl
              ltac:(lra) eq_refl) as (a & x & Ha & Hx & ->).
  cbn [bind].
  assert (Hcached : exists cq,
             nmax (nor (_cachedItemsLen s1) (Fin 0)) (nmul (of_Z k) (Fin 3))
             = Fin cq /\ (cq == inject_Z (3 * k))%Q)
    by (apply cached_fresh; exact Hk).
  destruct Hcached as (cq & Ecq & Hcq). fold k. rewrite Ecq.
  set (s2 := with_scrollHeight (Fin x) _).
  unfold Part001.fresh_positions.
  cbn [_itemPositions _config itemCount s2 s1 with_scrollHeight with_metrics
       with_itemHeights with_config with_element Part001.blank set_useFragment].
  replace (Part001.valid_array_length n) with true
    by (unfold Part001.valid_array_length; lia).
  cbn [bind]. fold s1. fold s2.
  set (s3 := with_itemPositions (Some (afill n (Fin 0))) s2).
  rewrite (computePositions_run 0 s3 (afill n (Fin q)) (afill n (Fin 0))
             eq_refl eq_refl).
  cbn [bind].
  set (ps := Part001.fill_positions _ _ _ _ _ _).
  set (s4 := with_itemPositions (Some ps) s3).
  assert (Hps0 : ps !! 0%nat = Some (Some (Fin 0))).
  { assert (Hget : aget ps 0 = Fin 0).
    { destruct (fill_forward (_scrollHeight s3) (afill n (Fin q))
                  (afill n (Fin 0)) 1 n ltac:(lia)) as [Hkeep _].
      specialize (Hkeep 0 ltac:(lia)).
      rewrite (aget_afill n 0 (Fin 0)) in Hkeep by lia. exact Hkeep. }
    unfold aget in Hget.
    change (0 <? 0) with false in Hget.
    change (Z.to_nat 0) with 0%nat in Hget. cbv beta iota in Hget.
    destruct (ps !! 0%nat) as [[p |] |]; try discriminate Hget.
    now rewrite Hget. }
  assert (Htruthy : truthy (_scrollHeight s4) = true).
  { cbn. apply negb_true_iff. apply not_true_iff_false.
    rewrite Qeq_bool_iff, Hx.
    assert (H : (inject_Z 1 <= inject_Z n)%Q) by (rewrite <- Zle_Qle; lia).
    change (inject_Z 1) with 1%Q in H. nra. }
  rewrite Htruthy.
  replace (bool_decide (_lastRepaint s4 <> None)) with false by reflexivity.
  assert (Hchunk : forall force t,
             _config t = _config s4 -> _itemHeights t = _itemHeights s4 ->
             _itemPositions t = _itemPositions s4 ->
             _element t = _element s4 ->
             _cachedItemsLen t = _cachedItemsLen s4 ->
             Part001._renderChunk force t
             = if negb force && nseq (_lastFrom t) (of_Z 0) then Return t false
               else Return
                      (with_children
                         (f <$> seqZ 0 (if n <? 2 * (3 * k) then n else 3 * k))
                         (with_lastFrom (of_Z 0) t)) true).
  { intros force t E1 E2 E3 E4 E5.
    apply (renderChunk_top force t ps n (3 * k) cq);
      rewrite ?E1, ?E2, ?E3, ?E4, ?E5; try reflexivity;
      [eexists; reflexivity | exact Hps0 | exact Hcq | lia | lia]. }
  rewrite (Hchunk false s4) by reflexivity.
  replace (negb false && nseq (_lastFrom s4) (of_Z 0)) with false
    by reflexivity.
  cbn [bind].
  set (s6 := with_children _ (with_lastFrom (of_Z 0) s4)).
  unfold Part001.render.
  replace (Part001._getScrollPosition s6) with (Fin 0) by reflexivity.
  assert (Hshould : Part001.should_render (Fin 0) s6 = true).
  { unfold Part001.should_render.
    replace (_lastRepaint s6) with (@None num) by reflexivity.
    cbn [from_option orb]. 
    replace (truthy (_scrollHeight s6)) with true by (symmetry; exact Htruthy).
    reflexivity. }
  rewrite Hshould, (Hchunk false s6) by reflexivity.
  replace (negb false && nseq (_lastFrom s6) (of_Z 0)) with true
    by reflexivity.
  cbn [bind]. eexists. split; [reflexivity |].
  cbn [_children _itemHeights _itemPositions _scrollHeight _screenItemsLen
       _cachedItemsLen
       _lastFrom _lastRepaint with_lastRepaint s6 with_children with_lastFrom
       s4 s3 s2 with_itemPositions with_scrollHeight with_metrics].
  split; [reflexivity |]. split; [reflexivity |].
  split.
  { exists ps. split; [reflexivity |]. split.
    { change (Z.of_nat (length (Part001.fill_positions false (Fin x)
                (afill n (Fin q)) (Part001.loop_count 1 (Count n)) 1
                (afill n (Fin 0)))) = n).
      rewrite fill_positions_length.
      - unfold afill. rewrite length_replicate. lia.
      - lia.
      - unfold afill, Part001.loop_count. rewrite length_replicate. lia. }
    intros j Hj.
    destruct (fill_uniform (Fin x) n q ltac:(lia) j Hj) as (p & Hp & Hpq).
    change (aget ps j = Fin p) in Hp. rewrite Hp. exact Hpq. }
  split; [exact Hx |].
  split; [reflexivity |]. split; [exact Hcq |]. split; reflexivity.
Qed.
(** X18: a new list of uniform rows.  The constructor of part_001, given
    a container scrolled to 0 with a whole client height [c >= 0] and the
    options [{generate, itemCount: n, itemHeight: q}] with [1 <= n], a
    whole height [q >= 1] and a generator that answers an element node for
    every index, all in the range that the code computes exactly
    ([n * q <= 2^53] and [3 * c <= 2^53]), returns an instance that shows
    the first rows of the list: with [cached = 3 * ceil(c / q)], the
    attached nodes are those of the rows [0 .. cached - 1] when
    [2 * cached <= n], and of all the [n] rows otherwise.  Its height
    table holds [n] times [q], its position table has [n] entries with row
    [j] placed at [j * q], its scroll height is [n * q], and the last
    rendered coordinate is 0. *)
Theorem construct_uniform (n q c : Z) :
  1 <= n <= 4294967295 ->
  1 <= q ->
  n * q <= Exact.exact_limit ->
  0 <= c ->
  3 * c <= Exact.exact_limit ->
  let rows_per_screen := Qceiling (inject_Z c / inject_Z q) in
  let cached := 3 * rows_per_screen in
  exists s,
    Part001.construct
      {| nodeType := 1; scrollTop := of_Z 0; clientHeight := of_Z c |}
      (Some {| new_generate := Some (Function gen);
               new_itemCount := Some (Count n);
               new_itemHeight := Some (HeightNumber (of_Z q));
               new_useFragment := None; new_reverse := None;
               new_overrideScrollPosition := None |})
    = Return s tt
    /\ _children s = f <$> seqZ 0 (if n <? 2 * cached then n else cached)
    /\ _itemHeights s = Some (afill n (of_Z q))
    /\ (exists ps, _itemPositions s = Some ps
                   /\ Z.of_nat (length ps) = n
                   /\ forall j, 0 <= j < n ->
                        nsame (aget ps j) (of_Z (j * q)))
    /\ nsame (_scrollHeight s) (of_Z (n * q))
    /\ _screenItemsLen s = of_Z rows_per_screen
    /\ nsame (_cachedItemsLen s) (of_Z cached)
    /\ _lastFrom s = of_Z 0
    /\ _lastRepaint s = Some (of_Z 0).
Proof.
  intros Hn Hq _ Hc _. cbv zeta.
  destruct (construct_uniform_rational n (inject_Z q) (inject_Z c) Hn)
    as (s & H1 & H2 & H3 & (ps & Hp & Hlen & Hpos) & H5 & H6 & H7 & H8 & H9).
  { change 0%Q with (inject_Z 0). rewrite <- Zlt_Qlt. lia. }
  { change 0%Q with (inject_Z 0). rewrite <- Zle_Qle. lia. }
  cbv zeta in H2, H6, H7. unfold of_Z in *.
  exists s. split; [exact H1 |]. split; [exact H2 |]. split; [exact H3 |].
  split.
  { exists ps. split; [exact Hp |]. split; [exact Hlen |]. intros j Hj.
    specialize (Hpos j Hj). destruct (aget ps j) as [x | | |];
      try contradiction.
    cbn [nsame] in *. rewrite Hpos, inject_Z_mult. reflexivity. }
  split.
  { destruct (_scrollHeight s) as [x | | |]; try contradiction.
    cbn [nsame] in *. rewrite H5, inject_Z_mult. reflexivity. }
  split; [exact H6 |]. split; [exact H7 |]. split; [exact H8 | exact H9].
Qed.

End UniformStartInner.

End UniformStart.

Section UniformStartExamples.
Import Chunk.

(** Fifty rows of 20 pixels in a container of 100: fifteen rows are
    attached. *)
Lemma construct_uniform_witness :
  exists s,
    Part001.construct
      {| nodeType := 1; scrollTop := of_Z 0; clientHeight := of_Z 100 |}
      (Some {| new_generate := Some (Function (fun i => GenNode (Z.to_nat i)));
               new_itemCount := Some (Count 50);
               new_itemHeight := Some (HeightNumber (of_Z 20));
               new_useFragment := None; new_reverse := None;
               new_overrideScrollPosition := None |})
    = Return s tt
    /\ _children s = Z.to_nat <$> seqZ 0 15.
Proof.
  destruct (construct_uniform (fun i => GenNode (Z.to_nat i)) Z.to_nat
              (fun _ => eq_refl) 50 20 100)
    as (s & H1 & H2 & _);
    [lia | lia | unfold Exact.exact_limit; lia | lia
     | unfold Exact.exact_limit; lia |].
  exists s. split; [exact H1 | exact H2].
Defined.

End UniformStartExamples.

(** ** The rendered chunk covers the viewport *)

Section ChunkCoverage.
Import Chunk.

Lemma nlt_nsub_of_Z (a b : Z) :
  nlt (nsub (of_Z a) (of_Z b)) (Fin 0) = (a - b <? 0).
Proof.
  unfold nsub, nneg, of_Z, nadd.
  destruct (Z.ltb_spec (a - b) 0) as [H | H].
  - apply nlt_Fin.
    assert (E : (inject_Z a < inject_Z b)%Q) by (rewrite <- Zlt_Qlt; lia). lra.
  - apply not_true_iff_false. rewrite nlt_Fin.
    assert (E : (inject_Z b <= inject_Z a)%Q) by (rewrite <- Zle_Qle; lia). lra.
Qed.

Lemma clamp_from_value (r k : Z) (s : HyperList) :
  _screenItemsLen s = of_Z k ->
  Part001.clamp_from (Some r) s
  = Some (if (r <? 0) || (r - k <? 0) then 0 else r).
Proof.
  intros Hk. unfold Part001.clamp_from. rewrite Hk.
  cbn [Part001.index_num]. change (Fin 0) with (of_Z 0) at 1.
  rewrite nlt_of_Z, nlt_nsub_of_Z. now destruct (_ || _).
Qed.

Lemma rows_count_from (t : HyperList) (z n K : Z) (cq : Q) :
  itemCount (_config t) = Count n ->
  _cachedItemsLen t = Fin cq ->
  (cq == inject_Z K)%Q ->
  0 <= K ->
  Part001.rows_count (Some z) (Part001.clamp_to (Some z) t)
  = Some (Z.to_nat ((if n <? z + 2 * K then n else z + K) - z)).
Proof.
  intros Hn Hc Hcq HK. unfold Part001.clamp_to. rewrite Hn, Hc.
  cbn [count_num Part001.index_num nadd of_Z].
  unfold ngt.
  destruct (Z.ltb_spec n (z + 2 * K)) as [Hlt | Hge].
  - assert (H2 : nlt (of_Z n) (Fin (inject_Z z + cq + cq)) = true).
    { unfold of_Z. apply nlt_Fin. rewrite Hcq.
      assert (H : (inject_Z n < inject_Z (z + 2 * K))%Q)
        by (rewrite <- Zlt_Qlt; lia).
      rewrite inject_Z_plus, inject_Z_mult in H.
      change (inject_Z 2) with 2%Q in H. lra. }
    rewrite H2, orb_true_r. unfold of_Z. cbn [Part001.rows_count].
    rewrite Qceiling_Z. reflexivity.
  - assert (H1 : nlt (of_Z n) (Fin (inject_Z z + cq)) = false).
    { apply not_true_iff_false. unfold of_Z. rewrite nlt_Fin, Hcq.
      assert (H : (inject_Z (z + K) <= inject_Z n)%Q)
        by (rewrite <- Zle_Qle; lia).
      rewrite inject_Z_plus in H. lra. }
    assert (H2 : nlt (of_Z n) (Fin (inject_Z z + cq + cq)) = false).
    { apply not_true_iff_false. unfold of_Z. rewrite nlt_Fin, Hcq.
      assert (H : (inject_Z (z + 2 * K) <= inject_Z n)%Q)
        by (rewrite <- Zle_Qle; lia).
      rewrite inject_Z_plus, inject_Z_mult in H.
      change (inject_Z 2) with 2%Q in H. lra. }
    rewrite H1, H2. cbn [orb Part001.rows_count].
    assert (E : Qceiling (inject_Z z + cq) = z + K).
    { rewrite <- (Qceiling_Z (z + K)). apply Qceiling_comp. rewrite Hcq.
      rewrite inject_Z_plus. reflexivity. }
    rewrite E. reflexivity.
Qed.

Lemma Zlt_of_scaled (a b : Z) (q : Q) :
  (0 < q)%Q -> (inject_Z a * q < inject_Z b * q)%Q -> a < b.
Proof.
  intros Hq H. rewrite Zlt_Qlt. apply Qmult_lt_r in H; assumption.
Qed.

Section ChunkCoverageInner.
Variables (gen : Z -> generated) (f : Z -> node).
Hypothesis gen_nodes : forall i, gen i = GenNode (f i).

(** X19: rows of one height [q], placed at [j * q], in forward mode with a
    generator of element nodes: when the metrics say that [k >= 1] rows fill
    the screen and three times as many are cached, a forced [_renderChunk]
    of part_001 attaches [m] consecutive rows from a row [z] on, and every
    row of the list that intersects the viewport [[y, y + c)] is among
    them, for any viewport height [c] of at most [k] rows. *)
Theorem chunk_covers_viewport (s : HyperList) (ps : array) (n k : Z)
    (q y c : Q) :
  generate (_config s) = Function gen ->
  reverse (_config s) = false ->
  overrideScrollPosition (_config s) = None ->
  itemCount (_config s) = Count n ->
  is_Some (_itemHeights s) ->
  _itemPositions s = Some ps ->
  Z.of_nat (length ps) = n ->
  (forall j, 0 <= j < n -> nsame (aget ps j) (Fin (inject_Z j * q))) ->
  (0 < q)%Q ->
  scrollTop (_element s) = Fin y ->
  _screenItemsLen s = of_Z k -> 1 <= k -> (c <= inject_Z k * q)%Q ->
  nsame (_cachedItemsLen s) (of_Z (3 * k)) ->
  exists (z : Z) (m : nat),
    Part001._renderChunk true s
    = Return (with_children (f <$> seqZ z (Z.of_nat m))
                (with_lastFrom (of_Z z) s)) true
    /\ forall j, 0 <= j < n ->
         (inject_Z j * q < y + c)%Q -> (y < inject_Z (j + 1) * q)%Q ->
         z <= j < z + Z.of_nat m.
Proof.
  intros Hg Hrev Hover Hn Hh Hp Hlen Hpos Hq Hy Hscreen Hk Hc Hcached.
  destruct (_cachedItemsLen s) as [cq | | |] eqn:Hcached';
    try contradiction.
  rename Hcached into Hcq. rename Hcached' into Hcached.
  cbn [nsame of_Z] in Hcq.
  assert (Hlook : forall j, 0 <= j < n ->
             exists p, ps !! Z.to_nat j = Some (Some (Fin p))
                       /\ (p == inject_Z j * q)%Q).
  { intros j Hj. specialize (Hpos j Hj). unfold aget in Hpos.
    destruct (Z.ltb_spec j 0); [lia |].
    destruct (ps !! Z.to_nat j) as [[[p | | |] |] |]; try contradiction.
    exists p. split; [reflexivity | exact Hpos]. }
  destruct (scan_from_spec ps (Fin y) 0) as (Hr & Hbelow & Hstop).
  set (r := fst (Part001.scan_from ps (Fin y) 0)) in *.
  assert (Hr' : 0 <= r <= n) by lia.
  assert (Hlow : forall j, 0 <= j < r -> (inject_Z j * q < y)%Q).
  { intros j Hj. destruct (Hbelow j Hj) as (p & Hp' & Hlt).
    destruct (Hlook j ltac:(lia)) as (p' & Hp'' & Hpq).
    rewrite Z.sub_0_r, Hp'' in Hp'. injection Hp' as <-.
    apply nlt_Fin in Hlt. rewrite Hpq in Hlt. exact Hlt. }
  assert (Hhigh : r < n -> (y <= inject_Z r * q)%Q).
  { intros Hrn. destruct (Hlook r ltac:(lia)) as (p' & Hp'' & Hpq).
    specialize (Hstop (Fin p')).
    rewrite Z.sub_0_r, Hp'' in Hstop. specialize (Hstop eq_refl).
    apply not_true_iff_false in Hstop. rewrite nlt_Fin, Hpq in Hstop.
    lra. }
  unfold Part001._renderChunk, Part001._getScrollPosition, Part001._getFrom.
  rewrite Hrev, Hover, Hy, Hp. cbn [bind]. fold r.
  unfold Part001.render_from.
  rewrite (clamp_from_value (r - 1) k s Hscreen).
  set (z := if (r - 1 <? 0) || (r - 1 - k <? 0) then 0 else r - 1).
  cbn [negb andb Part001.index_num default].
  rewrite clamp_to_lastFrom,
    (rows_count_from s z n (3 * k) cq Hn Hcached Hcq ltac:(lia)).
  set (to := if n <? z + 2 * (3 * k) then n else z + 3 * k).
  unfold id.
  destruct (row_loop_nodes gen f gen_nodes (Z.to_nat (to - z)) z
              (with_lastFrom (of_Z z) s) [] Hg Hh
              ltac:(cbn; rewrite Hp; eauto)) as [-> _].
  exists z, (Z.to_nat (to - z)). split; [reflexivity |].
  intros j Hj Hvis1 Hvis2.
  assert (Hz : z <= j).
  { unfold z. destruct ((r - 1 <? 0) || (r - 1 - k <? 0)) eqn:E; [lia |].
    apply orb_false_iff in E as [E1 E2].
    specialize (Hlow (r - 1) ltac:(lia)).
    assert (H : r - 1 < j + 1).
    { apply (Zlt_of_scaled _ _ q Hq). lra. }
    lia. }
  split; [exact Hz |].
  assert (Hto : j < to).
  { unfold to. destruct (Z.ltb_spec n (z + 2 * (3 * k))) as [E | E]; [lia |].
    destruct (Z_lt_le_dec r n) as [Hrn | Hrn].
    - specialize (Hhigh Hrn).
      assert (H : j < r + k).
      { apply (Zlt_of_scaled _ _ q Hq). rewrite inject_Z_plus. lra. }
      unfold z in *. destruct ((r - 1 <? 0) || (r - 1 - k <? 0)) eqn:E';
        lia.
    - unfold z in *. destruct ((r - 1 <? 0) || (r - 1 - k <? 0)) eqn:E';
        lia. }
  lia.
Qed.

End ChunkCoverageInner.

End ChunkCoverage.

Section ChunkCoverageExamples.
Import Chunk.

(** The fifty rows of 20 pixels scrolled to 400 in a viewport of 100: the
    rows 20 to 24 are in view and the chunk holds them. *)
Lemma chunk_covers_viewport_witness :
  exists (z : Z) (m : nat),
    Part001._renderChunk true (Demo.scrolled 400 Demo.fifty)
    = Return (with_children (Z.to_nat <$> seqZ z (Z.of_nat m))
                (with_lastFrom (of_Z z) (Demo.scrolled 400 Demo.fifty))) true
    /\ z <= 20 /\ 24 < z + Z.of_nat m.
Proof.
  assert (Hall : Forall (fun j => nsame
                   (aget (default [] (_itemPositions Demo.fifty)) j)
                   (Fin (inject_Z j * inject_Z 20))) (seqZ 0 50)).
  { let l := eval vm_compute in (seqZ 0 50) in change (seqZ 0 50) with l.
    repeat (constructor; [vm_compute; reflexivity |]). constructor. }
  destruct (chunk_covers_viewport (fun i => GenNode (Z.to_nat i)) Z.to_nat
              (fun _ => eq_refl) (Demo.scrolled 400 Demo.fifty)
              (default [] (_itemPositions Demo.fifty)) 50 5
              (inject_Z 20) (inject_Z 400) (inject_Z 100))
    as (z & m & H & Hcover);
    try reflexivity.
  - eexists; reflexivity.
  - intros j Hj. rewrite Forall_forall in Hall. apply Hall.
    apply elem_of_seqZ. lia.
  - lia.
  - vm_compute. discriminate.
  - exists z, m. split; [exact H |].
    pose proof (Hcover 20 ltac:(lia) eq_refl eq_refl).
    pose proof (Hcover 24 ltac:(lia) eq_refl eq_refl).
    lia.
Defined.

End ChunkCoverageExamples.
